(** * Remediation scripts of stable-diffusion-webui: a shallow embedding

    Every script of the repository is a top-to-bottom sequence of prints,
    package-manager subprocesses, probes of the Python runtime and file
    writes.  The embedding threads an explicit world through the code: the
    text files of the working directory, the printed lines, the subprocess
    invocations and the state of the host (installed packages, GPU), which the
    scripts only reach through the package manager and through imports. *)

From Stdlib Require Import ZArith Ascii String List Bool Lia.
From Stdlib Require Import DecimalString DecimalZ DecimalPos DecimalFacts.
From stdpp Require Import base option list gmap strings.

Local Open Scope string_scope.
Local Open Scope list_scope.
Local Open Scope Z_scope.

(** ** Python values the scripts handle *)

(** The double quote and the line feed, for string constants. *)
Definition dq : string := String (ascii_of_nat 34) EmptyString.
Definition nl : string := String (ascii_of_nat 10) EmptyString.

(** [s * n] on strings. *)
Fixpoint str_mul (s : string) (n : nat) : string :=
  match n with
  | O => ""
  | S k => s +:+ str_mul s k
  end.

(** [' '.join(xs)] *)
Fixpoint str_join (sep : string) (xs : list string) : string :=
  match xs with
  | [] => ""
  | [x] => x
  | x :: rest => x +:+ sep +:+ str_join sep rest
  end.

(** [s.startswith(p)] *)
Fixpoint startswith (p s : string) : bool :=
  match p with
  | EmptyString => true
  | String a p' =>
      match s with
      | EmptyString => false
      | String b s' => if Ascii.eqb a b then startswith p' s' else false
      end
  end.

(** [sub in s] *)
Fixpoint str_in (sub s : string) : bool :=
  startswith sub s ||
  match s with
  | EmptyString => false
  | String _ s' => str_in sub s'
  end.

(** [s.find(sub, start)], counted from the position [pos] of [s] in the
    whole string; [None] stands for Python's -1. *)
Fixpoint str_find_from (sub s : string) (pos : nat) : option nat :=
  if startswith sub s then Some pos
  else match s with
       | EmptyString => None
       | String _ s' => str_find_from sub s' (S pos)
       end.

Fixpoint str_drop (n : nat) (s : string) : string :=
  match n, s with
  | O, _ => s
  | S k, EmptyString => EmptyString
  | S k, String _ s' => str_drop k s'
  end.

Fixpoint str_take (n : nat) (s : string) : string :=
  match n, s with
  | O, _ => EmptyString
  | S k, EmptyString => EmptyString
  | S k, String c s' => String c (str_take k s')
  end.

Definition str_find (sub s : string) (start : nat) : option nat :=
  str_find_from sub (str_drop start s) start.

(** [s.replace(old, new)] for a non-empty [old]: the occurrences are found
    from the left and do not overlap.  [skip] counts the characters of a
    matched occurrence that are still to be dropped. *)
Fixpoint str_replace_go (old new : string) (skip : nat) (s : string) : string :=
  match s with
  | EmptyString => EmptyString
  | String c s' =>
      match skip with
      | S k => str_replace_go old new k s'
      | O =>
          if startswith old s
          then new +:+ str_replace_go old new (String.length old - 1) s'
          else String c (str_replace_go old new O s')
      end
  end.

Definition str_replace (old new s : string) : string :=
  str_replace_go old new O s.

(** [s.endswith(p)] *)
Definition endswith (p s : string) : bool :=
  let n := String.length s in
  let k := String.length p in
  (k <=? n)%nat && String.eqb (str_drop (n - k) s) p.

(** [s.upper()] on the ASCII letters. *)
Definition ascii_upper (c : ascii) : ascii :=
  let n := nat_of_ascii c in
  if ((97 <=? n) && (n <=? 122))%nat then ascii_of_nat (n - 32) else c.

Fixpoint str_upper (s : string) : string :=
  match s with
  | EmptyString => EmptyString
  | String c s' => String (ascii_upper c) (str_upper s')
  end.

(** [s.split()] is stdpp's [String.words]. *)

(** [str(n)] for a Python int. *)
Definition py_int_str (n : Z) : string := NilZero.string_of_int (Z.to_int n).

(** [str(b)] for a Python bool. *)
Definition py_bool_str (b : bool) : string := if b then "True" else "False".

(** [Path(p).name]: what follows the last separator. *)
Fixpoint path_name_go (acc s : string) : string :=
  match s with
  | EmptyString => acc
  | String c s' =>
      if Ascii.eqb c "/" then path_name_go EmptyString s'
      else path_name_go (acc +:+ String c EmptyString) s'
  end.
Definition path_name (p : string) : string := path_name_go EmptyString p.

(** ** JSON values, [json.dump] and [json.load]

    The values [json.load] builds, without floats.  A Python [str] is taken
    over the code points below 256, one [ascii] each; a [dict] is the list
    of its items in insertion order, with distinct keys. *)
#[warnings="-register-all"] Inductive json : Type :=
  | JNull
  | JBool (b : bool)
  | JInt (n : Z)
  | JStr (s : string)
  | JList (xs : list json)
  | JDict (items : list (string * json)).

(** [d.get(k)] *)
Fixpoint dict_get (k : string) (d : list (string * json)) : option json :=
  match d with
  | [] => None
  | (k', v) :: rest => if String.eqb k k' then Some v else dict_get k rest
  end.

(** [d[k] = v]: an existing key keeps its place, a new key goes last. *)
Fixpoint dict_set (k : string) (v : json) (d : list (string * json))
  : list (string * json) :=
  match d with
  | [] => [(k, v)]
  | (k', v') :: rest =>
      if String.eqb k k' then (k', v) :: rest
      else (k', v') :: dict_set k v rest
  end.

(** [dict(pairs)] *)
Definition py_dict (pairs : list (string * json)) : list (string * json) :=
  fold_left (fun d kv => dict_set (fst kv) (snd kv) d) pairs [].

(** The dicts inside a value have distinct keys, as every Python dict has. *)
Fixpoint distinct_keys (ks : list string) : bool :=
  match ks with
  | [] => true
  | k :: rest => negb (existsb (String.eqb k) rest) && distinct_keys rest
  end.

Fixpoint well_formed (v : json) : bool :=
  match v with
  | JList xs =>
      (fix all (xs : list json) : bool :=
         match xs with
         | [] => true
         | x :: rest => well_formed x && all rest
         end) xs
  | JDict items =>
      distinct_keys (map fst items) &&
      (fix all (items : list (string * json)) : bool :=
         match items with
         | [] => true
         | kv :: rest => well_formed (snd kv) && all rest
         end) items
  | _ => true
  end.

(** *** Encoding: [json.dumps(obj, indent=4)] *)

Definition bs : string := String (ascii_of_nat 92) EmptyString.

Definition hex_char (n : nat) : ascii :=
  match n with
  | 0 => "0" | 1 => "1" | 2 => "2" | 3 => "3" | 4 => "4" | 5 => "5"
  | 6 => "6" | 7 => "7" | 8 => "8" | 9 => "9" | 10 => "a" | 11 => "b"
  | 12 => "c" | 13 => "d" | 14 => "e" | _ => "f"
  end%nat%char.

(** One character under [ensure_ascii=True]: the short escapes, the
    printable ASCII characters as they are, and a [\u00XX] escape for the
    rest. *)
Definition encode_char (c : ascii) : string :=
  let n := nat_of_ascii c in
  if (n =? 34)%nat then bs +:+ dq
  else if (n =? 92)%nat then bs +:+ bs
  else if (n =? 10)%nat then bs +:+ "n"
  else if (n =? 13)%nat then bs +:+ "r"
  else if (n =? 9)%nat then bs +:+ "t"
  else if (n =? 8)%nat then bs +:+ "b"
  else if (n =? 12)%nat then bs +:+ "f"
  else if ((32 <=? n) && (n <=? 126))%nat then String c EmptyString
  else bs +:+ "u00" +:+ String (hex_char (n / 16)) (String (hex_char (n mod 16)) EmptyString).

Fixpoint encode_chars (s : string) : string :=
  match s with
  | EmptyString => EmptyString
  | String c s' => encode_char c +:+ encode_chars s'
  end.

Definition encode_string (s : string) : string := dq +:+ encode_chars s +:+ dq.

(** The line break and the indentation of nesting depth [level]. *)
Definition newline_indent (level : nat) : string := nl +:+ str_mul " " (4 * level).

Fixpoint encode (level : nat) (v : json) : string :=
  match v with
  | JNull => "null"
  | JBool true => "true"
  | JBool false => "false"
  | JInt n => py_int_str n
  | JStr s => encode_string s
  | JList [] => "[]"
  | JList (x :: rest) =>
      "[" +:+ newline_indent (S level) +:+ encode (S level) x +:+
      (fix more (xs : list json) : string :=
         match xs with
         | [] => newline_indent level +:+ "]"
         | y :: ys => "," +:+ newline_indent (S level) +:+ encode (S level) y +:+ more ys
         end) rest
  | JDict [] => "{}"
  | JDict (kv :: rest) =>
      "{" +:+ newline_indent (S level) +:+ encode_string (fst kv) +:+ ": "
      +:+ encode (S level) (snd kv) +:+
      (fix more (items : list (string * json)) : string :=
         match items with
         | [] => newline_indent level +:+ "}"
         | kv' :: items' =>
             "," +:+ newline_indent (S level) +:+ encode_string (fst kv') +:+ ": "
             +:+ encode (S level) (snd kv') +:+ more items'
         end) rest
  end.

Definition json_dumps (v : json) : string := encode 0 v.

(** *** Decoding: [json.loads(text)] *)

Definition is_json_space (c : ascii) : bool :=
  let n := nat_of_ascii c in
  ((n =? 32) || (n =? 9) || (n =? 10) || (n =? 13))%nat.

Fixpoint skip_ws (s : string) : string :=
  match s with
  | String c s' => if is_json_space c then skip_ws s' else s
  | EmptyString => EmptyString
  end.

Definition hex_val (c : ascii) : option nat :=
  let n := nat_of_ascii c in
  if ((48 <=? n) && (n <=? 57))%nat then Some (n - 48)%nat
  else if ((97 <=? n) && (n <=? 102))%nat then Some (n - 87)%nat
  else if ((65 <=? n) && (n <=? 70))%nat then Some (n - 55)%nat
  else None.

Definition hex4 (a b c d : ascii) : option nat :=
  match hex_val a, hex_val b, hex_val c, hex_val d with
  | Some x, Some y, Some z, Some w =>
      Some (((x * 16 + y) * 16 + z) * 16 + w)%nat
  | _, _, _, _ => None
  end.

(** The character a short escape stands for. *)
Definition unescape (c : ascii) : option ascii :=
  let n := nat_of_ascii c in
  if (n =? 34)%nat then Some c
  else if (n =? 92)%nat then Some c
  else if (n =? 47)%nat then Some c
  else if (n =? 98)%nat then Some (ascii_of_nat 8)
  else if (n =? 102)%nat then Some (ascii_of_nat 12)
  else if (n =? 110)%nat then Some (ascii_of_nat 10)
  else if (n =? 114)%nat then Some (ascii_of_nat 13)
  else if (n =? 116)%nat then Some (ascii_of_nat 9)
  else None.

Definition cons_char (c : ascii) (r : option (string * string))
  : option (string * string) :=
  match r with
  | Some (s, rest) => Some (String c s, rest)
  | None => None
  end.

(** The decoder's string scanner, entered after the opening quote: the
    decoded string and the text after the closing quote.  A raw control
    character is refused; an escape of a code point from 256 on leaves the
    modelled strings and gives [None]. *)
Fixpoint scanstring (s : string) : option (string * string) :=
  match s with
  | EmptyString => None
  | String c r =>
      if (nat_of_ascii c =? 34)%nat then Some (EmptyString, r)
      else if (nat_of_ascii c =? 92)%nat then
        match r with
        | EmptyString => None
        | String e r' =>
            if (nat_of_ascii e =? 117)%nat then
              match r' with
              | String h1 (String h2 (String h3 (String h4 r''))) =>
                  match hex4 h1 h2 h3 h4 with
                  | Some n =>
                      if (n <? 256)%nat
                      then cons_char (ascii_of_nat n) (scanstring r'')
                      else None
                  | None => None
                  end
              | _ => None
              end
            else
              match unescape e with
              | Some ch => cons_char ch (scanstring r')
              | None => None
              end
        end
      else if (nat_of_ascii c <? 32)%nat then None
      else cons_char c (scanstring r)
  end.

Definition digit_of (c : ascii) : option (Decimal.uint -> Decimal.uint) :=
  match nat_of_ascii c with
  | 48 => Some Decimal.D0 | 49 => Some Decimal.D1 | 50 => Some Decimal.D2
  | 51 => Some Decimal.D3 | 52 => Some Decimal.D4 | 53 => Some Decimal.D5
  | 54 => Some Decimal.D6 | 55 => Some Decimal.D7 | 56 => Some Decimal.D8
  | 57 => Some Decimal.D9 | _ => None
  end%nat.

(** The longest run of digits at the head of [s]. *)
Fixpoint scan_digits (s : string) : Decimal.uint * string :=
  match s with
  | EmptyString => (Decimal.Nil, EmptyString)
  | String c r =>
      match digit_of c with
      | Some d => let '(ds, rest) := scan_digits r in (d ds, rest)
      | None => (Decimal.Nil, s)
      end
  end.

(** Does a fraction or an exponent follow?  Such a number is a float. *)
Definition float_follows (s : string) : bool :=
  match s with
  | String c _ =>
      let n := nat_of_ascii c in ((n =? 46) || (n =? 101) || (n =? 69))%nat
  | EmptyString => false
  end.

(** An integer literal at the head of [s]: an optional minus sign, then a
    single zero or a run of digits. *)
Definition scan_int (s : string) : option (Z * string) :=
  let '(negative, s1) :=
    match s with
    | String c r => if (nat_of_ascii c =? 45)%nat then (true, r) else (false, s)
    | EmptyString => (false, s)
    end in
  let '(ds, rest) :=
    match s1 with
    | String c r =>
        if (nat_of_ascii c =? 48)%nat then (Decimal.D0 Decimal.Nil, r)
        else scan_digits s1
    | EmptyString => (Decimal.Nil, s1)
    end in
  match ds with
  | Decimal.Nil => None
  | _ =>
      if float_follows rest then None
      else Some (Z.of_int (if negative then Decimal.Neg ds else Decimal.Pos ds), rest)
  end.

(** The recursive-descent decoder.  [fuel] bounds the nesting of calls;
    [json_loads] gives it the length of the text, which is enough. *)
Fixpoint scan_value (fuel : nat) (s : string) : option (json * string) :=
  match fuel with
  | O => None
  | S fuel' =>
      match s with
      | EmptyString => None
      | String c r =>
          let n := nat_of_ascii c in
          if (n =? 34)%nat then
            match scanstring r with
            | Some (str, rest) => Some (JStr str, rest)
            | None => None
            end
          else if (n =? 123)%nat then
            match skip_ws r with
            | String c1 r1 =>
                if (nat_of_ascii c1 =? 125)%nat then Some (JDict [], r1)
                else if (nat_of_ascii c1 =? 34)%nat then
                  match scan_members fuel' r1 with
                  | Some (items, rest) => Some (JDict (py_dict items), rest)
                  | None => None
                  end
                else None
            | EmptyString => None
            end
          else if (n =? 91)%nat then
            match skip_ws r with
            | String c1 r1 =>
                if (nat_of_ascii c1 =? 93)%nat then Some (JList [], r1)
                else
                  match scan_elements fuel' (String c1 r1) with
                  | Some (xs, rest) => Some (JList xs, rest)
                  | None => None
                  end
            | EmptyString => None
            end
          else if startswith "null" s then Some (JNull, str_drop 4 s)
          else if startswith "true" s then Some (JBool true, str_drop 4 s)
          else if startswith "false" s then Some (JBool false, str_drop 5 s)
          else
            match scan_int s with
            | Some (z, rest) => Some (JInt z, rest)
            | None => None
            end
      end
  end
(** the elements of an array, up to and including the closing bracket *)
with scan_elements (fuel : nat) (s : string) : option (list json * string) :=
  match fuel with
  | O => None
  | S fuel' =>
      match scan_value fuel' s with
      | Some (v, r) =>
          match skip_ws r with
          | String c r1 =>
              if (nat_of_ascii c =? 93)%nat then Some ([v], r1)
              else if (nat_of_ascii c =? 44)%nat then
                match scan_elements fuel' (skip_ws r1) with
                | Some (vs, rest) => Some (v :: vs, rest)
                | None => None
                end
              else None
          | EmptyString => None
          end
      | None => None
      end
  end
(** the members of an object, entered after the opening quote of a key, up
    to and including the closing brace *)
with scan_members (fuel : nat) (s : string)
  : option (list (string * json) * string) :=
  match fuel with
  | O => None
  | S fuel' =>
      match scanstring s with
      | Some (key, r) =>
          match skip_ws r with
          | String c r1 =>
              if (nat_of_ascii c =? 58)%nat then
                match scan_value fuel' (skip_ws r1) with
                | Some (v, r2) =>
                    match skip_ws r2 with
                    | String c2 r3 =>
                        if (nat_of_ascii c2 =? 125)%nat then Some ([(key, v)], r3)
                        else if (nat_of_ascii c2 =? 44)%nat then
                          match skip_ws r3 with
                          | String c3 r4 =>
                              if (nat_of_ascii c3 =? 34)%nat then
                                match scan_members fuel' r4 with
                                | Some (items, rest) => Some ((key, v) :: items, rest)
                                | None => None
                                end
                              else None
                          | EmptyString => None
                          end
                        else None
                    | EmptyString => None
                    end
                | None => None
                end
              else None
          | EmptyString => None
          end
      | None => None
      end
  end.

(** [json.loads(text)]: one value between optional white space; [None] when
    the decoder raises. *)
Definition json_loads (text : string) : option json :=
  match scan_value (2 * String.length text + 2) (skip_ws text) with
  | Some (v, rest) =>
      match skip_ws rest with
      | EmptyString => Some v
      | _ => None
      end
  | None => None
  end.

(** ** Exceptions *)

(** The exception classes the scripts meet, all below [Exception].
    [Other name msg] is any further subclass ([TypeError], [RuntimeError],
    [AttributeError], a JSON decoding error, ...). *)
Inductive exn : Type :=
  | CalledProcessError (cmd : list string) (returncode : Z) (stderr : string)
  | TimeoutExpired (cmd : list string)
  | OSError (msg : string)
  | ImportError (msg : string)
  | Other (name msg : string).

Definition is_CalledProcessError (e : exn) : bool :=
  match e with CalledProcessError _ _ _ => true | _ => false end.
Definition is_TimeoutExpired (e : exn) : bool :=
  match e with TimeoutExpired _ => true | _ => false end.
Definition is_ImportError (e : exn) : bool :=
  match e with ImportError _ => true | _ => false end.
Definition is_Exception (e : exn) : bool := true.
(** [except AttributeError] *)
Definition is_AttributeError (e : exn) : bool :=
  match e with
  | Other name _ => String.eqb name "AttributeError"
  | _ => false
  end.

(** [repr] of a list of plain strings, as it shows in [str(e)]. *)
Definition py_repr_list (xs : list string) : string :=
  "[" +:+ str_join ", " (map (fun x => "'" +:+ x +:+ "'") xs) +:+ "]".

(** [str(e)] *)
Definition exn_str (e : exn) : string :=
  match e with
  | CalledProcessError cmd rc _ =>
      "Command '" +:+ py_repr_list cmd +:+ "' returned non-zero exit status "
      +:+ py_int_str rc +:+ "."
  | TimeoutExpired cmd =>
      "Command '" +:+ py_repr_list cmd +:+ "' timed out"
  | OSError msg => msg
  | ImportError msg => msg
  | Other _ msg => msg
  end.

(** The result of running a piece of code. *)
Inductive res (A : Type) : Type :=
  | Ret (a : A)
  | Raise (e : exn).
Arguments Ret {A} a.
Arguments Raise {A} e.

(** ** The host *)

(** What a child process leaves. *)
Inductive proc_outcome : Type :=
  | Exited (returncode : Z) (stdout stderr : string)
  | SpawnFailed (e : exn).

(** What [import torch] gives when it succeeds. *)
Record torch_info : Type := {
  torch_version : string;
  cuda_available : bool;
  cuda_version : string;
  device_name : string;
  (** the device memory in GB, with one decimal *)
  total_memory_gb : string;
  (** the outcome of the tensor operations of a code place, by its name *)
  tensor_op : string -> res unit
}.

(** A streamed HTTP response: the progress texts printed while the body is
    written, the text received, and the error that broke the stream. *)
Record http_response : Type := {
  progress : list string;
  body : string;
  broken : option exn
}.

(** The part of the machine that the scripts do not own: the Python
    environment with its installed packages, the GPU and the network.  The
    scripts change it only by spawning processes and read it only by
    importing modules. *)
Class Platform : Type := {
  Host : Type;
  sys_executable : string;
  sys_version : string;
  (** [subprocess.run(cmd, ...)] on a host: what the child does and the host
      it leaves. *)
  spawn : list string -> Host -> proc_outcome * Host;
  (** [import torch] *)
  import_torch : Host -> res torch_info;
  (** [import name], with the files of the working tree in view *)
  import_module : string -> Host -> gmap string string -> res unit;
  (** the text of a Python expression over the imported modules *)
  py_eval : string -> Host -> gmap string string -> res string;
  (** [requests.get(url, stream=True)] with [raise_for_status()] *)
  http_get : string -> Host -> res http_response;
  (** [site.getsitepackages()[0]] *)
  site_packages : Host -> res string;
  (** [repr] of a list or of a dict *)
  repr_container : json -> string;
  (** the message of the decoder for a text it refuses *)
  decode_error_msg : string -> string
}.

(** ** The world *)

Record World `{Platform} : Type := mkWorld {
  host : Host;
  (** the files, by path, with their text; paths are written with [/] *)
  fs : gmap string string;
  (** the directories made so far; a directory also exists when a file lies
      below it *)
  dirs : gset string;
  (** paths that cannot be opened for writing or created *)
  locked : gset string;
  (** what the successive [print] calls wrote to the standard output *)
  out : list string;
  (** the command lines given to [subprocess.run] so far, oldest first *)
  procs : list (list string)
}.
Arguments mkWorld {_} _ _ _ _ _ _.

(** [os.path.dirname(p)] *)
Fixpoint path_parent_go (seen acc s : string) : string :=
  match s with
  | EmptyString => seen
  | String c s' =>
      if Ascii.eqb c "/" then path_parent_go acc (acc +:+ "/") s'
      else path_parent_go seen (acc +:+ String c EmptyString) s'
  end.
Definition path_parent (p : string) : string :=
  path_parent_go EmptyString EmptyString p.

(** The directories above [p], nearest last, and [p] itself. *)
Fixpoint path_prefixes_go (acc s : string) : list string :=
  match s with
  | EmptyString => [acc]
  | String c s' =>
      if Ascii.eqb c "/" then acc :: path_prefixes_go (acc +:+ "/") s'
      else path_prefixes_go (acc +:+ String c EmptyString) s'
  end.
Definition path_prefixes (p : string) : list string :=
  path_prefixes_go EmptyString p.

(** [str(x)] for a decoded value. *)
Definition py_str `{Platform} (v : json) : string :=
  match v with
  | JNull => "None"
  | JBool b => py_bool_str b
  | JInt n => py_int_str n
  | JStr s => s
  | _ => repr_container v
  end.

(** [type(x).__name__] *)
Definition type_name (v : json) : string :=
  match v with
  | JNull => "NoneType"
  | JBool _ => "bool"
  | JInt _ => "int"
  | JStr _ => "str"
  | JList _ => "list"
  | JDict _ => "dict"
  end.

(** [x == s] for a string [s] *)
Definition eq_str (v : json) (s : string) : bool :=
  match v with
  | JStr t => String.eqb t s
  | _ => false
  end.

Section Runtime.
Context `{Platform}.

(** A computation reads and changes the world and returns or raises. *)
Definition M (A : Type) : Type := World -> res A * World.

Definition ret {A} (a : A) : M A := fun w => (Ret a, w).
Definition raise {A} (e : exn) : M A := fun w => (Raise e, w).
Definition bind {A B} (m : M A) (k : A -> M B) : M B :=
  fun w => match m w with
           | (Ret a, w') => k a w'
           | (Raise e, w') => (Raise e, w')
           end.

(** [try: body  except <class> as e: handler e]: [catches e] tells whether
    the except clause matches. *)
Definition try_except {A} (body : M A) (catches : exn -> bool)
    (handler : exn -> M A) : M A :=
  fun w => match body w with
           | (Ret a, w') => (Ret a, w')
           | (Raise e, w') =>
               if catches e then handler e w' else (Raise e, w')
           end.

Definition lift_res {A} (r : res A) : M A := fun w => (r, w).

(** A look at the world that leaves it as it is. *)
Definition read_world {A} (f : World -> res A) : M A := fun w => (f w, w).

(** [print(text, end=e)] *)
Definition print_end (text e : string) : M unit :=
  fun w => (Ret tt, mkWorld (host w) (fs w) (dirs w) (locked w)
                            (out w ++ [text +:+ e]) (procs w)).

(** [print(text)] *)
Definition print (text : string) : M unit := print_end text nl.

(** Is there a directory at [path]? *)
Definition dir_exists (path : string) (w : World) : bool :=
  bool_decide (path ∈ dirs w)
  || existsb (fun kv => startswith (path +:+ "/") (fst kv)) (map_to_list (fs w)).

Definition file_exists (path : string) (w : World) : bool :=
  bool_decide (is_Some (fs w !! path)).

(** [os.path.exists(path)] *)
Definition path_exists (path : string) : M bool :=
  read_world (fun w => Ret (file_exists path w || dir_exists path w)).

(** [with open(path, 'r') as f: f.read()] *)
Definition read_file (path : string) : M string :=
  read_world (fun w =>
    match fs w !! path with
    | Some text => Ret text
    | None => Raise (OSError ("[Errno 2] No such file or directory: '"
                              +:+ path +:+ "'"))
    end).

(** Can [path] be opened for writing?  Its directory must exist, and
    neither a lock nor a directory may be in the way. *)
Definition writable (path : string) (w : World) : bool :=
  negb (bool_decide (path ∈ locked w))
  && negb (dir_exists path w)
  && (String.eqb (path_parent path) "" || dir_exists (path_parent path) w).

(** [with open(path, 'w') as f: f.write(text)]: the file is created or
    truncated, then holds [text]. *)
Definition write_file (path text : string) : M unit :=
  fun w => if writable path w
           then (Ret tt, mkWorld (host w) (<[path := text]> (fs w)) (dirs w)
                                 (locked w) (out w) (procs w))
           else (Raise (OSError ("[Errno 13] Permission denied: '"
                                 +:+ path +:+ "'")), w).

(** [Path(path).mkdir(exist_ok=True)] *)
Definition mkdir (path : string) : M unit :=
  fun w =>
    if dir_exists path w then (Ret tt, w)
    else if file_exists path w then
      (Raise (OSError ("[Errno 17] File exists: '" +:+ path +:+ "'")), w)
    else if negb (String.eqb (path_parent path) "" || dir_exists (path_parent path) w) then
      (Raise (OSError ("[Errno 2] No such file or directory: '" +:+ path +:+ "'")), w)
    else if bool_decide (path ∈ locked w) then
      (Raise (OSError ("[Errno 13] Permission denied: '" +:+ path +:+ "'")), w)
    else (Ret tt, mkWorld (host w) (fs w) ({[path]} ∪ dirs w) (locked w)
                          (out w) (procs w)).

(** [os.makedirs(path, exist_ok=True)] *)
Definition makedirs (path : string) : M unit :=
  fun w =>
    if existsb (fun p => bool_decide (p ∈ locked w) || file_exists p w)
               (path_prefixes path)
    then (Raise (OSError ("[Errno 13] Permission denied: '" +:+ path +:+ "'")), w)
    else (Ret tt, mkWorld (host w) (fs w)
                          (list_to_set (path_prefixes path) ∪ dirs w)
                          (locked w) (out w) (procs w)).

(** [subprocess.run(cmd, check=check, capture_output=True)]: the command is
    recorded, the host moves on, and the call returns the exit code, or
    raises [CalledProcessError] for a non-zero code under [check=True]. *)
Definition subprocess_run (cmd : list string) (check : bool) : M Z :=
  fun w =>
    let '(o, h') := spawn cmd (host w) in
    let w' := mkWorld h' (fs w) (dirs w) (locked w) (out w) (procs w ++ [cmd]) in
    match o with
    | Exited rc _ err =>
        if check && negb (rc =? 0)
        then (Raise (CalledProcessError cmd rc err), w')
        else (Ret rc, w')
    | SpawnFailed e => (Raise e, w')
    end.

Definition py_import_torch : M torch_info :=
  read_world (fun w => import_torch (host w)).

Definition py_import (name : string) : M unit :=
  read_world (fun w => import_module name (host w) (fs w)).

Definition py_value (expr : string) : M string :=
  read_world (fun w => py_eval expr (host w) (fs w)).

(** [json.load(f)] on the text of a file. *)
Definition json_load (text : string) : M json :=
  match json_loads text with
  | Some v => ret v
  | None => raise (Other "JSONDecodeError" (decode_error_msg text))
  end.

(** [x.get(k, default)]; only a dict has the method. *)
Definition py_get (v : json) (k : string) (default : json) : M json :=
  match v with
  | JDict items =>
      ret (match dict_get k items with Some x => x | None => default end)
  | _ => raise (Other "AttributeError"
                  ("'" +:+ type_name v +:+ "' object has no attribute 'get'"))
  end.

(** [x[k] = value] for a string [k]; only a dict takes it. *)
Definition py_setitem (v : json) (k : string) (value : json) : M json :=
  match v with
  | JDict items => ret (JDict (dict_set k value items))
  | JList _ =>
      raise (Other "TypeError" "list indices must be integers or slices, not str")
  | _ => raise (Other "TypeError"
                  ("'" +:+ type_name v +:+ "' object does not support item assignment"))
  end.

End Runtime.

(** The code reads [x ← step; rest] and [step;; rest]. *)
Declare Scope py_scope.
Delimit Scope py_scope with py.
Notation "x ← y ; z" := (bind y (fun x => z))
  (at level 20, y at level 100, z at level 200, only parsing) : py_scope.
Notation "x ;; z" := (bind x (fun _ => z))
  (at level 100, z at level 200, only parsing, right associativity) : py_scope.
Open Scope py_scope.

Section Loops.
Context `{Platform}.

(** [for x in xs: body x], where the body may [return r] from the enclosing
    function ([Some r]) or fall through to the next item ([None], also for
    [continue]).  The loop gives [Some r] when the body returned. *)
Fixpoint for_each {X R} (xs : list X) (body : X -> M (option R)) : M (option R) :=
  match xs with
  | [] => ret None
  | x :: rest =>
      r ← body x;
      match r with
      | Some v => ret (Some v)
      | None => for_each rest body
      end
  end.

(** A loop whose body never returns from the function. *)
Fixpoint for_do {X} (xs : list X) (body : X -> M unit) : M unit :=
  match xs with
  | [] => ret tt
  | x :: rest => body x;; for_do rest body
  end.

End Loops.

(** The exit status of a script whose [main] ran in [w]: 0 when [main]
    returned, 1 when an exception went uncaught (the interpreter prints the
    traceback and exits with status 1). *)
Definition exit_status `{Platform} (main : M unit) (w : World) : Z :=
  match main w with
  | (Ret _, _) => 0
  | (Raise _, _) => 1
  end.

(** What a [print] of [text] leaves in the output. *)
Definition line (text : string) : string := text +:+ nl.

(** ** fix_pytorch_cuda.py *)

Module fix_pytorch_cuda.
Section Script.
Context `{Platform}.

Definition check_current_pytorch : M bool :=
  try_except
    (torch ← py_import_torch;
     print ("Current PyTorch version: " +:+ torch_version torch);;
     print ("CUDA available: " +:+ py_bool_str (cuda_available torch));;
     (if cuda_available torch
      then print ("CUDA version: " +:+ cuda_version torch);;
           print ("GPU device: " +:+ device_name torch)
      else print "⚠️  CPU-only version detected");;
     ret true)
    is_ImportError
    (fun _ => print "PyTorch is not installed";; ret false).

Definition packages_to_remove : list string :=
  ["torch"; "torchvision"; "torchaudio"].

Definition uninstall_command (package : string) : list string :=
  [sys_executable; "-m"; "pip"; "uninstall"; package; "-y"].

(** The body of the loop over [packages_to_remove]. *)
Definition uninstall_package (package : string) : M unit :=
  try_except
    (print ("Uninstalling " +:+ package +:+ "...");;
     subprocess_run (uninstall_command package) true;;
     print ("✅ " +:+ package +:+ " uninstalled"))
    is_CalledProcessError
    (fun e => print ("⚠️  " +:+ package +:+ " not found or already uninstalled")).

Definition uninstall_current_pytorch : M unit :=
  print (nl +:+ "=== Uninstalling Current PyTorch ===");;
  for_do packages_to_remove uninstall_package.

Record cuda_config : Type := {
  version : string;
  url : string;
  description : string
}.

Definition cuda_configs : list cuda_config := [
  {| version := "cu121";
     url := "https://download.pytorch.org/whl/cu121";
     description := "CUDA 12.1 (matches your system)" |};
  {| version := "cu118";
     url := "https://download.pytorch.org/whl/cu118";
     description := "CUDA 11.8 (fallback)" |};
  {| version := "cu124";
     url := "https://download.pytorch.org/whl/cu124";
     description := "CUDA 12.4 (newer)" |}
].

Definition install_command (config : cuda_config) : list string :=
  [sys_executable; "-m"; "pip"; "install";
   "torch==2.6.0";
   "torchvision==0.21.0";
   "torchaudio==2.6.0";
   "--extra-index-url"; url config;
   "--force-reinstall"].

Definition verify_cuda : M bool :=
  try_except
    (torch ← py_import_torch;
     if cuda_available torch
     then lift_res (tensor_op torch "verify_cuda");; ret true
     else ret false)
    is_Exception
    (fun e => print ("CUDA verification error: " +:+ exn_str e);; ret false).

(** The body of the loop over [cuda_configs]: [Some true] is [return True],
    [None] is [continue]. *)
Definition try_config (config : cuda_config) : M (option bool) :=
  print (nl +:+ "🔄 Trying " +:+ description config +:+ "...");;
  print ("Command: " +:+ str_join " " (install_command config));;
  try_except
    (subprocess_run (install_command config) true;;
     print "✅ Installation successful!";;
     ok ← verify_cuda;
     if ok
     then print ("✅ CUDA verification successful with "
                 +:+ str_upper (version config) +:+ "!");;
          ret (Some true)
     else print ("⚠️  CUDA not working with "
                 +:+ str_upper (version config) +:+ ", trying next...");;
          ret None)
    is_CalledProcessError
    (fun e =>
       print ("❌ Installation failed with " +:+ str_upper (version config));;
       print ("Error: " +:+
              match e with
              | CalledProcessError _ _ stderr =>
                  if String.eqb stderr "" then exn_str e else stderr
              | _ => exn_str e
              end);;
       ret None).

Definition install_cuda_pytorch_from (configs : list cuda_config) : M bool :=
  r ← for_each configs try_config;
  match r with
  | Some b => ret b
  | None => ret false
  end.

Definition install_cuda_pytorch : M bool :=
  print (nl +:+ "=== Installing CUDA-enabled PyTorch 2.6.0 ===");;
  install_cuda_pytorch_from cuda_configs.

Definition test_installation : M bool :=
  print (nl +:+ "=== Testing Final Installation ===");;
  try_except
    (torch ← py_import_torch;
     print ("✅ PyTorch version: " +:+ torch_version torch);;
     print ("✅ Python version: " +:+ sys_version);;
     if cuda_available torch
     then print "✅ CUDA is available!";;
          print ("✅ CUDA version: " +:+ cuda_version torch);;
          print ("✅ GPU device: " +:+ device_name torch);;
          print ("✅ GPU memory: " +:+ total_memory_gb torch +:+ " GB");;
          lift_res (tensor_op torch "test_installation");;
          print "✅ GPU tensor operations working!";;
          ret true
     else print "❌ CUDA is not available";;
          ret false)
    is_Exception
    (fun e => print ("❌ Test failed: " +:+ exn_str e);; ret false).

Definition webui_content : string :=
"@echo off
set TORCH_COMMAND=pip install torch==2.6.0 torchvision==0.21.0 --extra-index-url https://download.pytorch.org/whl/cu121
set COMMANDLINE_ARGS=--skip-python-version-check
call webui.bat %*
".

Definition update_webui_config : M unit :=
  print (nl +:+ "=== Updating WebUI Configuration ===");;
  try_except
    (write_file "webui_env.bat" webui_content;;
     print "✅ Updated webui_env.bat with CUDA configuration")
    is_Exception
    (fun e => print ("⚠️  Could not update webui_env.bat: " +:+ exn_str e)).

(** The closing block of [main]. *)
Definition next_steps : M unit :=
  print (nl +:+ str_mul "=" 50);;
  print "Next steps:";;
  print ("1. Test with: python -c " +:+ dq
         +:+ "import torch; print(torch.cuda.is_available())" +:+ dq);;
  print "2. Launch webui with: webui_env.bat";;
  print "3. Check GPU usage in Task Manager during generation".

(** The fix itself, entered when CUDA is not available. *)
Definition fix_process : M unit :=
  print (nl +:+ "🔧 CUDA not available. Starting fix process...");;
  uninstall_current_pytorch;;
  success ← install_cuda_pytorch;
  (if success
   then print (nl +:+ "✅ CUDA PyTorch installation completed!");;
        ok ← test_installation;
        (if ok
         then print (nl +:+ "🎉 Success! PyTorch with CUDA is now working!")
         else print (nl +:+ "❌ Installation completed but CUDA test failed"));;
        update_webui_config
   else print (nl +:+ "❌ CUDA installation failed");;
        print "Possible solutions:";;
        print "1. Check that NVIDIA drivers are properly installed";;
        print "2. Verify CUDA 12.1 is installed on your system";;
        print "3. Try running: nvidia-smi to check GPU status";;
        print "4. Consider using CPU-only mode as fallback");;
  next_steps.

(** The probe guarding the fix: [true] when [main] returned inside the
    [try] (CUDA already works), [false] when control falls through, also
    after the bare [except: pass]. *)
Definition cuda_already_working : M bool :=
  try_except
    (torch ← py_import_torch;
     if cuda_available torch
     then print "✅ CUDA is already working! No fix needed.";;
          test_installation;;
          ret true
     else ret false)
    is_Exception
    (fun _ => ret false).

Definition main : M unit :=
  print "PyTorch CUDA Fix for Python 3.13";;
  print (str_mul "=" 50);;
  print "Checking current PyTorch installation...";;
  pytorch_installed ← check_current_pytorch;
  if negb pytorch_installed
  then print "❌ PyTorch not found. Please run the main fix script first."
  else
    returned ← cuda_already_working;
    if returned then ret tt else fix_process.

End Script.
End fix_pytorch_cuda.

(** ** fix_grey_images.py *)

Module fix_grey_images.
Section Script.
Context `{Platform}.

Definition ui_config_file : string := "ui-config.json".
Definition txt2img_key : string := "txt2img/Preferred VAE/value".
Definition img2img_key : string := "img2img/Preferred VAE/value".

Definition check_current_vae_config : M bool :=
  print "=== Checking Current VAE Configuration ===";;
  found ← path_exists ui_config_file;
  if found
  then
    try_except
      (text ← read_file ui_config_file;
       ui_config ← json_load text;
       txt2img_vae ← py_get ui_config txt2img_key (JStr "None");
       img2img_vae ← py_get ui_config img2img_key (JStr "None");
       print ("Current txt2img VAE: " +:+ py_str txt2img_vae);;
       print ("Current img2img VAE: " +:+ py_str img2img_vae);;
       if eq_str txt2img_vae "None" && eq_str img2img_vae "None"
       then print "❌ No VAE configured - this is likely causing grey images!";;
            ret false
       else print "✅ VAE is configured";;
            ret true)
      is_Exception
      (fun e => print ("❌ Error reading ui-config.json: " +:+ exn_str e);;
                ret false)
  else print "❌ ui-config.json not found";;
       ret false.

(** [list(Path(dir).glob("*" + ext))]: the files right below [dir] whose
    name ends in [ext], in the order of the directory. *)
Definition glob_ext (dir ext : string) (files : gmap string string) : list string :=
  List.filter (fun p : string =>
                 startswith (dir +:+ "/") p
                 && negb (str_in "/" (str_drop (String.length dir + 1) p))
                 && endswith ext p)
              (map fst (map_to_list files)).

Definition vae_dir : string := "models/VAE".

Definition check_available_vaes : M (list string) :=
  print (nl +:+ "=== Checking Available VAE Files ===");;
  present ← path_exists vae_dir;
  vae_files ← (if present
               then read_world (fun w =>
                      Ret (flat_map (fun ext => glob_ext vae_dir ext (fs w))
                                    [".pt"; ".ckpt"; ".safetensors"]))
               else ret []);
  match vae_files with
  | _ :: _ =>
      print "✅ Found VAE files:";;
      for_do vae_files (fun vae_file => print ("  - " +:+ path_name vae_file));;
      ret vae_files
  | [] =>
      print "❌ No VAE files found in models/VAE/";;
      ret []
  end.

Definition vae_url : string :=
  "https://huggingface.co/stabilityai/sd-vae-ft-mse-original/resolve/main/vae-ft-mse-840000-ema-pruned.safetensors".
Definition vae_filename : string := "vae-ft-mse-840000-ema-pruned.safetensors".
Definition vae_path : string := vae_dir +:+ "/" +:+ vae_filename.

Definition cr : string := String (ascii_of_nat 13) EmptyString.

(** [None] is Python's [None], [Some p] the path as a string. *)
Definition download_recommended_vae : M (option string) :=
  print (nl +:+ "=== Downloading Recommended VAE ===");;
  mkdir vae_dir;;
  present ← path_exists vae_path;
  if present
  then print ("✅ VAE already exists: " +:+ vae_filename);;
       ret (Some vae_path)
  else
    print ("Downloading VAE: " +:+ vae_filename);;
    print "This may take a few minutes...";;
    try_except
      (response ← read_world (fun w => http_get vae_url (host w));
       write_file vae_path (body response);;
       for_do (progress response) (fun percent =>
         print_end (cr +:+ "Progress: " +:+ percent +:+ "%") "");;
       match broken response with
       | Some e => raise e
       | None =>
           print (nl +:+ "✅ Downloaded VAE: " +:+ vae_filename);;
           ret (Some vae_path)
       end)
      is_Exception
      (fun e => print (nl +:+ "❌ Failed to download VAE: " +:+ exn_str e);;
                ret None).

Definition configure_vae_in_ui_config (vae_name : string) : M bool :=
  print (nl +:+ "=== Configuring VAE: " +:+ vae_name +:+ " ===");;
  try_except
    (found ← path_exists ui_config_file;
     ui_config ← (if found
                  then text ← read_file ui_config_file; json_load text
                  else ret (JDict []));
     ui_config ← py_setitem ui_config txt2img_key (JStr vae_name);
     ui_config ← py_setitem ui_config img2img_key (JStr vae_name);
     write_file ui_config_file (json_dumps ui_config);;
     print ("✅ Configured VAE in ui-config.json: " +:+ vae_name);;
     ret true)
    is_Exception
    (fun e => print ("❌ Failed to configure VAE: " +:+ exn_str e);;
              ret false).

Definition script_content : string :=
"@echo off
echo Starting WebUI with VAE fixes for grey image issue...
echo.

REM VAE-specific fixes
set COMMANDLINE_ARGS=--skip-python-version-check --skip-install
set COMMANDLINE_ARGS=%COMMANDLINE_ARGS% --precision autocast
set COMMANDLINE_ARGS=%COMMANDLINE_ARGS% --opt-split-attention
set COMMANDLINE_ARGS=%COMMANDLINE_ARGS% --medvram

REM Force VAE to not use half precision (fixes grey images)
set COMMANDLINE_ARGS=%COMMANDLINE_ARGS% --no-half-vae

REM Additional stability flags
set COMMANDLINE_ARGS=%COMMANDLINE_ARGS% --opt-sub-quad-attention

echo VAE Configuration:
echo - Forcing full precision VAE (--no-half-vae)
echo - GPU acceleration enabled
echo - Memory optimization enabled
echo - This should fix grey image generation
echo.

call webui.bat %*
".

Definition script_filename : string := "webui_vae_fixed.bat".

Definition create_vae_fix_launch_script : M bool :=
  print (nl +:+ "=== Creating VAE-Fixed Launch Script ===");;
  try_except
    (write_file script_filename script_content;;
     print ("✅ Created launch script: " +:+ script_filename);;
     ret true)
    is_Exception
    (fun e => print ("❌ Failed to create launch script: " +:+ exn_str e);;
              ret false).

Definition test_vae_configuration : M bool :=
  print (nl +:+ "=== Testing VAE Configuration ===");;
  try_except
    (torch ← py_import_torch;
     print ("PyTorch version: " +:+ torch_version torch);;
     print ("CUDA available: " +:+ py_bool_str (cuda_available torch));;
     lift_res (tensor_op torch "torch.randn(1, 4, 64, 64)");;
     (if cuda_available torch
      then lift_res (tensor_op torch "test_tensor.cuda()")
      else ret tt);;
     print "✅ Basic tensor operations working";;
     ret true)
    is_Exception
    (fun e => print ("❌ VAE test failed: " +:+ exn_str e);; ret false).

(** The closing block of [main]. *)
Definition summary (vae_name : string) : M unit :=
  print (nl +:+ str_mul "=" 50);;
  print "GREY IMAGE FIX SUMMARY";;
  print (str_mul "=" 50);;
  print "✅ VAE configuration completed!";;
  print ("✅ VAE file: " +:+ vae_name);;
  print "✅ Launch script created: webui_vae_fixed.bat";;
  print "✅ UI configuration updated";;
  print (nl +:+ "Next steps:");;
  print ("1. Launch WebUI: ." +:+ bs +:+ "webui_vae_fixed.bat");;
  print "2. Generate a test image with prompt: 'a red apple'";;
  print "3. Images should now show actual content instead of grey";;
  print "4. If still grey, try different VAE in Settings > Stable Diffusion";;
  print (nl +:+ "Troubleshooting:");;
  print "- Make sure VAE is selected in WebUI Settings";;
  print "- Try --no-half-vae flag if images are still grey";;
  print "- Check that model and VAE are compatible".

(** The VAE [main] settles on: [None] when it returns early. *)
Definition choose_vae (available_vaes : list string) : M (option string) :=
  match available_vaes with
  | [] =>
      print (nl +:+ "🔄 No VAE files found. Downloading recommended VAE...");;
      downloaded ← download_recommended_vae;
      match downloaded with
      | Some path => ret (Some (path_name path))
      | None =>
          print "❌ Failed to download VAE. Please download manually.";;
          ret None
      end
  | first :: _ =>
      print (nl +:+ "✅ Using existing VAE: " +:+ path_name first);;
      ret (Some (path_name first))
  end.

Definition main : M unit :=
  print "Grey Image Fix for Stable Diffusion WebUI";;
  print (str_mul "=" 50);;
  vae_configured ← check_current_vae_config;
  available_vaes ← check_available_vaes;
  chosen ← choose_vae available_vaes;
  match chosen with
  | None => ret tt
  | Some vae_name =>
      (if negb vae_configured
       then configure_vae_in_ui_config vae_name;; ret tt
       else ret tt);;
      create_vae_fix_launch_script;;
      test_vae_configuration;;
      summary vae_name
  end.

End Script.
End fix_grey_images.

(** ** diagnose_vae_issue.py *)

Module diagnose_vae_issue.
Section Script.
Context `{Platform}.

Definition check_webui_vae_loading : M bool :=
  print (nl +:+ "=== Checking WebUI VAE Configuration ===");;
  try_except
    (text ← read_file "ui-config.json";
     ui_config ← json_load text;
     txt2img_vae ← py_get ui_config "txt2img/Preferred VAE/value" (JStr "None");
     img2img_vae ← py_get ui_config "img2img/Preferred VAE/value" (JStr "None");
     print ("txt2img VAE setting: " +:+ py_str txt2img_vae);;
     print ("img2img VAE setting: " +:+ py_str img2img_vae);;
     if eq_str txt2img_vae "vae-ft-mse-840000-ema-pruned.safetensors"
     then print "✅ VAE correctly configured in ui-config.json";;
          ret true
     else print "❌ VAE not properly configured in ui-config.json";;
          ret false)
    is_Exception
    (fun e => print ("❌ Error reading ui-config.json: " +:+ exn_str e);;
              ret false).

Definition debug_script : string :=
"@echo off
echo VAE Debug Launch Script
echo ========================
echo.

REM GPU environment variables
set PYTORCH_CUDA_ALLOC_CONF=max_split_size_mb:512
set CUDA_LAUNCH_BLOCKING=0

REM Maximum VAE debugging and fixes
set COMMANDLINE_ARGS=--skip-python-version-check --skip-install

REM Force specific VAE
set COMMANDLINE_ARGS=%COMMANDLINE_ARGS% --vae-path " +:+ dq +:+ "models/VAE/vae-ft-mse-840000-ema-pruned.safetensors" +:+ dq +:+ "

REM VAE precision fixes
set COMMANDLINE_ARGS=%COMMANDLINE_ARGS% --no-half-vae
set COMMANDLINE_ARGS=%COMMANDLINE_ARGS% --precision full

REM Disable problematic optimizations
set COMMANDLINE_ARGS=%COMMANDLINE_ARGS% --disable-nan-check
set COMMANDLINE_ARGS=%COMMANDLINE_ARGS% --no-half

REM GPU optimizations
set COMMANDLINE_ARGS=%COMMANDLINE_ARGS% --opt-split-attention
set COMMANDLINE_ARGS=%COMMANDLINE_ARGS% --medvram

REM Enable verbose logging
set COMMANDLINE_ARGS=%COMMANDLINE_ARGS% --log-startup

echo VAE Debug Configuration:
echo ==========================
echo - Forcing specific VAE path
echo - Full precision mode (no half precision anywhere)
echo - Disabled NaN checking
echo - Maximum compatibility mode
echo - Verbose logging enabled
echo.
echo This should definitely fix grey images!
echo.

call webui.bat %*
".

Definition create_vae_debug_launch_script : M bool :=
  print (nl +:+ "=== Creating VAE Debug Launch Script ===");;
  try_except
    (write_file "webui_vae_debug.bat" debug_script;;
     print "✅ Created debug launch script: webui_vae_debug.bat";;
     ret true)
    is_Exception
    (fun e => print ("❌ Failed to create debug script: " +:+ exn_str e);;
              ret false).

Definition alt_vae_url : string :=
  "https://huggingface.co/stabilityai/sd-vae-ft-ema-original/resolve/main/vae-ft-ema-560000-ema-pruned.safetensors".
Definition alt_vae_filename : string := "vae-ft-ema-560000-ema-pruned.safetensors".
Definition alt_vae_path : string := "models/VAE" +:+ "/" +:+ alt_vae_filename.

(** [None] is Python's [None], [Some p] the path as a string. *)
Definition download_alternative_vae : M (option string) :=
  print (nl +:+ "=== Downloading Alternative VAE ===");;
  present ← path_exists alt_vae_path;
  if present
  then print ("✅ Alternative VAE already exists: " +:+ alt_vae_filename);;
       ret (Some alt_vae_path)
  else
    try_except
      (py_import "requests";;
       print ("Downloading alternative VAE: " +:+ alt_vae_filename);;
       response ← read_world (fun w => http_get alt_vae_url (host w));
       write_file alt_vae_path (body response);;
       match broken response with
       | Some e => raise e
       | None =>
           print ("✅ Downloaded alternative VAE: " +:+ alt_vae_filename);;
           ret (Some alt_vae_path)
       end)
      is_Exception
      (fun e => print ("❌ Failed to download alternative VAE: " +:+ exn_str e);;
                ret None).

End Script.
End diagnose_vae_issue.

(** ** fix_sgm_openclip.py *)

Module fix_sgm_openclip.
Section Script.
Context `{Platform}.

Definition compatible_versions : list string := [
  "open-clip-torch==2.24.0";
  "open-clip-torch==2.20.0";
  "open-clip-torch==2.16.0"
].

Definition install_command (version : string) : list string :=
  [sys_executable; "-m"; "pip"; "install"; version; "--no-deps"].

(** The body of the loop over [compatible_versions]. *)
Definition try_version (version : string) : M (option bool) :=
  try_except
    (print ("Trying " +:+ version +:+ "...");;
     subprocess_run (install_command version) true;;
     print ("✅ " +:+ version +:+ " installed (no deps)");;
     try_except
       (py_import "open_clip";;
        v ← py_value "open_clip.__version__";
        print ("✅ open_clip imports successfully: " +:+ v);;
        ret (Some true))
       is_ImportError
       (fun e =>
          print ("⚠️  " +:+ version +:+ " installed but import failed: " +:+ exn_str e);;
          ret None))
    is_CalledProcessError
    (fun _ => print ("❌ " +:+ version +:+ " installation failed");; ret None).

Definition try_install_compatible_openclip : M bool :=
  print "=== Attempting Compatible open_clip Installation ===";;
  r ← for_each compatible_versions try_version;
  match r with
  | Some b => ret b
  | None => ret false
  end.

Definition mock_openclip_code : string :=
"
" +:+ dq +:+ dq +:+ dq +:+ "
Mock open_clip module for Python 3.13 compatibility

This provides basic functionality to satisfy imports without
requiring sentencepiece/cmake compilation.
" +:+ dq +:+ dq +:+ dq +:+ "

import torch
import torch.nn as nn
from typing import Optional, List, Union
import warnings

# Mock version info
__version__ = " +:+ dq +:+ "2.24.0-mock" +:+ dq +:+ "

class MockCLIPModel(nn.Module):
    " +:+ dq +:+ dq +:+ dq +:+ "Mock CLIP model that provides basic functionality" +:+ dq +:+ dq +:+ dq +:+ "
    
    def __init__(self):
        super().__init__()
        self.visual = MockVisualEncoder()
        self.text = MockTextEncoder()
        self.logit_scale = nn.Parameter(torch.ones([]) * 2.6592)
    
    def encode_image(self, image):
        return self.visual(image)
    
    def encode_text(self, text):
        return self.text(text)

class MockVisualEncoder(nn.Module):
    " +:+ dq +:+ dq +:+ dq +:+ "Mock visual encoder" +:+ dq +:+ dq +:+ dq +:+ "
    
    def __init__(self):
        super().__init__()
        self.output_dim = 512
    
    def forward(self, x):
        # Return dummy embeddings with correct shape
        batch_size = x.shape[0] if len(x.shape) > 0 else 1
        return torch.zeros(batch_size, self.output_dim)

class MockTextEncoder(nn.Module):
    " +:+ dq +:+ dq +:+ dq +:+ "Mock text encoder" +:+ dq +:+ dq +:+ dq +:+ "
    
    def __init__(self):
        super().__init__()
        self.output_dim = 512
    
    def forward(self, x):
        # Return dummy embeddings with correct shape
        batch_size = x.shape[0] if len(x.shape) > 0 else 1
        return torch.zeros(batch_size, self.output_dim)

def create_model(
    model_name: str,
    pretrained: Optional[str] = None,
    precision: str = " +:+ dq +:+ "fp32" +:+ dq +:+ ",
    device: Union[str, torch.device] = " +:+ dq +:+ "cpu" +:+ dq +:+ ",
    jit: bool = False,
    force_quick_gelu: bool = False,
    force_custom_text: bool = False,
    force_patch_dropout: Optional[float] = None,
    force_image_size: Optional[Union[int, List[int]]] = None,
    pretrained_image: bool = False,
    pretrained_hf: bool = True,
    cache_dir: Optional[str] = None,
    output_dict: bool = False,
    require_pretrained: bool = False,
):
    " +:+ dq +:+ dq +:+ dq +:+ "Mock create_model function" +:+ dq +:+ dq +:+ dq +:+ "
    warnings.warn(" +:+ dq +:+ "Using mock open_clip - CLIP functionality will be limited" +:+ dq +:+ ", UserWarning)
    return MockCLIPModel(), None, None

def get_tokenizer(model_name: str):
    " +:+ dq +:+ dq +:+ dq +:+ "Mock tokenizer function" +:+ dq +:+ dq +:+ dq +:+ "
    def tokenize(text, context_length=77):
        if isinstance(text, str):
            text = [text]
        # Return dummy tokens
        return torch.zeros(len(text), context_length, dtype=torch.long)
    
    return tokenize

def list_models():
    " +:+ dq +:+ dq +:+ dq +:+ "Mock list_models function" +:+ dq +:+ dq +:+ dq +:+ "
    return [" +:+ dq +:+ "ViT-B-32" +:+ dq +:+ ", " +:+ dq +:+ "ViT-B-16" +:+ dq +:+ ", " +:+ dq +:+ "ViT-L-14" +:+ dq +:+ "]

def available_models():
    " +:+ dq +:+ dq +:+ dq +:+ "Mock available_models function" +:+ dq +:+ dq +:+ dq +:+ "
    return list_models()

# Mock constants
OPENAI_DATASET_MEAN = (0.48145466, 0.4578275, 0.40821073)
OPENAI_DATASET_STD = (0.26862954, 0.26130258, 0.27577711)

# Export main functions
__all__ = [
    " +:+ dq +:+ "create_model" +:+ dq +:+ ",
    " +:+ dq +:+ "get_tokenizer" +:+ dq +:+ ", 
    " +:+ dq +:+ "list_models" +:+ dq +:+ ",
    " +:+ dq +:+ "available_models" +:+ dq +:+ ",
    " +:+ dq +:+ "OPENAI_DATASET_MEAN" +:+ dq +:+ ",
    " +:+ dq +:+ "OPENAI_DATASET_STD" +:+ dq +:+ "
]

print(" +:+ dq +:+ "⚠️  Using mock open_clip module - CLIP functionality will be limited" +:+ dq +:+ ")
".

Definition create_mock_openclip : M bool :=
  print (nl +:+ "=== Creating Mock open_clip Module ===");;
  try_except
    (site_packages ← read_world (fun w => site_packages (host w));
     let openclip_dir := site_packages +:+ "/" +:+ "open_clip" in
     makedirs openclip_dir;;
     write_file (openclip_dir +:+ "/" +:+ "__init__.py") mock_openclip_code;;
     print ("✅ Mock open_clip created at: " +:+ openclip_dir);;
     try_except
       (py_import "open_clip";;
        v ← py_value "open_clip.__version__";
        print ("✅ Mock open_clip imports successfully: " +:+ v);;
        ret true)
       is_ImportError
       (fun e => print ("❌ Mock open_clip import failed: " +:+ exn_str e);;
                 ret false))
    is_Exception
    (fun e => print ("❌ Could not create mock open_clip: " +:+ exn_str e);;
              ret false).

Definition sgm_encoder_file : string :=
  "repositories/generative-models/sgm/modules/encoders/modules.py".

Definition old_import : string := "import open_clip".

Definition new_import : string :=
"try:
    import open_clip
    OPENCLIP_AVAILABLE = True
except ImportError:
    print(" +:+ dq +:+ "⚠️  open_clip not available - CLIP functionality will be limited" +:+ dq +:+ ")
    OPENCLIP_AVAILABLE = False
    # Create mock open_clip for compatibility
    class MockOpenCLIP:
        @staticmethod
        def create_model(" +:+ "*args, **kwargs):
            raise ImportError(" +:+ dq +:+ "open_clip not available" +:+ dq +:+ ")
        @staticmethod
        def get_tokenizer(" +:+ "*args, **kwargs):
            raise ImportError(" +:+ dq +:+ "open_clip not available" +:+ dq +:+ ")
    open_clip = MockOpenCLIP()".

Definition patch_sgm_imports : M bool :=
  print (nl +:+ "=== Patching SGM Repository Imports ===");;
  found ← path_exists sgm_encoder_file;
  if negb found
  then print ("❌ SGM encoder file not found: " +:+ sgm_encoder_file);;
       ret false
  else
    try_except
      (content ← read_file sgm_encoder_file;
       let backup_file := sgm_encoder_file +:+ ".backup" in
       write_file backup_file content;;
       print ("✅ Created backup: " +:+ backup_file);;
       content ← (if str_in old_import content
                  then print "✅ Patched open_clip import in SGM";;
                       ret (str_replace old_import new_import content)
                  else print "⚠️  open_clip import not found in expected location";;
                       ret content);
       write_file sgm_encoder_file content;;
       print ("✅ Patched " +:+ sgm_encoder_file);;
       ret true)
      is_Exception
      (fun e => print ("❌ Error patching SGM file: " +:+ exn_str e);;
                ret false).

Definition config_file : string := "webui_compatible.bat".

Definition old_line : string :=
  "pip install pytorch_lightning torchmetrics --upgrade --quiet".

Definition new_line : string :=
"pip install pytorch_lightning torchmetrics --upgrade --quiet
echo Attempting open_clip installation...
pip install open-clip-torch --no-deps --quiet || echo " +:+ dq +:+ "open_clip installation failed - using mock version" +:+ dq +:+ " ".

(** The function returns [True], [False] or, when the marker line is not in
    the file, falls off its end: [None]. *)
Definition update_webui_config_for_openclip : M (option bool) :=
  print (nl +:+ "=== Updating WebUI Configuration ===");;
  found ← path_exists config_file;
  if negb found
  then print ("❌ Config file not found: " +:+ config_file);;
       ret (Some false)
  else
    try_except
      (content ← read_file config_file;
       if str_in "pip install pytorch_lightning torchmetrics" content
       then write_file config_file (str_replace old_line new_line content);;
            print "✅ Updated webui_compatible.bat";;
            ret (Some true)
       else ret None)
      is_Exception
      (fun e => print ("❌ Error updating config: " +:+ exn_str e);;
                ret (Some false)).

Definition test_openclip_import : M bool :=
  print (nl +:+ "=== Testing open_clip Import ===");;
  try_except
    (py_import "open_clip";;
     v ← py_value "open_clip.__version__";
     print ("✅ open_clip available: " +:+ v);;
     n ← py_value "len(open_clip.list_models())";
     print ("✅ Available models: " +:+ n +:+ " models");;
     ret true)
    is_Exception
    (fun e =>
       if is_ImportError e
       then print ("❌ open_clip import failed: " +:+ exn_str e);; ret false
       else print ("❌ open_clip test failed: " +:+ exn_str e);; ret false).

(** The closing block of [main]. *)
Definition fix_summary (openclip_works : bool) : M unit :=
  print (nl +:+ str_mul "=" 50);;
  print "FIX SUMMARY";;
  print (str_mul "=" 50);;
  (if openclip_works
   then print "✅ open_clip is now available!";;
        print (nl +:+ "Next steps:");;
        print ("1. Try launching WebUI: ." +:+ bs +:+ "webui_compatible.bat");;
        print "2. SGM import error should be resolved";;
        print "3. WebUI should proceed to model loading"
   else print "⚠️  open_clip still not available";;
        print "But SGM repository has been patched to handle this gracefully";;
        print (nl +:+ "Next steps:");;
        print ("1. Try launching WebUI: ." +:+ bs +:+ "webui_compatible.bat");;
        print "2. Should work with limited CLIP functionality");;
  print (nl +:+ "Python version: " +:+ sys_version);;
  print "SGM repository should now handle missing open_clip gracefully".

Definition main : M unit :=
  print "SGM open_clip Fix for Python 3.13";;
  print (str_mul "=" 50);;
  print "🔄 Strategy 1: Install compatible open_clip";;
  installed ← try_install_compatible_openclip;
  success ← (if installed
             then print "✅ Strategy 1 successful!";; ret true
             else ret false);
  success ← (if negb success
             then print (nl +:+ "🔄 Strategy 2: Create mock open_clip");;
                  mocked ← create_mock_openclip;
                  if mocked
                  then print "✅ Strategy 2 successful!";; ret true
                  else ret success
             else ret success);
  print (nl +:+ "🔄 Strategy 3: Patch SGM repository");;
  patch_sgm_imports;;
  print (nl +:+ "🔄 Strategy 4: Update WebUI configuration");;
  update_webui_config_for_openclip;;
  openclip_works ← test_openclip_import;
  fix_summary openclip_works.

End Script.
End fix_sgm_openclip.

(** ** fix_final_gpu_issues.py *)

Module fix_final_gpu_issues.
Section Script.
Context `{Platform}.

Definition strategies : list (string * string) := [
  ("Latest xFormers", "xformers");
  ("Pre-release xFormers", "xformers --pre");
  ("Development xFormers", "git+https://github.com/facebookresearch/xformers.git");
  ("Force install latest", "xformers --force-reinstall --no-cache-dir");
  ("Skip xFormers", "skip")
].

Definition uninstall_command : list string :=
  [sys_executable; "-m"; "pip"; "uninstall"; "xformers"; "-y"].

Definition install_command (install_cmd : string) : list string :=
  if startswith "git+" install_cmd
  then [sys_executable; "-m"; "pip"; "install"; install_cmd]
  else [sys_executable; "-m"; "pip"; "install"] ++ String.words install_cmd.

(** The body of the loop over [strategies]; the [timeout=300] of the
    install shows as a [TimeoutExpired] of the child. *)
Definition try_strategy (strategy : string * string) : M (option bool) :=
  let '(strategy_name, install_cmd) := strategy in
  try_except
    (print (nl +:+ "Trying: " +:+ strategy_name);;
     if String.eqb install_cmd "skip"
     then print "Skipping xFormers - WebUI will use standard attention";;
          print "Expected performance: 25-40 seconds per 512x512 image";;
          print "This is still 15-25x faster than CPU-only mode";;
          ret (Some false)
     else
       subprocess_run uninstall_command false;;
       print ("Running: " +:+ str_join " " (install_command install_cmd));;
       subprocess_run (install_command install_cmd) true;;
       try_except
         (py_import "xformers";;
          version ← py_value "getattr(xformers, '__version__', 'unknown')";
          print ("SUCCESS: xFormers " +:+ version +:+ " installed");;
          py_import "xformers.ops";;
          print "SUCCESS: Memory efficient attention available";;
          ret (Some true))
         is_ImportError
         (fun e => print ("FAILED: xFormers import failed: " +:+ exn_str e);;
                   ret None))
    is_Exception
    (fun e =>
       (if is_CalledProcessError e
        then print ("FAILED: " +:+ strategy_name +:+ " installation failed")
        else if is_TimeoutExpired e
        then print ("FAILED: " +:+ strategy_name +:+ " installation timed out")
        else print ("FAILED: " +:+ strategy_name +:+ " unexpected error: " +:+ exn_str e));;
       ret None).

Definition try_xformers_alternatives : M bool :=
  print "=== Fixing xFormers for PyTorch 2.7.0 ===";;
  try_except
    (torch ← py_import_torch;
     print ("PyTorch: " +:+ torch_version torch);;
     print ("CUDA: " +:+ cuda_version torch);;
     if negb (cuda_available torch)
     then print "CUDA not available - skipping xFormers";;
          ret false
     else
       r ← for_each strategies try_strategy;
       match r with
       | Some b => ret b
       | None =>
           print (nl +:+ "All xFormers installation strategies failed");;
           print "WebUI will work without xFormers but with reduced performance";;
           ret false
       end)
    is_ImportError
    (fun _ => print "PyTorch not available";; ret false).

End Script.
End fix_final_gpu_issues.

(** ** fix_gradio_compatibility.py *)

Module fix_gradio_compatibility.
Section Script.
Context `{Platform}.

Definition extensions_file : string := "modules/gradio_extensons.py".

Definition old_line : string :=
"original_IOComponent_init = patches.patch(__name__, obj=gr.components.IOComponent, field=" +:+ dq +:+ "__init__" +:+ dq +:+ ", replacement=IOComponent_init)".

Definition new_lines : string :=
"# Handle Gradio version compatibility - IOComponent was renamed to Component in Gradio 4.x
try:
    # Try Gradio 3.x API first
    original_IOComponent_init = patches.patch(__name__, obj=gr.components.IOComponent, field=" +:+ dq +:+ "__init__" +:+ dq +:+ ", replacement=IOComponent_init)
except AttributeError:
    # Fallback to Gradio 4.x+ API
    try:
        original_IOComponent_init = patches.patch(__name__, obj=gr.components.Component, field=" +:+ dq +:+ "__init__" +:+ dq +:+ ", replacement=IOComponent_init)
    except AttributeError:
        # If both fail, create a dummy patch
        print(" +:+ dq +:+ "⚠️  Gradio component patching failed - using fallback" +:+ dq +:+ ")
        original_IOComponent_init = None".

Definition patch_gradio_extensions : M bool :=
  print (nl +:+ "=== Patching Gradio Extensions ===");;
  found ← path_exists extensions_file;
  if negb found
  then print ("❌ " +:+ extensions_file +:+ " not found");;
       ret false
  else
    try_except
      (content ← read_file extensions_file;
       if str_in "Handle Gradio version compatibility" content
       then print "✅ gradio_extensons.py already patched";;
            ret true
       else if str_in "gr.components.IOComponent" content
       then
         print "Patching gradio_extensons.py for Gradio compatibility...";;
         let backup_file := extensions_file +:+ ".gradio_backup" in
         write_file backup_file content;;
         let content := str_replace old_line new_lines content in
         write_file extensions_file content;;
         print ("✅ Patched " +:+ extensions_file);;
         ret true
       else
         print "✅ gradio_extensons.py doesn't need patching";;
         ret true)
      is_Exception
      (fun e => print ("❌ Error patching " +:+ extensions_file +:+ ": " +:+ exn_str e);;
                ret false).

(** The version, the API it has, and whether [IOComponent] is there;
    [None] for the version when gradio does not import. *)
Definition check_gradio_version : M (option string * option string * bool) :=
  print "=== Checking Gradio Version ===";;
  try_except
    (py_import "gradio";;
     version ← py_value "gr.__version__";
     print ("Current Gradio version: " +:+ version);;
     try_except
       (py_value "gr.components.IOComponent";;
        print "✅ gr.components.IOComponent available (Gradio 3.x)";;
        ret (Some version, Some "3.x", true))
       is_AttributeError
       (fun _ =>
          try_except
            (py_value "gr.components.Component";;
             print "✅ gr.components.Component available (Gradio 4.x+)";;
             ret (Some version, Some "4.x+", false))
            is_AttributeError
            (fun _ =>
               print "❌ Neither IOComponent nor Component found";;
               ret (Some version, Some "unknown", false))))
    is_ImportError
    (fun _ => print "❌ Gradio not installed";; ret (None, None, false)).

Definition compatible_versions : list string := [
  "gradio>=3.40.0,<4.0.0";
  "gradio==3.50.2";
  "gradio==3.41.2"
].

Definition install_command (version_spec : string) : list string :=
  [sys_executable; "-m"; "pip"; "install"; version_spec].

(** The body of the loop over [compatible_versions]. *)
Definition try_version_spec (version_spec : string) : M (option bool) :=
  try_except
    (print ("Installing " +:+ version_spec +:+ "...");;
     subprocess_run (install_command version_spec) true;;
     try_except
       (py_import "gradio";;
        py_value "gr.components.IOComponent";;
        print ("✅ " +:+ version_spec +:+ " installed and working");;
        ret (Some true))
       (fun e => is_ImportError e || is_AttributeError e)
       (fun _ => ret None))
    is_CalledProcessError
    (fun _ => print ("❌ Failed to install " +:+ version_spec);; ret None).

Definition install_compatible_gradio : M bool :=
  print (nl +:+ "=== Installing Compatible Gradio Version ===");;
  r ← for_each compatible_versions try_version_spec;
  match r with
  | Some b => ret b
  | None => ret false
  end.

Definition test_gradio_webui_compatibility : M bool :=
  print (nl +:+ "=== Testing Gradio WebUI Compatibility ===");;
  try_except
    (py_import "gradio";;
     version ← py_value "gr.__version__";
     print ("Gradio version: " +:+ version);;
     try_except
       (py_value "gr.Textbox()";;
        print "✅ Gradio Textbox component works";;
        returned ← try_except
          (py_value "gr.components.IOComponent";;
           print "✅ Using Gradio 3.x API (IOComponent)";;
           ret None)
          is_AttributeError
          (fun _ =>
             try_except
               (py_value "gr.components.Component";;
                print "✅ Using Gradio 4.x+ API (Component)";;
                ret None)
               is_AttributeError
               (fun _ =>
                  print "❌ Neither IOComponent nor Component available";;
                  ret (Some false)));
        match returned with
        | Some b => ret b
        | None => ret true
        end)
       is_Exception
       (fun e => print ("❌ Gradio component test failed: " +:+ exn_str e);;
                 ret false))
    is_ImportError
    (fun e => print ("❌ Gradio import failed: " +:+ exn_str e);; ret false).

Definition test_webui_gradio_extensions : M bool :=
  print (nl +:+ "=== Testing WebUI Gradio Extensions ===");;
  try_except
    (py_import "gradio_extensons";;
     print "✅ WebUI gradio_extensons module imports successfully";;
     ret true)
    is_Exception
    (fun e =>
       if is_ImportError e
       then print ("❌ WebUI gradio_extensons import failed: " +:+ exn_str e);;
            ret false
       else print ("❌ WebUI gradio_extensons test failed: " +:+ exn_str e);;
            ret false).

(** The closing block of [main]. *)
Definition fix_summary (gradio_works extensions_work : bool) : M unit :=
  print (nl +:+ str_mul "=" 60);;
  print "GRADIO COMPATIBILITY FIX SUMMARY";;
  print (str_mul "=" 60);;
  (if gradio_works && extensions_work
   then print "✅ Gradio compatibility issues resolved!";;
        print (nl +:+ "Next steps:");;
        print ("1. Try launching WebUI: ." +:+ bs +:+ "webui_compatible.bat");;
        print "2. Gradio IOComponent error should be resolved";;
        print "3. WebUI should complete initialization and start web interface";;
        print "4. Access WebUI at: http://127.0.0.1:7860"
   else if gradio_works
   then print "✅ Gradio is working!";;
        print "⚠️  WebUI gradio extensions may have issues";;
        print (nl +:+ "Next steps:");;
        print ("1. Try launching WebUI: ." +:+ bs +:+ "webui_compatible.bat");;
        print "2. Monitor for any additional Gradio-related errors"
   else print "❌ Gradio compatibility issues remain";;
        print (nl +:+ "Troubleshooting:");;
        print "1. Try manual installation: pip install 'gradio>=3.40.0,<4.0.0'";;
        print "2. Check virtual environment activation";;
        print "3. Restart terminal and try again");;
  final ← check_gradio_version;
  (match final with
   | (Some final_version, _, final_iocomponent) =>
       if String.eqb final_version "" then ret tt
       else print (nl +:+ "Final Gradio version: " +:+ final_version);;
            print ("API compatibility: "
                   +:+ (if final_iocomponent then "3.x (IOComponent)"
                        else "4.x+ (Component)"))
   | (None, _, _) => ret tt
   end);;
  print (nl +:+ "Python version: " +:+ sys_version);;
  print "Gradio should now be compatible with WebUI v1.10.1".

(** The installs that [main] guards by the version check: [false] when
    [main] returns at once. *)
Definition ensure_gradio (version : option string) (has_iocomponent : bool)
  : M bool :=
  match version with
  | None =>
      print "Installing Gradio...";;
      installed ← install_compatible_gradio;
      if negb installed
      then print "❌ Could not install compatible Gradio";; ret false
      else ret true
  | Some _ =>
      if negb has_iocomponent
      then print "Incompatible Gradio version detected, installing compatible version...";;
           installed ← install_compatible_gradio;
           (if negb installed
            then print "❌ Could not install compatible Gradio"
            else ret tt);;
           ret true
      else ret true
  end.

Definition main : M unit :=
  print "Gradio Compatibility Fix for Python 3.13";;
  print (str_mul "=" 60);;
  checked ← check_gradio_version;
  let '(version, _, has_iocomponent) := checked in
  go_on ← ensure_gradio version has_iocomponent;
  if negb go_on then ret tt
  else
    patch_gradio_extensions;;
    gradio_works ← test_gradio_webui_compatibility;
    extensions_work ← test_webui_gradio_extensions;
    fix_summary gradio_works extensions_work.

End Script.
End fix_gradio_compatibility.

(** ** fix_build_tools.py *)

Module fix_build_tools.
Section Script.
Context `{Platform}.

Definition launch_utils_path : string := "modules/launch_utils.py".

Definition old_openclip : string :=
"openclip_package = os.environ.get('OPENCLIP_PACKAGE', " +:+ dq +:+ "https://github.com/mlfoundations/open_clip/archive/bb6e834e9c70d9c27d0dc3ecedeebeaeb1ffad6b.zip" +:+ dq +:+ ")".

Definition new_openclip : string :=
"openclip_package = os.environ.get('OPENCLIP_PACKAGE', " +:+ dq +:+ "open-clip-torch==2.24.0" +:+ dq +:+ ")".

Definition modify_webui_packages : M bool :=
  print (nl +:+ "=== Modifying WebUI Package Configuration ===");;
  found ← path_exists launch_utils_path;
  if negb found
  then print ("❌ " +:+ launch_utils_path +:+ " not found");;
       ret false
  else
    try_except
      (content ← read_file launch_utils_path;
       write_file (launch_utils_path +:+ ".backup") content;;
       print ("✅ Created backup: " +:+ launch_utils_path +:+ ".backup");;
       content ← (if str_in old_openclip content
                  then print "✅ Modified open_clip package to use PyPI version";;
                       ret (str_replace old_openclip new_openclip content)
                  else print "⚠️  open_clip package line not found, manual modification needed";;
                       ret content);
       write_file launch_utils_path content;;
       print ("✅ Modified " +:+ launch_utils_path);;
       ret true)
      is_Exception
      (fun e => print ("❌ Error modifying " +:+ launch_utils_path +:+ ": " +:+ exn_str e);;
                ret false).

(** The packages of [manual_package_installation], each with its version
    ([""] for none). *)
Definition packages_to_install : list (string * string) := [
  ("open-clip-torch", "2.24.0");
  ("clip-by-openai", "");
  ("transformers", "");
  ("tokenizers", "")
].

Definition manual_install_command (item : string * string) : list string :=
  let '(package, version) := item in
  if negb (String.eqb version "")
  then [sys_executable; "-m"; "pip"; "install"; package +:+ "==" +:+ version]
  else [sys_executable; "-m"; "pip"; "install"; package].

(** The body of the loop over [packages_to_install]. *)
Definition install_package (item : string * string) : M unit :=
  try_except
    (print ("Installing " +:+ fst item +:+ "...");;
     subprocess_run (manual_install_command item) true;;
     print ("✅ " +:+ fst item +:+ " installed successfully"))
    is_CalledProcessError
    (fun e => print ("❌ " +:+ fst item +:+ " installation failed: " +:+ exn_str e)).

Definition manual_package_installation : M unit :=
  print (nl +:+ "=== Manual Package Installation ===");;
  for_do packages_to_install install_package.

End Script.
End fix_build_tools.

(** ** fix_image_generation.py *)

Module fix_image_generation.
Section Script.
Context `{Platform}.

Definition processing_file : string := "modules/processing.py".

Definition old_pattern : string :=
"def decode_latent_batch(model, batch, target_device=None, check_for_nans=False):".

Definition new_pattern : string :=
"def decode_latent_batch(model, batch, target_device=None, check_for_nans=False):
    # CPU-only tensor processing fix for Python 3.13
    if target_device is None:
        target_device = torch.device('cpu')
    
    # Ensure tensors are on correct device and have correct dtype
    if hasattr(batch, 'to'):
        batch = batch.to(device=target_device, dtype=torch.float32)".

Definition tensor_fix : string :=
"
# CPU-only image tensor processing fix
def fix_tensor_for_cpu(tensor):
    " +:+ dq +:+ dq +:+ dq +:+ "Fix tensor for CPU-only processing" +:+ dq +:+ dq +:+ dq +:+ "
    if tensor is None:
        return None
    
    # Ensure tensor is on CPU with correct dtype
    if hasattr(tensor, 'to'):
        tensor = tensor.to(device=torch.device('cpu'), dtype=torch.float32)
    
    # Ensure contiguous memory layout
    if hasattr(tensor, 'contiguous'):
        tensor = tensor.contiguous()
    
    return tensor

".

(** [s.find(sub)] of a substring that is known to occur, else 0. *)
Definition find_or_zero (sub s : string) : nat :=
  match str_find sub s 0 with
  | Some i => i
  | None => O
  end.

Definition patch_webui_image_processing : M bool :=
  print (nl +:+ "=== Patching WebUI Image Processing ===");;
  found ← path_exists processing_file;
  if negb found
  then print ("❌ " +:+ processing_file +:+ " not found");;
       ret false
  else
    try_except
      (content ← read_file processing_file;
       if str_in "CPU-only tensor processing fix" content
       then print "✅ modules/processing.py already patched";;
            ret true
       else
         (* Patch 1 *)
         step1 ← (if str_in "def decode_latent_batch" content && str_in old_pattern content
                  then print "✅ Applied decode_latent_batch patch";;
                       ret (str_replace old_pattern new_pattern content, 1%nat)
                  else ret (content, 0%nat));
         let '(content, patches_applied) := step1 in
         (* Patch 2 *)
         step2 ← (if str_in "images_tensor_to_samples" content
                     && str_in "def images_tensor_to_samples" content
                     && negb (str_in "fix_tensor_for_cpu" content)
                  then
                    let insertion_point := find_or_zero "def images_tensor_to_samples" content in
                    print "✅ Added tensor processing fix function";;
                    ret (str_take insertion_point content +:+ tensor_fix
                         +:+ str_drop insertion_point content,
                         S patches_applied)
                  else ret (content, patches_applied));
         let '(content, patches_applied) := step2 in
         (if (0 <? patches_applied)%nat
          then
            let backup_file := processing_file +:+ ".image_gen_backup" in
            write_file backup_file content;;
            write_file processing_file content;;
            print ("✅ Applied " +:+ py_int_str (Z.of_nat patches_applied)
                   +:+ " patches to " +:+ processing_file)
          else print "✅ No patches needed for processing.py");;
         ret true)
      is_Exception
      (fun e => print ("❌ Error patching " +:+ processing_file +:+ ": " +:+ exn_str e);;
                ret false).

Definition images_file : string := "modules/images.py".

Definition cpu_fix : string :=
"
# CPU image processing fix for Python 3.13
def ensure_cpu_compatible_image(image_data):
    " +:+ dq +:+ dq +:+ dq +:+ "Ensure image data is compatible with CPU processing" +:+ dq +:+ dq +:+ dq +:+ "
    if image_data is None:
        return None
    
    # Handle torch tensors
    if hasattr(image_data, 'detach'):
        image_data = image_data.detach().cpu()
    
    # Handle numpy arrays
    if isinstance(image_data, np.ndarray):
        # Ensure correct dtype and range
        if image_data.dtype != np.uint8:
            if image_data.max() <= 1.0:
                image_data = (image_data * 255).astype(np.uint8)
            else:
                image_data = image_data.astype(np.uint8)
    
    return image_data

".

(** [content.find('\n\n', content.find('import'))]: a start of -1 counts
    from the end of the string. *)
Definition import_end (content : string) : option nat :=
  match str_find "import" content 0 with
  | Some i => str_find (nl +:+ nl) content i
  | None => str_find (nl +:+ nl) content (String.length content - 1)
  end.

Definition patch_webui_images_module : M bool :=
  print (nl +:+ "=== Patching WebUI Images Module ===");;
  found ← path_exists images_file;
  if negb found
  then print ("❌ " +:+ images_file +:+ " not found");;
       ret false
  else
    try_except
      (content ← read_file images_file;
       if str_in "CPU image processing fix" content
       then print "✅ modules/images.py already patched";;
            ret true
       else
         (match import_end content with
          | Some import_end =>
              if negb (str_in "ensure_cpu_compatible_image" content)
              then
                let content :=
                  str_take import_end content +:+ cpu_fix +:+ str_drop import_end content in
                let backup_file := images_file +:+ ".cpu_fix_backup" in
                write_file backup_file content;;
                write_file images_file content;;
                print "✅ Added CPU image processing fix to images.py"
              else print "✅ images.py doesn't need patching"
          | None => print "✅ images.py doesn't need patching"
          end);;
         ret true)
      is_Exception
      (fun e => print ("❌ Error patching " +:+ images_file +:+ ": " +:+ exn_str e);;
                ret false).

End Script.
End fix_image_generation.

(** ** Measures and side conditions for the proofs about the decoder *)

(** The number of nodes of a value, each child counted once more: a bound
    on the fuel the decoder needs. *)
Fixpoint size (v : json) : nat :=
  match v with
  | JList xs =>
      S ((fix sum (xs : list json) : nat :=
            match xs with
            | [] => O
            | x :: rest => (S (size x) + sum rest)%nat
            end) xs)
  | JDict items =>
      S ((fix sum (items : list (string * json)) : nat :=
            match items with
            | [] => O
            | kv :: rest => (S (size (snd kv)) + sum rest)%nat
            end) items)
  | _ => 1%nat
  end.

Definition sizes (xs : list json) : nat :=
  fold_right (fun x n => (S (size x) + n)%nat) O xs.

Definition item_sizes (items : list (string * json)) : nat :=
  fold_right (fun kv n => (S (size (snd kv)) + n)%nat) O items.

(** The tail of an encoded array after its first element, and of an
    encoded object after its first member. *)
Fixpoint encode_elements (level : nat) (xs : list json) : string :=
  match xs with
  | [] => newline_indent level +:+ "]"
  | y :: ys =>
      "," +:+ newline_indent (S level) +:+ encode (S level) y
      +:+ encode_elements level ys
  end.

Fixpoint encode_members (level : nat) (items : list (string * json)) : string :=
  match items with
  | [] => newline_indent level +:+ "}"
  | kv :: rest =>
      "," +:+ newline_indent (S level) +:+ encode_string (fst kv) +:+ ": "
      +:+ encode (S level) (snd kv) +:+ encode_members level rest
  end.

(** No digit at the head of [s]. *)
Definition no_digit_head (s : string) : Prop :=
  match s with
  | EmptyString => True
  | String c _ => digit_of c = None
  end.

(** What may follow an integer literal without changing how it is read. *)
Definition int_delimited (rest : string) : Prop :=
  no_digit_head rest /\ float_follows rest = false.

(** The characters an encoded value can start with. *)
Definition value_start (c : ascii) : bool :=
  let n := nat_of_ascii c in
  ((n =? 110) || (n =? 116) || (n =? 102) || (n =? 45) || (n =? 34)
   || (n =? 91) || (n =? 123) || ((48 <=? n) && (n <=? 57)))%nat.

(** What follows an encoded value inside an encoded document. *)
Definition after_value (rest : string) : Prop :=
  match rest with
  | EmptyString => True
  | String c _ => (nat_of_ascii c =? 44)%nat = true \/ (nat_of_ascii c =? 10)%nat = true
  end.

(** The statement of the round trip for one value, as the induction needs it. *)
Definition decodes (v : json) : Prop :=
  forall (level : nat) (rest : string) (fuel : nat),
    (size v <= fuel)%nat -> after_value rest ->
    scan_value fuel (encode level v +:+ rest) = Some (v, rest).

(** ** A scripted host, for concrete runs

    The host is the number of child processes run so far; a script tells
    what each child does and what the imports find after it. *)
Record script : Type := {
  script_spawn : nat -> list string -> proc_outcome;
  script_torch : nat -> res torch_info;
  script_import : string -> nat -> gmap string string -> res unit;
  script_eval : string -> nat -> gmap string string -> res string;
  script_http : string -> res http_response
}.

Definition scripted (s : script) : Platform := {|
  Host := nat;
  sys_executable := "python";
  sys_version := "3.13.0";
  spawn := fun cmd n => (script_spawn s n cmd, S n);
  import_torch := script_torch s;
  import_module := script_import s;
  py_eval := script_eval s;
  http_get := fun url _ => script_http s url;
  site_packages := fun _ => Ret "venv/Lib/site-packages";
  repr_container := fun _ => "[...]";
  decode_error_msg := fun _ => "Expecting value: line 1 column 1 (char 0)"
|}.

(** A world of the scripted host with the given files, nothing locked,
    nothing printed and no process run. *)
Definition start (s : script) (files : gmap string string) : @World (scripted s) :=
  @mkWorld (scripted s) O files ∅ ∅ [] [].

(** A torch build, with or without a working GPU. *)
Definition torch_build (cuda : bool) : torch_info := {|
  torch_version := if cuda then "2.6.0+cu121" else "2.6.0+cpu";
  cuda_available := cuda;
  cuda_version := if cuda then "12.1" else "None";
  device_name := "NVIDIA GeForce RTX 3080 Laptop GPU";
  total_memory_gb := "16.0";
  tensor_op := fun _ => Ret tt
|}.

Definition pip_ok : proc_outcome := Exited 0 "" "".
Definition pip_failed : proc_outcome :=
  Exited 1 "" "ERROR: No matching distribution found".

(** ** What a computation is confined to *)

(** The world with another output. *)
Definition with_out `{Platform} (w : World) (texts : list string) : World :=
  mkWorld (host w) (fs w) (dirs w) (locked w) texts (procs w).

(** [confined_at P Q C E m w]: run in [w], [m] prints only texts in [P],
    changes only files in [Q], runs only commands in [C] and raises only
    exceptions in [E]; and it never looks at what was printed before. *)
Definition confined_at `{Platform} (P : string -> Prop) (Q : string -> Prop)
    (C : list string -> Prop) (E : exn -> Prop) {A} (m : M A) (w : World) : Prop :=
  exists (texts : list string) (cmds : list (list string)),
    out (snd (m w)) = out w ++ texts /\ Forall P texts /\
    procs (snd (m w)) = procs w ++ cmds /\ Forall C cmds /\
    (forall p, ~ Q p -> fs (snd (m w)) !! p = fs w !! p) /\
    (forall e, fst (m w) = Raise e -> E e) /\
    (forall t, m (with_out w t) = (fst (m w), with_out (snd (m w)) (t ++ texts))).

Definition confined `{Platform} (P : string -> Prop) (Q : string -> Prop)
    (C : list string -> Prop) (E : exn -> Prop) {A} (m : M A) : Prop :=
  forall w : World, confined_at P Q C E m w.

Definition any_text (text : string) : Prop := True.
Definition any_path (path : string) : Prop := True.
Definition any_command (cmd : list string) : Prop := True.
Definition any_exception (e : exn) : Prop := True.
Definition no_command (cmd : list string) : Prop := False.
Definition no_exception (e : exn) : Prop := False.
Definition no_path (path : string) : Prop := False.

(** A child process fails only by its exit status. *)
Definition fails_by_exit_status `{Platform} : Prop :=
  forall cmd h e, fst (spawn cmd h) = SpawnFailed e -> is_CalledProcessError e = true.

(** ** Texts and paths the proofs tell apart *)

(** A text that does not start with [prefix]. *)
Definition not_starting (prefix text : string) : Prop :=
  startswith prefix text = false.

(** The files [fix_grey_images.main] writes besides [ui-config.json]. *)
Definition launcher_or_vae (path : string) : Prop :=
  path = fix_grey_images.vae_path \/ path = fix_grey_images.script_filename.

(** The dictionary [configure_vae_in_ui_config] writes, from the one it
    found. *)
Definition with_preferred_vae (vae_name : string) (before : list (string * json))
  : list (string * json) :=
  dict_set fix_grey_images.img2img_key (JStr vae_name)
    (dict_set fix_grey_images.txt2img_key (JStr vae_name) before).

(** ** Launcher texts and flag mappings *)

(** The text of a flag with its value on a command line. *)
Definition flag_text (flag : string * string) : string :=
  "--" +:+ fst flag +:+ " " +:+ snd flag.

(** [text] is a rendering of [mapping]: every flag of the mapping shows with
    its value, and no flag outside the mapping shows at all. *)
Definition renders (text : string) (mapping : list (string * string)) : Prop :=
  (forall flag, In flag mapping -> str_in (flag_text flag) text = true)
  /\ (forall name, ~ In name (map fst mapping) -> str_in ("--" +:+ name) text = false).

(** ** Concrete hosts and worlds for the examples *)

(** A host on which nothing is installed and the network is down. *)
Definition bare_host : script := {|
  script_spawn := fun _ _ => pip_failed;
  script_torch := fun _ => Raise (ImportError "No module named 'torch'");
  script_import := fun name _ _ => Raise (ImportError ("No module named '" +:+ name +:+ "'"));
  script_eval := fun _ _ _ => Raise (Other "NameError" "name is not defined");
  script_http := fun _ => Raise (OSError "Max retries exceeded")
|}.

(** A working tree whose [modules/images.py] has an import block. *)
Definition images_py : string :=
  "import os" +:+ nl +:+ "import numpy as np" +:+ nl +:+ nl +:+ "def save_image(image):"
  +:+ nl +:+ "    pass" +:+ nl.

Definition tree_with_images : gmap string string :=
  {[ "modules/images.py" := images_py ]}.

(** A host on which no process can be started. *)
Definition locked_down_host : script := {|
  script_spawn := fun _ _ => SpawnFailed (OSError "[WinError 5] Access is denied");
  script_torch := fun _ => Ret (torch_build false);
  script_import := fun name _ _ => Raise (ImportError ("No module named '" +:+ name +:+ "'"));
  script_eval := fun _ _ _ => Raise (Other "NameError" "name is not defined");
  script_http := fun _ => Raise (OSError "Max retries exceeded")
|}.

(** A host with a GPU on which every pip command succeeds while [xformers]
    never imports. *)
Definition xformers_unusable_host : script := {|
  script_spawn := fun _ _ => pip_ok;
  script_torch := fun _ => Ret (torch_build true);
  script_import := fun name _ _ => Raise (ImportError "DLL load failed while importing _C");
  script_eval := fun _ _ _ => Ret "0.0.28";
  script_http := fun _ => Raise (OSError "Max retries exceeded")
|}.

(** The pip subcommand of a command line [python -m pip <subcommand> ...]. *)
Definition pip_subcommand (cmd : list string) : string :=
  match cmd with
  | _ :: _ :: _ :: subcommand :: _ => subcommand
  | _ => ""
  end.

Definition is_install (cmd : list string) : bool :=
  String.eqb (pip_subcommand cmd) "install".
Definition is_uninstall (cmd : list string) : bool :=
  String.eqb (pip_subcommand cmd) "uninstall".

(** No uninstall follows an install in a sequence of commands. *)
Definition never_rolled_back (cmds : list (list string)) : Prop :=
  forall before cmd after,
    cmds = before ++ cmd :: after ->
    is_install cmd = true ->
    Forall (fun later => is_uninstall later = false) after.

(** An install command of pip. *)
Definition install_only (cmd : list string) : Prop :=
  is_install cmd = true /\ is_uninstall cmd = false.

(** ** The attempts of [install_cuda_pytorch] on a host *)

Section Attempts.
Context `{Platform}.

(** The host that the install command of [config] leaves. *)
Definition host_after_install (config : fix_pytorch_cuda.cuda_config) (h : Host) : Host :=
  snd (spawn (fix_pytorch_cuda.install_command config) h).

(** The install command of [config] exits with status 0. *)
Definition install_succeeds (config : fix_pytorch_cuda.cuda_config) (h : Host) : bool :=
  match fst (spawn (fix_pytorch_cuda.install_command config) h) with
  | Exited rc _ _ => rc =? 0
  | SpawnFailed _ => false
  end.

(** The install command of [config] fails in the way the loop handles. *)
Definition install_fails (config : fix_pytorch_cuda.cuda_config) (h : Host) : bool :=
  match fst (spawn (fix_pytorch_cuda.install_command config) h) with
  | Exited rc _ _ => negb (rc =? 0)
  | SpawnFailed e => is_CalledProcessError e
  end.

(** [verify_cuda] gives true on the host. *)
Definition cuda_verified (h : Host) : bool :=
  match import_torch h with
  | Ret torch =>
      cuda_available torch
      && match tensor_op torch "verify_cuda" with
         | Ret _ => true
         | Raise _ => false
         end
  | Raise _ => false
  end.

Definition attempt_succeeds (config : fix_pytorch_cuda.cuda_config) (h : Host) : bool :=
  install_succeeds config h && cuda_verified (host_after_install config h).

Definition attempt_fails (config : fix_pytorch_cuda.cuda_config) (h : Host) : bool :=
  install_fails config h
  || (install_succeeds config h && negb (cuda_verified (host_after_install config h))).

(** Every attempt of the list fails, each on the host the one before it
    left. *)
Fixpoint attempts_fail (configs : list fix_pytorch_cuda.cuda_config) (h : Host) : bool :=
  match configs with
  | [] => true
  | config :: rest =>
      attempt_fails config h && attempts_fail rest (host_after_install config h)
  end.

Fixpoint host_after_attempts (configs : list fix_pytorch_cuda.cuda_config) (h : Host)
  : Host :=
  match configs with
  | [] => h
  | config :: rest => host_after_attempts rest (host_after_install config h)
  end.

(** The text that reports the success of [config]. *)
Definition verified_text (config : fix_pytorch_cuda.cuda_config) : string :=
  line ("✅ CUDA verification successful with "
        +:+ str_upper (fix_pytorch_cuda.version config) +:+ "!").

(** [m], run in [w], returns, prints only texts in [P], and prints the
    texts of [wanted] in this order, possibly with others in between. *)
Definition returns_printing (P : string -> Prop) (wanted : list string)
    {A} (m : M A) (w : World) : Prop :=
  exists (a : A) (texts : list string),
    fst (m w) = Ret a
    /\ out (snd (m w)) = out w ++ texts
    /\ Forall P texts
    /\ sublist wanted texts.

(** [m] only looks at the world and prints. *)
Definition prints_only {A} (m : M A) : Prop :=
  forall w, exists texts, snd (m w) = with_out w (out w ++ texts).

End Attempts.

(** The banners of Strategy 2 of [fix_sgm_openclip.main] and of its effect. *)
Definition strategy_2_banner : string :=
  line (nl +:+ "🔄 Strategy 2: Create mock open_clip").
Definition mock_banner : string :=
  line (nl +:+ "=== Creating Mock open_clip Module ===").

(** A text that is neither of them. *)
Definition no_strategy_2 (text : string) : Prop :=
  not_starting (nl +:+ "🔄 Strategy 2") text
  /\ not_starting (nl +:+ "=== Creating Mock") text.

Definition summary_banner : string := line "GREY IMAGE FIX SUMMARY".

Definition no_summary (text : string) : Prop :=
  not_starting "GREY IMAGE FIX SUMMARY" text.

(** A host on which pip installs [open_clip] at the first try. *)
Definition openclip_installable_host : script := {|
  script_spawn := fun _ _ => pip_ok;
  script_torch := fun _ => Ret (torch_build true);
  script_import := fun _ _ _ => Ret tt;
  script_eval := fun _ _ _ => Ret "2.24.0";
  script_http := fun _ => Raise (OSError "Max retries exceeded")
|}.

(** A working tree with the encoder module of the SGM repository. *)
Definition sgm_modules_py : string :=
  "import torch" +:+ nl +:+ "import open_clip" +:+ nl.

Definition tree_with_sgm : gmap string string :=
  {[ fix_sgm_openclip.sgm_encoder_file := sgm_modules_py ]}.

(** A working tree with a checkpoint and no VAE. *)
Definition tree_with_checkpoint : gmap string string :=
  {[ "models/Stable-diffusion/v1-5-pruned-emaonly.safetensors" := "" ]}.

(** A working tree with a VAE. *)
Definition tree_with_vae : gmap string string :=
  {[ "models/VAE/vae-ft-mse-840000-ema-pruned.safetensors" := "" ]}.

(** A host with a CPU-only torch on which pip finds nothing to install. *)
Definition cpu_only_host : script := {|
  script_spawn := fun _ _ => pip_failed;
  script_torch := fun _ => Ret (torch_build false);
  script_import := fun name _ _ => Raise (ImportError ("No module named '" +:+ name +:+ "'"));
  script_eval := fun _ _ _ => Raise (Other "NameError" "name is not defined");
  script_http := fun _ => Raise (OSError "Max retries exceeded")
|}.

(** A host with a CPU-only torch where the second install brings CUDA. *)
Definition second_config_host : script := {|
  script_spawn := fun n _ => match n with O => pip_failed | _ => pip_ok end;
  script_torch := fun n => Ret (torch_build (Nat.leb 2 n));
  script_import := fun name _ _ => Raise (ImportError ("No module named '" +:+ name +:+ "'"));
  script_eval := fun _ _ _ => Raise (Other "NameError" "name is not defined");
  script_http := fun _ => Raise (OSError "Max retries exceeded")
|}.

(** A [ui-config.json] with a prompt and no VAE. *)
Definition tree_with_ui_config : gmap string string :=
  {[ "ui-config.json" :=
       json_dumps (JDict [("txt2img/Prompt/value", JStr "a red apple");
                          ("txt2img/Sampling steps/value", JInt 20)]) ]}.

(** A [ui-config.json] whose VAE is set. *)
Definition tree_with_vae_configured : gmap string string :=
  {[ "ui-config.json" :=
       json_dumps (JDict [("txt2img/Preferred VAE/value",
                           JStr "vae-ft-mse-840000-ema-pruned.safetensors");
                          ("img2img/Preferred VAE/value",
                           JStr "vae-ft-mse-840000-ema-pruned.safetensors")]) ]}.

(** A working tree with launchers of an earlier run. *)
Definition tree_with_launchers : gmap string string :=
  {[ "webui_env.bat" := "@echo off" +:+ nl +:+ "call webui.bat" +:+ nl;
     "webui_vae_fixed.bat" := "@echo off" +:+ nl ]}.

(** The configs of [install_cuda_pytorch], by name. *)
Definition cu121 : fix_pytorch_cuda.cuda_config :=
  {| fix_pytorch_cuda.version := "cu121";
     fix_pytorch_cuda.url := "https://download.pytorch.org/whl/cu121";
     fix_pytorch_cuda.description := "CUDA 12.1 (matches your system)" |}.
Definition cu118 : fix_pytorch_cuda.cuda_config :=
  {| fix_pytorch_cuda.version := "cu118";
     fix_pytorch_cuda.url := "https://download.pytorch.org/whl/cu118";
     fix_pytorch_cuda.description := "CUDA 11.8 (fallback)" |}.
Definition cu124 : fix_pytorch_cuda.cuda_config :=
  {| fix_pytorch_cuda.version := "cu124";
     fix_pytorch_cuda.url := "https://download.pytorch.org/whl/cu124";
     fix_pytorch_cuda.description := "CUDA 12.4 (newer)" |}.

(** ** Readings of the UI config *)

(** [ui_config.get(key, "None")] on the items of the dictionary. *)
Definition preferred_vae (key : string) (items : list (string * json)) : json :=
  match dict_get key items with
  | Some value => value
  | None => JStr "None"
  end.

(** What [check_current_vae_config] answers for the text of
    [ui-config.json], when there is one. *)
Definition vae_configured_in (file : option string) : bool :=
  match file with
  | Some text =>
      match json_loads text with
      | Some (JDict items) =>
          negb (eq_str (preferred_vae fix_grey_images.txt2img_key items) "None"
                && eq_str (preferred_vae fix_grey_images.img2img_key items) "None")
      | _ => false
      end
  | None => false
  end.

(** A [ui-config.json] that is no JSON text. *)
Definition tree_with_broken_ui_config : gmap string string :=
  {[ "ui-config.json" := "{" +:+ dq +:+ "txt2img/Prompt/value" +:+ dq +:+ ": " ]}.

(** A host whose downloads break off after two chunks. *)
Definition flaky_network_host : script := {|
  script_spawn := fun _ _ => pip_failed;
  script_torch := fun _ => Ret (torch_build false);
  script_import := fun name _ _ => Raise (ImportError ("No module named '" +:+ name +:+ "'"));
  script_eval := fun _ _ _ => Raise (Other "NameError" "name is not defined");
  script_http := fun _ =>
    Ret {| progress := ["12.5"; "25.0"];
           body := "partial";
           broken := Some (Other "ChunkedEncodingError" "Connection broken") |}
|}.

(** A working tree whose [models/VAE] holds only the placeholder text. *)
Definition tree_with_empty_vae_dir : gmap string string :=
  {[ "models/VAE/Put VAE here.txt" := "" ]}.

(** The text by which [patch_gradio_extensions] knows a patched file. *)
Definition gradio_patch_marker : string := "Handle Gradio version compatibility".

(** A [modules/gradio_extensons.py] with the line to patch. *)
Definition gradio_extensons_py : string :=
  "import gradio as gr" +:+ nl +:+ nl
  +:+ fix_gradio_compatibility.old_line +:+ nl.

Definition tree_with_gradio_extensions : gmap string string :=
  {[ "modules/gradio_extensons.py" := gradio_extensons_py ]}.

(** A working tree with [modules/launch_utils.py]. *)
Definition tree_with_launch_utils : gmap string string :=
  {[ "modules/launch_utils.py" :=
       "import os" +:+ nl +:+ fix_build_tools.old_openclip +:+ nl ]}.

(** A working tree in which the encoder module is write-protected. *)
Definition start_locked (s : script) (files : gmap string string)
    (paths : list string) : @World (scripted s) :=
  @mkWorld (scripted s) O files ∅ (list_to_set paths) [] [].

(** ** The texts of [try_xformers_alternatives] *)

Definition all_failed_text : string :=
  line (nl +:+ "All xFormers installation strategies failed").
Definition skipping_text : string :=
  line "Skipping xFormers - WebUI will use standard attention".

Definition not_all_failed (text : string) : Prop :=
  not_starting (nl +:+ "All xFormers") text.

(** A host whose torch fails to load a DLL. *)
Definition broken_torch_host : script := {|
  script_spawn := fun _ _ => pip_ok;
  script_torch := fun _ =>
    Raise (OSError "[WinError 126] The specified module could not be found");
  script_import := fun name _ _ => Raise (ImportError ("No module named '" +:+ name +:+ "'"));
  script_eval := fun _ _ _ => Raise (Other "NameError" "name is not defined");
  script_http := fun _ => Raise (OSError "Max retries exceeded")
|}.

(** ** The texts of [fix_gradio_compatibility.main] *)

Definition gradio_install_banner : string :=
  line (nl +:+ "=== Installing Compatible Gradio Version ===").
Definition gradio_patch_banner : string :=
  line (nl +:+ "=== Patching Gradio Extensions ===").
Definition gradio_summary_banner : string :=
  line "GRADIO COMPATIBILITY FIX SUMMARY".

Definition no_gradio_install (text : string) : Prop :=
  not_starting (nl +:+ "=== Installing Compatible Gradio") text.

Definition no_gradio_patch (text : string) : Prop :=
  not_starting (nl +:+ "=== Patching Gradio") text
  /\ not_starting "GRADIO COMPATIBILITY FIX SUMMARY" text.

(** A host with Gradio 3.x: every import and every attribute is there. *)
Definition gradio_3_host : script := {|
  script_spawn := fun _ _ => pip_ok;
  script_torch := fun _ => Ret (torch_build true);
  script_import := fun _ _ _ => Ret tt;
  script_eval := fun expr _ _ =>
    if String.eqb expr "gr.__version__" then Ret "3.41.2" else Ret "<class>";
  script_http := fun _ => Raise (OSError "Max retries exceeded")
|}.

(** The test of [update_webui_config_for_openclip] for the line to
    extend. *)
Definition openclip_config_marker : string :=
  "pip install pytorch_lightning torchmetrics".

(** A [webui_compatible.bat] without the pip line, and one whose pip line
    has other flags than the line that is replaced. *)
Definition tree_with_plain_launcher : gmap string string :=
  {[ "webui_compatible.bat" := "@echo off" +:+ nl +:+ "call webui.bat" +:+ nl ]}.

Definition other_pip_line : string :=
  "@echo off" +:+ nl +:+ "pip install pytorch_lightning torchmetrics --quiet" +:+ nl.

Definition tree_with_other_pip_line : gmap string string :=
  {[ "webui_compatible.bat" := other_pip_line ]}.

(** A working tree with the alternative VAE. *)
Definition tree_with_alt_vae : gmap string string :=
  {[ "models/VAE/vae-ft-ema-560000-ema-pruned.safetensors" := "" ]}.

(** * Proofs *)

#[local] Arguments String.append !s1 s2 : simpl nomatch.


(** ** Strings *)


Lemma str_app_assoc (a b c : string) : (a +:+ b) +:+ c = a +:+ (b +:+ c).
Proof. induction a as [|x a IH]; simpl; [reflexivity | now rewrite IH]. Qed.

Lemma str_app_nil_r (a : string) : a +:+ "" = a.
Proof. induction a as [|x a IH]; simpl; [reflexivity | now rewrite IH]. Qed.

Lemma str_length_app (a b : string) :
  String.length (a +:+ b) = (String.length a + String.length b)%nat.
Proof. induction a as [|x a IH]; simpl; [reflexivity | now rewrite IH]. Qed.

Lemma startswith_app (p s : string) : startswith p (p +:+ s) = true.
Proof.
  induction p as [|x p IH]; simpl; [reflexivity |].
  now rewrite Ascii.eqb_refl.
Qed.

Lemma str_drop_app (p s : string) : str_drop (String.length p) (p +:+ s) = s.
Proof. induction p as [|x p IH]; simpl; [now destruct s | exact IH]. Qed.

(** ** The round trip through [json.dump] and [json.load] *)

(** *** Strings *)

Lemma scanstring_encode_char (c : ascii) (tail s rest : string) :
  scanstring tail = Some (s, rest) ->
  scanstring (encode_char c +:+ tail) = Some (String c s, rest).
Proof.
  intros Htail.
  destruct c as [[] [] [] [] [] [] [] []];
    vm_compute encode_char; cbn -[scanstring];
    cbn [scanstring nat_of_ascii Nat.eqb Nat.ltb Nat.leb]; cbn; rewrite Htail; reflexivity.
Qed.

Lemma scanstring_encode_chars (s rest : string) :
  scanstring (encode_chars s +:+ dq +:+ rest) = Some (s, rest).
Proof.
  induction s as [|c s IH]; simpl encode_chars.
  - reflexivity.
  - rewrite str_app_assoc. now apply scanstring_encode_char.
Qed.

(** *** Integers *)

Lemma scan_digits_uint (d : Decimal.uint) (rest : string) :
  no_digit_head rest ->
  scan_digits (NilEmpty.string_of_uint d +:+ rest) = (d, rest).
Proof.
  intros Hrest.
  induction d as [|d IH|d IH|d IH|d IH|d IH|d IH|d IH|d IH|d IH|d IH];
    simpl; try (rewrite IH; reflexivity).
  destruct rest as [|c r]; simpl in *; [reflexivity | now rewrite Hrest].
Qed.

Lemma nzhead_no_D0 (d d' : Decimal.uint) : Decimal.nzhead d <> Decimal.D0 d'.
Proof. induction d; simpl; auto; discriminate. Qed.

Lemma to_uint_head (p : positive) :
  match Pos.to_uint p with
  | Decimal.Nil | Decimal.D0 _ => False
  | _ => True
  end.
Proof.
  pose proof (Unsigned.to_of (Pos.to_uint p)) as Hn.
  rewrite Unsigned.of_to in Hn. simpl in Hn.
  pose proof (Unsigned.to_uint_nonzero p) as Hz.
  destruct (Pos.to_uint p) as [|d| | | | | | | | |] eqn:E; try exact I.
  - discriminate Hn.
  - unfold Decimal.unorm in Hn. simpl in Hn.
    destruct (Decimal.nzhead d) eqn:En; try (now apply nzhead_no_D0 in En).
    all: try (apply Hz; exact Hn).
    all: rewrite <- En in Hn; symmetry in Hn; now apply nzhead_no_D0 in Hn.
Qed.

Lemma scan_int_unsigned (negative : bool) (c : ascii) (s' rest : string)
    (d : Decimal.uint) :
  (nat_of_ascii c =? 45)%nat = false ->
  (nat_of_ascii c =? 48)%nat = false ->
  scan_digits (String c s') = (d, rest) ->
  d <> Decimal.Nil ->
  float_follows rest = false ->
  scan_int (if negative then String "-" (String c s') else String c s')
  = Some (Z.of_int (if negative then Decimal.Neg d else Decimal.Pos d), rest).
Proof.
  intros H45 H48 Hs Hd Hf. unfold scan_int.
  destruct negative.
  - change (nat_of_ascii "-" =? 45)%nat with true. cbv iota beta.
    rewrite H48, Hs. destruct d; try congruence; now rewrite Hf.
  - rewrite H45, H48, Hs. destruct d; try congruence; now rewrite Hf.
Qed.

Lemma string_of_uint_pos (negative : bool) (p : positive) (rest : string) :
  int_delimited rest ->
  scan_int ((if negative then "-" else "")
            +:+ NilEmpty.string_of_uint (Pos.to_uint p) +:+ rest)
  = Some (if negative then Zneg p else Zpos p, rest).
Proof.
  intros [Hd Hf].
  pose proof (to_uint_head p) as Hh.
  pose proof (scan_digits_uint (Pos.to_uint p) rest Hd) as Hs.
  assert (Hz : forall b : bool,
             Z.of_int (if b then Decimal.Neg (Pos.to_uint p)
                       else Decimal.Pos (Pos.to_uint p))
             = if b then Zneg p else Zpos p).
  { intros []; [exact (DecimalZ.of_to (Zneg p)) | exact (DecimalZ.of_to (Zpos p))]. }
  rewrite <- Hz.
  destruct (Pos.to_uint p) as [|d|d|d|d|d|d|d|d|d|d] eqn:E; try contradiction;
    simpl NilEmpty.string_of_uint in *;
    (destruct negative; simpl String.append in *;
     [ eapply (scan_int_unsigned true) | eapply (scan_int_unsigned false) ];
     first [ exact Hs | exact Hf | reflexivity | discriminate ]).
Qed.

Lemma scan_int_encode (z : Z) (rest : string) :
  int_delimited rest ->
  scan_int (py_int_str z +:+ rest) = Some (z, rest).
Proof.
  intros Hrest. destruct z as [|p|p].
  - destruct Hrest as [_ Hf]. unfold py_int_str, scan_int. simpl.
    now rewrite Hf.
  - pose proof (string_of_uint_pos false p rest Hrest) as Hp.
    pose proof (Unsigned.to_uint_nonnil p) as Hn.
    unfold py_int_str. simpl in *. unfold NilZero.string_of_uint.
    destruct (Pos.to_uint p); try congruence; exact Hp.
  - pose proof (string_of_uint_pos true p rest Hrest) as Hp.
    pose proof (Unsigned.to_uint_nonnil p) as Hn.
    unfold py_int_str. simpl in *. unfold NilZero.string_of_uint.
    destruct (Pos.to_uint p); try congruence; exact Hp.
Qed.

(** The first character of a printed integer. *)
Lemma py_int_str_head (z : Z) :
  exists c s, py_int_str z = String c s /\
    ((nat_of_ascii c =? 45)%nat = true \/ exists d, digit_of c = Some d).
Proof.
  destruct z as [|p|p]; unfold py_int_str; simpl.
  - exists "0"%char, "". split; [reflexivity | right; eexists; reflexivity].
  - pose proof (to_uint_head p) as Hh. unfold NilZero.string_of_uint.
    destruct (Pos.to_uint p); try contradiction; simpl;
      eexists _, _; (split; [reflexivity | right; eexists; reflexivity]).
  - eexists _, _. split; [reflexivity | left; reflexivity].
Qed.

(** *** Values *)

(** An induction principle that reaches the values inside lists and dicts. *)
Lemma json_induction (P : json -> Prop) :
  P JNull ->
  (forall b, P (JBool b)) ->
  (forall n, P (JInt n)) ->
  (forall s, P (JStr s)) ->
  (forall xs, Forall P xs -> P (JList xs)) ->
  (forall items, Forall (fun kv => P (snd kv)) items -> P (JDict items)) ->
  forall v, P v.
Proof.
  intros Hnull Hbool Hint Hstr Hlist Hdict.
  fix IH 1. intros [ | b | n | s | xs | items].
  - exact Hnull.
  - apply Hbool.
  - apply Hint.
  - apply Hstr.
  - apply Hlist. induction xs as [|x xs IHxs]; constructor; [apply IH | exact IHxs].
  - apply Hdict. induction items as [|kv items IHitems]; constructor;
      [apply IH | exact IHitems].
Qed.

Lemma encode_list_cons (level : nat) (x : json) (xs : list json) :
  encode level (JList (x :: xs))
  = "[" +:+ newline_indent (S level) +:+ encode (S level) x +:+ encode_elements level xs.
Proof.
  cbn [encode]. do 3 f_equal.
  induction xs as [|y ys IH]; cbn [encode_elements]; [reflexivity | now rewrite <- IH].
Qed.

Lemma encode_dict_cons (level : nat) (kv : string * json) (items : list (string * json)) :
  encode level (JDict (kv :: items))
  = "{" +:+ newline_indent (S level) +:+ encode_string (fst kv) +:+ ": "
    +:+ encode (S level) (snd kv) +:+ encode_members level items.
Proof.
  cbn [encode]. do 5 f_equal.
  induction items as [|y ys IH]; cbn [encode_members]; [reflexivity | now rewrite <- IH].
Qed.

Lemma size_list (xs : list json) : size (JList xs) = S (sizes xs).
Proof. reflexivity. Qed.

Lemma size_dict (items : list (string * json)) : size (JDict items) = S (item_sizes items).
Proof. reflexivity. Qed.

Lemma well_formed_list (xs : list json) :
  well_formed (JList xs) = forallb well_formed xs.
Proof. reflexivity. Qed.

Lemma well_formed_dict (items : list (string * json)) :
  well_formed (JDict items)
  = distinct_keys (map fst items) && forallb (fun kv => well_formed (snd kv)) items.
Proof. reflexivity. Qed.

(** White space *)

Lemma skip_ws_spaces (n : nat) (s : string) : skip_ws (str_mul " " n +:+ s) = skip_ws s.
Proof. induction n as [|n IH]; simpl; [reflexivity | exact IH]. Qed.

Lemma skip_ws_newline_indent (level : nat) (s : string) :
  skip_ws (newline_indent level +:+ s) = skip_ws s.
Proof. unfold newline_indent. rewrite str_app_assoc. simpl. apply skip_ws_spaces. Qed.

Lemma value_start_facts (c : ascii) :
  value_start c = true ->
  is_json_space c = false
  /\ (nat_of_ascii c =? 93)%nat = false
  /\ (nat_of_ascii c =? 125)%nat = false
  /\ (nat_of_ascii c =? 44)%nat = false.
Proof.
  destruct c as [[] [] [] [] [] [] [] []]; vm_compute; intros Hc;
    try discriminate Hc; repeat split; reflexivity.
Qed.

Lemma skip_ws_value_start (c : ascii) (r : string) :
  value_start c = true -> skip_ws (String c r) = String c r.
Proof.
  intros Hc. apply value_start_facts in Hc as [Hs _]. simpl. now rewrite Hs.
Qed.

Lemma after_value_delimited (rest : string) : after_value rest -> int_delimited rest.
Proof.
  destruct rest as [|c r]; simpl; [intros _; split; reflexivity |].
  unfold int_delimited, no_digit_head, float_follows.
  destruct c as [[] [] [] [] [] [] [] []]; vm_compute; intros [H|H];
    try discriminate H; split; reflexivity.
Qed.

(** An encoded value starts with a character that is no white space and
    closes nothing. *)
Lemma encode_head (v : json) (level : nat) (rest : string) :
  exists c r, encode level v +:+ rest = String c r /\ value_start c = true.
Proof.
  destruct v as [ | [] | n | s | [|x xs] | [|kv items]]; simpl;
    try (eexists _, _; split; [reflexivity | reflexivity]).
  destruct (py_int_str_head n) as (c & s & E & Hc). rewrite E. simpl.
  exists c, (s +:+ rest). split; [reflexivity |].
  destruct Hc as [Hc | [d Hd]];
    destruct c as [[] [] [] [] [] [] [] []]; vm_compute in *; congruence.
Qed.

(** [dict(pairs)] of pairs with distinct keys is the list of the pairs. *)
Lemma dict_set_fresh (k : string) (v : json) (d : list (string * json)) :
  existsb (String.eqb k) (map fst d) = false ->
  dict_set k v d = d ++ [(k, v)].
Proof.
  induction d as [|[k' v'] d IH]; simpl; [reflexivity |].
  intros Hk. apply orb_false_iff in Hk as [Hk Hd].
  rewrite Hk. now rewrite IH.
Qed.

Lemma existsb_app_false (k : string) (a b : list string) :
  existsb (String.eqb k) (a ++ b) = false <->
  existsb (String.eqb k) a = false /\ existsb (String.eqb k) b = false.
Proof. rewrite existsb_app. apply orb_false_iff. Qed.

Lemma py_dict_distinct_from (acc items : list (string * json)) :
  distinct_keys (map fst (acc ++ items)) = true ->
  fold_left (fun d kv => dict_set (fst kv) (snd kv) d) items acc = acc ++ items.
Proof.
  revert acc. induction items as [|[k v] items IH]; intros acc Hd; simpl.
  - now rewrite app_nil_r.
  - assert (Hfresh : existsb (String.eqb k) (map fst acc) = false).
    { clear IH. induction acc as [|[k' v'] acc IHacc]; simpl in *; [reflexivity |].
      apply andb_true_iff in Hd as [Hk' Hd].
      rewrite (IHacc Hd). rewrite orb_false_r.
      apply negb_true_iff in Hk'. rewrite map_app in Hk'. simpl in Hk'.
      apply existsb_app_false in Hk' as [_ Hk']. simpl in Hk'.
      apply orb_false_iff in Hk' as [Hk' _].
      now rewrite String.eqb_sym. }
    rewrite dict_set_fresh by exact Hfresh.
    rewrite IH; rewrite <- app_assoc; [reflexivity | exact Hd].
Qed.

Lemma py_dict_distinct (items : list (string * json)) :
  distinct_keys (map fst items) = true -> py_dict items = items.
Proof. intros Hd. unfold py_dict. now rewrite py_dict_distinct_from. Qed.

(** ** Decoding what was encoded *)

Lemma after_value_elements (level : nat) (xs : list json) (rest : string) :
  after_value (encode_elements level xs +:+ rest).
Proof. destruct xs; simpl; [right | left]; reflexivity. Qed.

Lemma after_value_members (level : nat) (items : list (string * json)) (rest : string) :
  after_value (encode_members level items +:+ rest).
Proof. destruct items; simpl; [right | left]; reflexivity. Qed.

Lemma skip_ws_encode (v : json) (level : nat) (rest : string) :
  skip_ws (encode level v +:+ rest) = encode level v +:+ rest.
Proof.
  destruct (encode_head v level rest) as (c & r & E & Hc).
  rewrite E. now apply skip_ws_value_start.
Qed.

Lemma scan_elements_encode (xs : list json) :
  Forall decodes xs ->
  forall x, decodes x ->
  forall (level : nat) (rest : string) (fuel : nat),
    (S (size x) + sizes xs <= fuel)%nat ->
    scan_elements fuel (encode (S level) x +:+ encode_elements level xs +:+ rest)
    = Some (x :: xs, rest).
Proof.
  induction 1 as [|y ys Hy Hys IH]; intros x Hx level rest fuel Hfuel;
    [ change (sizes []) with O in Hfuel
    | change (sizes (y :: ys)) with (S (size y) + sizes ys)%nat in Hfuel ];
    (destruct fuel as [|fuel]; [lia |]);
    cbn [scan_elements];
    rewrite Hx by first [lia | apply after_value_elements].
  - cbn [encode_elements]. rewrite str_app_assoc, skip_ws_newline_indent.
    reflexivity.
  - cbn [encode_elements]. rewrite !str_app_assoc.
    change (skip_ws ("," +:+ ?s)) with ("," +:+ s).
    cbn [String.append]. cbv beta iota.
    change (nat_of_ascii "," =? 93)%nat with false.
    change (nat_of_ascii "," =? 44)%nat with true. cbv iota.
    rewrite skip_ws_newline_indent, skip_ws_encode.
    rewrite (IH y Hy level rest fuel) by lia.
    reflexivity.
Qed.

Lemma scan_members_encode (items : list (string * json)) :
  Forall (fun kv => decodes (snd kv)) items ->
  forall k v, decodes v ->
  forall (level : nat) (rest : string) (fuel : nat),
    (S (size v) + item_sizes items <= fuel)%nat ->
    scan_members fuel
      (encode_chars k +:+ dq +:+ ": " +:+ encode (S level) v
       +:+ encode_members level items +:+ rest)
    = Some ((k, v) :: items, rest).
Proof.
  induction 1 as [|[k' v'] items' Hy Hys IH]; intros k v Hv level rest fuel Hfuel;
    [ change (item_sizes []) with O in Hfuel
    | change (item_sizes ((k', v') :: items'))
        with (S (size v') + item_sizes items')%nat in Hfuel ];
    (destruct fuel as [|fuel]; [lia |]);
    cbn [scan_members];
    rewrite scanstring_encode_chars;
    cbn [String.append];
    change (skip_ws (String ":" ?s)) with (String ":" s);
    cbv beta iota;
    change (nat_of_ascii ":" =? 58)%nat with true; cbv iota;
    change (skip_ws (String " " ?s)) with (skip_ws s);
    rewrite skip_ws_encode;
    rewrite Hv by first [lia | apply after_value_members].
  - cbn [encode_members]. rewrite str_app_assoc, skip_ws_newline_indent.
    reflexivity.
  - cbn [encode_members fst snd]. rewrite !str_app_assoc.
    change (skip_ws ("," +:+ ?s)) with ("," +:+ s).
    cbn [String.append]. cbv beta iota.
    change (nat_of_ascii "," =? 125)%nat with false.
    change (nat_of_ascii "," =? 44)%nat with true. cbv iota.
    rewrite skip_ws_newline_indent.
    unfold encode_string. rewrite !str_app_assoc.
    change (skip_ws (dq +:+ ?s)) with (dq +:+ s).
    cbn [String.append dq]. cbv beta iota.
    change (nat_of_ascii (ascii_of_nat 34) =? 34)%nat with true. cbv iota.
    simpl in IH.
    rewrite (IH k' v' Hy level rest fuel) by lia.
    reflexivity.
Qed.

Lemma int_head_dispatch (c : ascii) (s : string) :
  (nat_of_ascii c =? 45)%nat = true \/ (exists d, digit_of c = Some d) ->
  (nat_of_ascii c =? 34)%nat = false
  /\ (nat_of_ascii c =? 123)%nat = false
  /\ (nat_of_ascii c =? 91)%nat = false
  /\ startswith "null" (String c s) = false
  /\ startswith "true" (String c s) = false
  /\ startswith "false" (String c s) = false.
Proof.
  intros [Hc | [d Hd]];
    destruct c as [[] [] [] [] [] [] [] []]; vm_compute in *;
    try discriminate; repeat split; reflexivity.
Qed.

Lemma forallb_Forall_impl (P : json -> Prop) (xs : list json) :
  Forall (fun x => well_formed x = true -> P x) xs ->
  forallb well_formed xs = true -> Forall P xs.
Proof.
  induction 1 as [|x xs Hx _ IH]; simpl; intros Hwf; constructor;
    apply andb_true_iff in Hwf as [H1 H2]; auto.
Qed.

Lemma forallb_Forall_items (P : json -> Prop) (items : list (string * json)) :
  Forall (fun kv => well_formed (snd kv) = true -> P (snd kv)) items ->
  forallb (fun kv => well_formed (snd kv)) items = true ->
  Forall (fun kv => P (snd kv)) items.
Proof.
  induction 1 as [|x xs Hx _ IH]; simpl; intros Hwf; constructor;
    apply andb_true_iff in Hwf as [H1 H2]; auto.
Qed.

(** Decoding an encoded value gives the value back and stops right after
    it. *)
Lemma scan_value_encode (v : json) : well_formed v = true -> decodes v.
Proof.
  induction v as [ | b | n | s | xs IH | items IH] using json_induction;
    intros Hwf level rest fuel Hfuel Hrest;
    (destruct fuel as [|fuel]; [simpl in Hfuel; lia |]).
  - reflexivity.
  - destruct b; reflexivity.
  - cbn [encode].
    destruct (py_int_str_head n) as (c & s & E & Hc).
    pose proof (scan_int_encode n rest (after_value_delimited rest Hrest)) as Hn.
    rewrite E in *. cbn [String.append] in *.
    destruct (int_head_dispatch c (s +:+ rest) Hc) as (H1 & H2 & H3 & H4 & H5 & H6).
    cbn [scan_value]. cbv zeta. rewrite H1, H2, H3, H4, H5, H6, Hn. reflexivity.
  - cbn [encode]. unfold encode_string. rewrite !str_app_assoc.
    change (scan_value (S fuel) (dq +:+ ?t))
      with (match scanstring t with
            | Some (str, r) => Some (JStr str, r)
            | None => None
            end).
    now rewrite scanstring_encode_chars.
  - rewrite well_formed_list in Hwf.
    pose proof (forallb_Forall_impl decodes xs IH Hwf) as Hxs.
    destruct xs as [|x xs]; [reflexivity |].
    rewrite size_list in Hfuel.
    change (sizes (x :: xs)) with (S (size x) + sizes xs)%nat in Hfuel.
    rewrite encode_list_cons, !str_app_assoc.
    cbn [String.append scan_value]. cbv zeta.
    change (nat_of_ascii "[" =? 34)%nat with false.
    change (nat_of_ascii "[" =? 123)%nat with false.
    change (nat_of_ascii "[" =? 91)%nat with true. cbv iota.
    rewrite skip_ws_newline_indent, skip_ws_encode.
    destruct (encode_head x (S level) (encode_elements level xs +:+ rest))
      as (c & r & E & Hc).
    apply value_start_facts in Hc as (_ & H93 & _).
    inversion Hxs as [|? ? Hx Hxs']; subst.
    pose proof (scan_elements_encode xs Hxs' x Hx level rest fuel) as Hs.
    rewrite E in *. rewrite H93, Hs by lia. reflexivity.
  - rewrite well_formed_dict in Hwf. apply andb_true_iff in Hwf as [Hkeys Hwf].
    pose proof (forallb_Forall_items decodes items IH Hwf) as Hitems.
    destruct items as [|[k v] items]; [reflexivity |].
    rewrite size_dict in Hfuel.
    change (item_sizes ((k, v) :: items))
      with (S (size v) + item_sizes items)%nat in Hfuel.
    rewrite encode_dict_cons, !str_app_assoc.
    cbn [String.append scan_value fst snd]. cbv zeta.
    change (nat_of_ascii "{" =? 34)%nat with false.
    change (nat_of_ascii "{" =? 123)%nat with true. cbv iota.
    rewrite skip_ws_newline_indent.
    unfold encode_string. rewrite !str_app_assoc.
    change (skip_ws (dq +:+ ?s)) with (dq +:+ s).
    cbn [String.append dq]. cbv beta iota.
    change (nat_of_ascii (ascii_of_nat 34) =? 125)%nat with false.
    change (nat_of_ascii (ascii_of_nat 34) =? 34)%nat with true. cbv iota.
    inversion Hitems as [|? ? Hv Hitems']; subst. simpl in Hv.
    pose proof (scan_members_encode items Hitems' k v Hv level rest fuel) as Hs.
    simpl in Hs. rewrite Hs by lia.
    now rewrite py_dict_distinct.
Qed.

(** Every node of a value is printed with at least one character. *)
Lemma size_le_length (v : json) (level : nat) :
  (size v <= 2 * String.length (encode level v))%nat.
Proof.
  revert level.
  induction v as [ | b | n | s | xs IH | items IH] using json_induction; intros level.
  - simpl. lia.
  - destruct b; simpl; lia.
  - cbn [encode size]. destruct (py_int_str_head n) as (c & s & E & _).
    rewrite E. simpl. lia.
  - simpl. lia.
  - destruct xs as [|x xs]; [simpl; lia |].
    rewrite size_list, encode_list_cons.
    change (sizes (x :: xs)) with (S (size x) + sizes xs)%nat.
    rewrite !str_length_app.
    inversion IH as [|? ? Hx Hxs]; subst.
    specialize (Hx (S level)).
    assert (Hrest : (sizes xs <= 2 * String.length (encode_elements level xs) - 2)%nat).
    { clear Hx IH. induction Hxs as [|y ys Hy _ IHys].
      - cbn [encode_elements sizes fold_right]. lia.
      - change (sizes (y :: ys)) with (S (size y) + sizes ys)%nat.
        cbn [encode_elements]. rewrite !str_length_app.
        specialize (Hy (S level)). simpl String.length. lia. }
    assert (Hpos : (1 <= String.length (encode_elements level xs))%nat).
    { destruct xs; cbn [encode_elements]; unfold newline_indent;
        rewrite ?str_length_app; simpl; lia. }
    simpl String.length. lia.
  - destruct items as [|[k v] items]; [simpl; lia |].
    rewrite size_dict, encode_dict_cons.
    change (item_sizes ((k, v) :: items)) with (S (size v) + item_sizes items)%nat.
    rewrite !str_length_app.
    inversion IH as [|? ? Hv Hitems]; subst. simpl in Hv.
    specialize (Hv (S level)). cbn [fst snd].
    assert (Hrest : (item_sizes items <= 2 * String.length (encode_members level items) - 2)%nat).
    { clear Hv IH. induction Hitems as [|y ys Hy _ IHys].
      - cbn [encode_members item_sizes fold_right]. lia.
      - change (item_sizes (y :: ys)) with (S (size (snd y)) + item_sizes ys)%nat.
        cbn [encode_members]. rewrite !str_length_app.
        specialize (Hy (S level)). simpl String.length. lia. }
    assert (Hpos : (1 <= String.length (encode_members level items))%nat).
    { destruct items; cbn [encode_members]; unfold newline_indent;
        rewrite ?str_length_app; simpl; lia. }
    simpl String.length. lia.
Qed.

(** [json.loads(json.dumps(v, indent=4)) == v] *)
Lemma json_loads_dumps (v : json) :
  well_formed v = true -> json_loads (json_dumps v) = Some v.
Proof.
  intros Hwf. unfold json_loads, json_dumps.
  pose proof (skip_ws_encode v 0 "") as Hs. rewrite str_app_nil_r in Hs.
  rewrite Hs.
  pose proof (scan_value_encode v Hwf 0%nat ""
                (2 * String.length (encode 0 v) + 2)%nat) as Hd.
  rewrite str_app_nil_r in Hd.
  rewrite Hd; [reflexivity | | exact I].
  pose proof (size_le_length v 0). lia.
Qed.

(** *** What the decoder builds is well formed *)

Lemma dict_set_keys_fresh (k k' : string) (v : json) (d : list (string * json)) :
  String.eqb k' k = false ->
  existsb (String.eqb k') (map fst (dict_set k v d))
  = existsb (String.eqb k') (map fst d).
Proof.
  intros Hk. induction d as [|[k0 v0] d IH]; simpl.
  - now rewrite Hk.
  - destruct (String.eqb k k0) eqn:E; simpl; [reflexivity | now rewrite IH].
Qed.

Lemma dict_set_distinct (k : string) (v : json) (d : list (string * json)) :
  distinct_keys (map fst d) = true ->
  distinct_keys (map fst (dict_set k v d)) = true.
Proof.
  induction d as [|[k0 v0] d IH]; simpl; [reflexivity |].
  intros Hd. apply andb_true_iff in Hd as [Hk0 Hd].
  destruct (String.eqb k k0) eqn:E; simpl.
  - now rewrite Hk0, Hd.
  - rewrite (IH Hd), andb_true_r.
    rewrite dict_set_keys_fresh; [exact Hk0 |].
    now rewrite String.eqb_sym.
Qed.

Lemma dict_set_well_formed (k : string) (v : json) (d : list (string * json)) :
  well_formed v = true ->
  forallb (fun kv => well_formed (snd kv)) d = true ->
  forallb (fun kv => well_formed (snd kv)) (dict_set k v d) = true.
Proof.
  intros Hv. induction d as [|[k0 v0] d IH]; simpl; [now rewrite Hv |].
  intros Hd. apply andb_true_iff in Hd as [H0 Hd].
  destruct (String.eqb k k0); simpl.
  - now rewrite Hv, Hd.
  - now rewrite H0, IH.
Qed.

Lemma py_dict_well_formed (items : list (string * json)) :
  forallb (fun kv => well_formed (snd kv)) items = true ->
  well_formed (JDict (py_dict items)) = true.
Proof.
  intros Hitems. rewrite well_formed_dict. unfold py_dict.
  assert (Hgen : forall acc,
             distinct_keys (map fst acc) = true ->
             forallb (fun kv => well_formed (snd kv)) acc = true ->
             let d := fold_left (fun d kv => dict_set (fst kv) (snd kv) d) items acc in
             distinct_keys (map fst d) = true
             /\ forallb (fun kv => well_formed (snd kv)) d = true).
  { induction items as [|[k v] items IH]; intros acc Hd Hw; simpl; [auto |].
    simpl in Hitems. apply andb_true_iff in Hitems as [Hv Hitems].
    apply IH; [exact Hitems | now apply dict_set_distinct
              | now apply dict_set_well_formed]. }
  destruct (Hgen [] eq_refl eq_refl) as [H1 H2]. now rewrite H1, H2.
Qed.

Ltac destruct_scan H :=
  repeat match type of H with
         | context [match ?x with _ => _ end] => destruct x eqn:?; try discriminate H
         | context [if ?b then _ else _] => destruct b eqn:?; try discriminate H
         end.

Lemma scan_well_formed (fuel : nat) :
  (forall s v r, scan_value fuel s = Some (v, r) -> well_formed v = true)
  /\ (forall s vs r, scan_elements fuel s = Some (vs, r) ->
      forallb well_formed vs = true)
  /\ (forall s items r, scan_members fuel s = Some (items, r) ->
      forallb (fun kv => well_formed (snd kv)) items = true).
Proof.
  induction fuel as [|fuel (IHv & IHe & IHm)];
    [repeat split; intros; discriminate |].
  repeat split.
  - intros s v r H. cbn [scan_value] in H. cbv zeta in H.
    destruct_scan H; inversion H; subst; clear H; try reflexivity.
    + apply py_dict_well_formed. eauto.
    + rewrite well_formed_list. eauto.
  - intros s vs r H. cbn [scan_elements] in H.
    destruct_scan H; inversion H; subst; clear H; simpl.
    + erewrite IHv by eauto. reflexivity.
    + erewrite IHv by eauto. erewrite IHe by eauto. reflexivity.
  - intros s items r H. cbn [scan_members] in H.
    destruct_scan H; inversion H; subst; clear H; simpl.
    + erewrite IHv by eauto. reflexivity.
    + erewrite IHv by eauto. erewrite IHm by eauto. reflexivity.
Qed.

Lemma json_loads_well_formed (text : string) (v : json) :
  json_loads text = Some v -> well_formed v = true.
Proof.
  unfold json_loads. intros H. destruct_scan H. inversion H; subst.
  eapply scan_well_formed; eauto.
Qed.

(** ** Dicts *)

Lemma dict_get_set_eq (k : string) (v : json) (d : list (string * json)) :
  dict_get k (dict_set k v d) = Some v.
Proof.
  induction d as [|[k0 v0] d IH]; simpl.
  - now rewrite String.eqb_refl.
  - destruct (String.eqb k k0) eqn:E; simpl; rewrite E; [reflexivity | exact IH].
Qed.

Lemma dict_get_set_ne (k k' : string) (v : json) (d : list (string * json)) :
  k <> k' -> dict_get k' (dict_set k v d) = dict_get k' d.
Proof.
  intros Hne. induction d as [|[k0 v0] d IH]; simpl.
  - apply String.eqb_neq in Hne. now rewrite String.eqb_sym, Hne.
  - destruct (String.eqb k k0) eqn:E; simpl.
    + apply String.eqb_eq in E. subst k0.
      apply String.eqb_neq in Hne. now rewrite String.eqb_sym, Hne.
    + now rewrite IH.
Qed.

(** ** The rules of confinement *)

Ltac primitive_step He :=
  cbn [fst snd out procs fs host dirs locked with_out];
  rewrite ?app_nil_r; repeat split; auto; try discriminate;
  try (intros ? [= <-]; apply He);
  try (intros ?; rewrite ?app_nil_r; reflexivity).

Section Confinement.
Context `{Platform}.
Variables (P Q : string -> Prop) (C : list string -> Prop) (E : exn -> Prop).

(** A step that prints nothing, runs nothing and leaves the files. *)
Lemma confined_silent {A} (m : M A) (w : World) :
  out (snd (m w)) = out w -> procs (snd (m w)) = procs w ->
  fs (snd (m w)) = fs w ->
  (forall e, fst (m w) = Raise e -> E e) ->
  (forall t, m (with_out w t) = (fst (m w), with_out (snd (m w)) t)) ->
  confined_at P Q C E m w.
Proof.
  intros Ho Hp Hf He Ht. exists [], [].
  rewrite Ho, Hp, Hf, !app_nil_r. repeat split; auto.
  intros t. now rewrite app_nil_r.
Qed.

Lemma confined_ret {A} (a : A) : confined P Q C E (ret a).
Proof. intros w. apply confined_silent; try reflexivity. discriminate. Qed.

Lemma confined_raise {A} (e : exn) : E e -> confined P Q C E (@raise _ A e).
Proof.
  intros He w. apply confined_silent; try reflexivity.
  intros e' [= <-]. exact He.
Qed.

Lemma confined_lift_res {A} (r : res A) :
  (forall e, r = Raise e -> E e) -> confined P Q C E (lift_res r).
Proof. intros He w. apply confined_silent; try reflexivity. exact He. Qed.

Lemma confined_read_world {A} (f : World -> res A) :
  (forall w t, f (with_out w t) = f w) ->
  (forall w e, f w = Raise e -> E e) ->
  confined P Q C E (read_world f).
Proof.
  intros Hf He w. apply confined_silent; try reflexivity.
  - apply He.
  - intros t. unfold read_world. now rewrite Hf.
Qed.

Lemma confined_print_end (text e : string) :
  P (text +:+ e) -> confined P Q C E (print_end text e).
Proof.
  intros Hp w. exists [text +:+ e], []. unfold print_end.
  cbn [fst snd out procs fs host dirs locked with_out].
  rewrite ?app_nil_r. repeat split; auto. discriminate.
Qed.

Lemma confined_print (text : string) :
  P (text +:+ nl) -> confined P Q C E (print text).
Proof. apply confined_print_end. Qed.

Lemma confined_write_file (path text : string) :
  Q path -> (forall msg, E (OSError msg)) ->
  confined P Q C E (write_file path text).
Proof.
  intros Hq He w. exists [], []. unfold write_file.
  change (writable path (with_out w ?t)) with (writable path w).
  destruct (writable path w); primitive_step He.
  intros p Hp. apply lookup_insert_ne. congruence.
Qed.

Lemma confined_mkdir (path : string) :
  (forall msg, E (OSError msg)) -> confined P Q C E (mkdir path).
Proof.
  intros He w. exists [], []. unfold mkdir.
  change (dir_exists ?p (with_out w ?t)) with (dir_exists p w).
  change (file_exists ?p (with_out w ?t)) with (file_exists p w).
  change (locked (with_out w ?t)) with (locked w).
  repeat match goal with |- context [if ?b then _ else _] => destruct b end;
    primitive_step He.
Qed.

Lemma confined_makedirs (path : string) :
  (forall msg, E (OSError msg)) -> confined P Q C E (makedirs path).
Proof.
  intros He w. exists [], []. unfold makedirs.
  change (locked (with_out w ?t)) with (locked w).
  change (fun p => bool_decide (p ∈ locked w) || file_exists p (with_out w ?t))
    with (fun p => bool_decide (p ∈ locked w) || file_exists p w).
  repeat match goal with |- context [if ?b then _ else _] => destruct b end;
    primitive_step He.
Qed.

Lemma confined_subprocess_run (cmd : list string) (check : bool) :
  C cmd ->
  (forall h e, fst (spawn cmd h) = SpawnFailed e -> E e) ->
  (check = true -> forall rc err, E (CalledProcessError cmd rc err)) ->
  confined P Q C E (subprocess_run cmd check).
Proof.
  intros Hc Hs Hk w. exists [], [cmd]. unfold subprocess_run.
  change (host (with_out w ?t)) with (host w).
  pose proof (Hs (host w)) as Hs'.
  destruct (spawn cmd (host w)) as [[rc so se | e] h'];
    [destruct check; [destruct (negb (rc =? 0)) |] |];
    cbn [andb fst snd out procs fs host dirs locked with_out] in *;
    rewrite ?app_nil_r; repeat split; auto; try discriminate;
    try (intros ?; rewrite ?app_nil_r; reflexivity).
  - intros e [= <-]. now apply Hk.
  - intros e' [= <-]. now apply Hs'.
Qed.

Lemma confined_at_bind {A B} (m : M A) (k : A -> M B) (w : World) :
  confined_at P Q C E m w ->
  (forall a w1, m w = (Ret a, w1) -> confined_at P Q C E (k a) w1) ->
  confined_at P Q C E (bind m k) w.
Proof.
  intros Hm Hk. unfold confined_at, bind in *.
  destruct Hm as (t1 & c1 & Ho1 & Hp1 & Hc1 & Hq1 & Hf1 & He1 & Hb1).
  destruct (m w) as [[a | e] w1] eqn:Em; cbn [fst snd] in *.
  - destruct (Hk a w1 eq_refl) as (t2 & c2 & Ho2 & Hp2 & Hc2 & Hq2 & Hf2 & He2 & Hb2).
    exists (t1 ++ t2), (c1 ++ c2).
    rewrite Ho2, Ho1, Hc2, Hc1, !app_assoc.
    repeat split; auto using Forall_app_2.
    + intros p Hp. rewrite Hf2, Hf1; auto.
    + intros t. rewrite Hb1, Hb2, <- ?app_assoc. reflexivity.
  - exists t1, c1. repeat split; auto;
      [intros e' [= <-]; now apply He1 | intros t; now rewrite Hb1].
Qed.

Lemma confined_bind {A B} (m : M A) (k : A -> M B) :
  confined P Q C E m -> (forall a, confined P Q C E (k a)) ->
  confined P Q C E (bind m k).
Proof.
  intros Hm Hk w. apply confined_at_bind; [apply Hm | intros a w1 _; apply Hk].
Qed.

End Confinement.

Section ConfinementOfHandlers.
Context `{Platform}.
Variables (P Q : string -> Prop) (C : list string -> Prop) (E : exn -> Prop).

(** The body of a [try] may raise what the [except] clause catches. *)
Lemma confined_try_except {A} (body : M A) (catches : exn -> bool)
    (handler : exn -> M A) :
  confined P Q C (fun e => catches e = true \/ E e) body ->
  (forall e, confined P Q C E (handler e)) ->
  confined P Q C E (try_except body catches handler).
Proof.
  intros Hm Hk w. unfold confined_at, try_except.
  destruct (Hm w) as (t1 & c1 & Ho1 & Hp1 & Hc1 & Hq1 & Hf1 & He1 & Hb1).
  destruct (body w) as [[a | e] w1] eqn:Em; cbn [fst snd] in *.
  - exists t1, c1. repeat split; auto; try discriminate.
    intros t. now rewrite Hb1.
  - destruct (catches e) eqn:Ec.
    + destruct (Hk e w1) as (t2 & c2 & Ho2 & Hp2 & Hc2 & Hq2 & Hf2 & He2 & Hb2).
      exists (t1 ++ t2), (c1 ++ c2).
      rewrite Ho2, Ho1, Hc2, Hc1, !app_assoc.
      repeat split; auto using Forall_app_2.
      * intros p Hp. rewrite Hf2, Hf1; auto.
      * intros t. rewrite Hb1, Ec, Hb2, <- ?app_assoc. reflexivity.
    + exists t1, c1. repeat split; auto.
      * intros e' [= <-]. destruct (He1 e eq_refl) as [Hx | Hx]; [congruence | exact Hx].
      * intros t. now rewrite Hb1, Ec.
Qed.

Lemma confined_for_do {X} (xs : list X) (body : X -> M unit) :
  (forall x, In x xs -> confined P Q C E (body x)) ->
  confined P Q C E (for_do xs body).
Proof.
  induction xs as [|x xs IH]; intros Hb; simpl.
  - apply confined_ret.
  - apply confined_bind; [apply Hb; now left |].
    intros _. apply IH. intros y Hy. apply Hb. now right.
Qed.

Lemma confined_for_each {X R} (xs : list X) (body : X -> M (option R)) :
  (forall x, In x xs -> confined P Q C E (body x)) ->
  confined P Q C E (for_each xs body).
Proof.
  induction xs as [|x xs IH]; intros Hb; simpl.
  - apply confined_ret.
  - apply confined_bind; [apply Hb; now left |].
    intros [r|]; [apply confined_ret |].
    apply IH. intros y Hy. apply Hb. now right.
Qed.

Lemma confined_path_exists (path : string) : confined P Q C E (path_exists path).
Proof. apply confined_read_world; [reflexivity | discriminate]. Qed.

Lemma confined_read_file (path : string) :
  (forall msg, E (OSError msg)) -> confined P Q C E (read_file path).
Proof.
  intros He. apply confined_read_world; [reflexivity |].
  intros w e. destruct (fs w !! path); [discriminate | intros [= <-]; apply He].
Qed.

Lemma confined_py_import_torch :
  (forall e, E e) -> confined P Q C E py_import_torch.
Proof. intros He. apply confined_read_world; [reflexivity | auto]. Qed.

Lemma confined_py_import (name : string) :
  (forall e, E e) -> confined P Q C E (py_import name).
Proof. intros He. apply confined_read_world; [reflexivity | auto]. Qed.

Lemma confined_py_value (expr : string) :
  (forall e, E e) -> confined P Q C E (py_value expr).
Proof. intros He. apply confined_read_world; [reflexivity | auto]. Qed.

Lemma confined_json_load (text : string) :
  (forall name msg, E (Other name msg)) -> confined P Q C E (json_load text).
Proof.
  intros He. unfold json_load. destruct (json_loads text);
    [apply confined_ret | apply confined_raise, He].
Qed.

Lemma confined_py_get (v : json) (k : string) (d : json) :
  (forall name msg, E (Other name msg)) -> confined P Q C E (py_get v k d).
Proof.
  intros He. destruct v; simpl;
    first [apply confined_ret | apply confined_raise, He].
Qed.

Lemma confined_py_setitem (v : json) (k : string) (x : json) :
  (forall name msg, E (Other name msg)) -> confined P Q C E (py_setitem v k x).
Proof.
  intros He. destruct v; simpl;
    first [apply confined_ret | apply confined_raise, He].
Qed.

(** A weaker bound on the exceptions. *)
Lemma confined_weaken {A} (E' : exn -> Prop) (m : M A) :
  (forall e, E' e -> E e) -> confined P Q C E' m -> confined P Q C E m.
Proof.
  intros Himp Hm w.
  destruct (Hm w) as (t1 & c1 & Ho1 & Hp1 & Hc1 & Hq1 & Hf1 & He1 & Hb1).
  exists t1, c1. repeat split; auto.
Qed.

End ConfinementOfHandlers.

(** Take a computation apart along its structure; what is left are the
    conditions on the printed texts, the written paths, the commands and
    the exceptions. *)
Ltac confine_step :=
  lazymatch goal with
  | |- confined _ _ _ _ (ret _) => apply confined_ret
  | |- confined _ _ _ _ (raise _) => apply confined_raise
  | |- confined _ _ _ _ (lift_res _) => apply confined_lift_res
  | |- confined _ _ _ _ (read_world _) =>
      apply confined_read_world; [intros ? ?; reflexivity |]
  | |- confined _ _ _ _ (path_exists _) => apply confined_path_exists
  | |- confined _ _ _ _ (read_file _) => apply confined_read_file
  | |- confined _ _ _ _ py_import_torch => apply confined_py_import_torch
  | |- confined _ _ _ _ (py_import _) => apply confined_py_import
  | |- confined _ _ _ _ (py_value _) => apply confined_py_value
  | |- confined _ _ _ _ (json_load _) => apply confined_json_load
  | |- confined _ _ _ _ (py_get _ _ _) => apply confined_py_get
  | |- confined _ _ _ _ (py_setitem _ _ _) => apply confined_py_setitem
  | |- confined _ _ _ _ (mkdir _) => apply confined_mkdir
  | |- confined _ _ _ _ (makedirs _) => apply confined_makedirs
  | |- confined _ _ _ _ (print _) => apply confined_print
  | |- confined _ _ _ _ (print_end _ _) => apply confined_print_end
  | |- confined _ _ _ _ (write_file _ _) => apply confined_write_file
  | |- confined _ _ _ _ (subprocess_run _ _) => apply confined_subprocess_run
  | |- confined _ _ _ _ (bind _ _) => apply confined_bind; [| intros ?]
  | |- confined _ _ _ _ (try_except _ _ _) => apply confined_try_except; [| intros ?]
  | |- confined _ _ _ _ (for_do _ _) => apply confined_for_do; intros ? ?
  | |- confined _ _ _ _ (for_each _ _) => apply confined_for_each; intros ? ?
  | |- confined _ _ _ _ (if ?b then _ else _) => destruct b
  | |- confined _ _ _ _ (match ?x with _ => _ end) => destruct x
  end.

Ltac confine := repeat confine_step.

(** The conditions on exceptions that the rules leave: some handler above
    catches the exception. *)
Ltac caught :=
  intros;
  repeat first [ exact I | reflexivity | left; reflexivity | right ].

(** Unfold the combinators of a computation applied to a world. *)
Ltac run_step :=
  cbv beta iota zeta delta
    [ bind ret raise try_except print print_end lift_res read_world
      py_import_torch py_import py_value path_exists read_file
      is_Exception ];
  cbn [fst snd host fs dirs locked out procs negb].

Lemma Forall_not_In {A} (P : A -> Prop) (x : A) (xs : list A) :
  Forall P xs -> ~ P x -> ~ In x xs.
Proof.
  intros Hall Hx Hin. rewrite Forall_forall in Hall.
  apply Hx, Hall. now apply list_elem_of_In.
Qed.

(** What a computation printed is determined by the outputs before and
    after it. *)
Lemma confined_at_result `{Platform} P Q C E {A} (m : M A) (w : World) :
  confined_at P Q C E m w ->
  forall t, fst (m (with_out w t)) = fst (m w).
Proof. intros (t1 & c1 & _ & _ & _ & _ & _ & _ & Hb) t. now rewrite Hb. Qed.

Lemma print_result `{Platform} (text : string) (w w1 : World) (u : unit) :
  print text w = (Ret u, w1) -> w1 = with_out w (out w ++ [line text]).
Proof. unfold print, print_end. now intros [= _ <-]. Qed.

Lemma with_out_with_out `{Platform} (w : World) (t t' : list string) :
  with_out (with_out w t) t' = with_out w t'.
Proof. reflexivity. Qed.

Section GuardedActions.
Context `{Platform}.

(** What [fix_grey_images.main] does once the VAE is found configured. *)
Lemma grey_main_rest_confined (available_vaes : list string) :
  confined (not_starting (nl +:+ "=== Configuring VAE: ")) launcher_or_vae
    no_command any_exception
    (chosen ← fix_grey_images.choose_vae available_vaes;
     match chosen with
     | None => ret tt
     | Some vae_name =>
         ret tt;;
         fix_grey_images.create_vae_fix_launch_script;;
         fix_grey_images.test_vae_configuration;;
         fix_grey_images.summary vae_name
     end).
Proof.
  unfold fix_grey_images.choose_vae, fix_grey_images.download_recommended_vae,
    fix_grey_images.create_vae_fix_launch_script,
    fix_grey_images.test_vae_configuration, fix_grey_images.summary.
  confine; caught.
Qed.

Lemma grey_check_confined :
  confined (not_starting (nl +:+ "=== Configuring VAE: ")) launcher_or_vae
    no_command any_exception fix_grey_images.check_current_vae_config.
Proof.
  unfold fix_grey_images.check_current_vae_config.
  confine; caught.
Qed.

Lemma grey_available_confined :
  confined (not_starting (nl +:+ "=== Configuring VAE: ")) launcher_or_vae
    no_command any_exception fix_grey_images.check_available_vaes.
Proof.
  unfold fix_grey_images.check_available_vaes.
  confine; caught; discriminate.
Qed.


End GuardedActions.

(** ** The UI config file *)

Section UiConfig.
Context `{Platform}.
Import fix_grey_images.

(** When the call succeeds, the file held a dictionary or did not exist,
    and it now holds the dump of that dictionary with the two keys set. *)
Lemma configure_vae_success (vae_name : string) (w : World) :
  fst (configure_vae_in_ui_config vae_name w) = Ret true ->
  exists before : list (string * json),
    match fs w !! ui_config_file with
    | Some text => json_loads text = Some (JDict before)
    | None => before = []
    end
    /\ fs (snd (configure_vae_in_ui_config vae_name w))
       = <[ui_config_file := json_dumps (JDict (with_preferred_vae vae_name before))]> (fs w).
Proof.
  unfold configure_vae_in_ui_config, json_load, py_setitem, write_file.
  run_step. unfold writable, file_exists, dir_exists. cbn [fs dirs locked].
  destruct (fs w !! ui_config_file) as [text|] eqn:Ef.
  - rewrite bool_decide_eq_true_2 by eauto. cbn [orb]. run_step. rewrite ?Ef.
    destruct (json_loads text) as [[ | b | n | s | xs | before]|] eqn:Ej;
      run_step; try discriminate.
    match goal with |- context [if ?b then _ else _] => destruct b end;
      run_step; try discriminate.
    intros _. exists before. split; reflexivity.
  - rewrite bool_decide_eq_false_2 by (intros [x Hx]; discriminate). cbn [orb].
    match goal with |- context [if ?b then _ else _] => destruct b eqn:Ed end;
      run_step; rewrite ?Ef; run_step; try discriminate.
    match goal with |- context [if ?b then _ else _] => destruct b end;
      run_step; try discriminate.
    intros _. exists []. split; reflexivity.
Qed.


Lemma with_preferred_vae_well_formed (vae_name : string) (before : list (string * json)) :
  well_formed (JDict before) = true ->
  well_formed (JDict (with_preferred_vae vae_name before)) = true.
Proof.
  rewrite !well_formed_dict. intros Hwf. apply andb_true_iff in Hwf as [Hk Hv].
  unfold with_preferred_vae. apply andb_true_iff. split.
  - now do 2 apply dict_set_distinct.
  - now do 2 (apply dict_set_well_formed; [reflexivity |]).
Qed.

Lemma configure_vae_before_well_formed (w : World) (before : list (string * json)) :
  match fs w !! ui_config_file with
  | Some text => json_loads text = Some (JDict before)
  | None => before = []
  end ->
  well_formed (JDict before) = true.
Proof.
  destruct (fs w !! ui_config_file) as [text|].
  - apply json_loads_well_formed.
  - now intros ->.
Qed.

Lemma with_preferred_vae_get (vae_name : string) (before : list (string * json)) :
  dict_get txt2img_key (with_preferred_vae vae_name before) = Some (JStr vae_name)
  /\ dict_get img2img_key (with_preferred_vae vae_name before) = Some (JStr vae_name)
  /\ (forall k, k <> txt2img_key -> k <> img2img_key ->
      dict_get k (with_preferred_vae vae_name before) = dict_get k before).
Proof.
  unfold with_preferred_vae. repeat split.
  - rewrite dict_get_set_ne by discriminate. apply dict_get_set_eq.
  - apply dict_get_set_eq.
  - intros k H1 H2. rewrite !dict_get_set_ne by congruence. reflexivity.
Qed.



End UiConfig.

(** ** Launchers *)

Section Launchers.
Context `{Platform}.

Lemma create_vae_fix_launch_script_written (w : World) :
  fst (fix_grey_images.create_vae_fix_launch_script w) = Ret true ->
  fs (snd (fix_grey_images.create_vae_fix_launch_script w))
  = <[fix_grey_images.script_filename := fix_grey_images.script_content]> (fs w).
Proof.
  unfold fix_grey_images.create_vae_fix_launch_script, write_file. run_step.
  change (writable ?p (mkWorld _ _ _ _ _ _)) with (writable p w).
  destruct (writable fix_grey_images.script_filename w); run_step;
    [reflexivity | discriminate].
Qed.

Lemma create_vae_debug_launch_script_written (w : World) :
  fst (diagnose_vae_issue.create_vae_debug_launch_script w) = Ret true ->
  fs (snd (diagnose_vae_issue.create_vae_debug_launch_script w))
  = <["webui_vae_debug.bat" := diagnose_vae_issue.debug_script]> (fs w).
Proof.
  unfold diagnose_vae_issue.create_vae_debug_launch_script, write_file. run_step.
  change (writable ?p (mkWorld _ _ _ _ _ _)) with (writable p w).
  destruct (writable "webui_vae_debug.bat" w); run_step;
    [reflexivity | discriminate].
Qed.

Lemma update_webui_config_written (w : World) :
  writable "webui_env.bat" w = true ->
  fix_pytorch_cuda.update_webui_config w
  = (Ret tt,
     mkWorld (host w) (<["webui_env.bat" := fix_pytorch_cuda.webui_content]> (fs w))
       (dirs w) (locked w)
       (out w ++ [line (nl +:+ "=== Updating WebUI Configuration ===");
                  line "✅ Updated webui_env.bat with CUDA configuration"])
       (procs w)).
Proof.
  intros Hw. unfold fix_pytorch_cuda.update_webui_config, write_file. run_step.
  change (writable ?p (mkWorld _ _ _ _ _ _)) with (writable p w).
  rewrite Hw. run_step. now rewrite <- app_assoc.
Qed.

(** C6. A launcher writer overwrites the file of its name: whatever the
    file held before, and also when it did not exist, after a successful
    call it holds exactly the text of the template.  [update_webui_config]
    succeeds whenever [webui_env.bat] can be opened for writing;
    [create_vae_fix_launch_script] reports its success by returning true. *)
Theorem launcher_overwrites (w : World) :
  (writable "webui_env.bat" w = true ->
   fs (snd (fix_pytorch_cuda.update_webui_config w)) !! "webui_env.bat"
   = Some fix_pytorch_cuda.webui_content
   /\ In (line "✅ Updated webui_env.bat with CUDA configuration")
         (out (snd (fix_pytorch_cuda.update_webui_config w))))
  /\
  (fst (fix_grey_images.create_vae_fix_launch_script w) = Ret true ->
   fs (snd (fix_grey_images.create_vae_fix_launch_script w)) !! "webui_vae_fixed.bat"
   = Some fix_grey_images.script_content).
Proof.
  split.
  - intros Hw. rewrite (update_webui_config_written w Hw). cbn [snd fs out].
    split; [apply lookup_insert_eq |].
    apply in_or_app. right. right. now left.
  - intros Hok. rewrite (create_vae_fix_launch_script_written w Hok).
    apply lookup_insert_eq.
Qed.


End Launchers.


(** ** Backups of patched files *)

(** Run a computation on a world in which the file of [Hf] is known, taking
    every test both ways. *)
Ltac run_cases Hf :=
  unfold write_file, writable, file_exists, dir_exists;
  repeat (first
            [ progress (run_step; cbn [orb andb negb]; rewrite ?Hf)
            | match goal with
              | |- context [if ?b then _ else _] => destruct b
              | |- context [match ?x with Some _ => _ | None => _ end] => destruct x
              end ];
          try discriminate).

Section Backups.
Context `{Platform}.

(** [patch_sgm_imports] backs the file up before it patches it. *)
Lemma patch_sgm_imports_backup (w : World) (original : string) :
  fs w !! fix_sgm_openclip.sgm_encoder_file = Some original ->
  fst (fix_sgm_openclip.patch_sgm_imports w) = Ret true ->
  fs (snd (fix_sgm_openclip.patch_sgm_imports w))
    !! (fix_sgm_openclip.sgm_encoder_file +:+ ".backup") = Some original.
Proof.
  intros Hf. unfold fix_sgm_openclip.patch_sgm_imports.
  run_cases Hf;
    intros _; (rewrite lookup_insert_ne by discriminate); apply lookup_insert_eq.
Qed.

(** [modify_webui_packages] does the same. *)
Lemma modify_webui_packages_backup (w : World) (original : string) :
  fs w !! fix_build_tools.launch_utils_path = Some original ->
  fst (fix_build_tools.modify_webui_packages w) = Ret true ->
  fs (snd (fix_build_tools.modify_webui_packages w))
    !! (fix_build_tools.launch_utils_path +:+ ".backup") = Some original.
Proof.
  intros Hf. unfold fix_build_tools.modify_webui_packages.
  run_cases Hf;
    intros _; (rewrite lookup_insert_ne by discriminate); apply lookup_insert_eq.
Qed.

(** [patch_gradio_extensions] writes the file only after the backup; it
    leaves a file that needs no patch as it is. *)
Lemma patch_gradio_extensions_backup (w : World) (original : string) :
  fs w !! fix_gradio_compatibility.extensions_file = Some original ->
  fst (fix_gradio_compatibility.patch_gradio_extensions w) = Ret true ->
  fs (snd (fix_gradio_compatibility.patch_gradio_extensions w)) = fs w
  \/ fs (snd (fix_gradio_compatibility.patch_gradio_extensions w))
       !! (fix_gradio_compatibility.extensions_file +:+ ".gradio_backup")
     = Some original.
Proof.
  intros Hf. unfold fix_gradio_compatibility.patch_gradio_extensions.
  run_cases Hf;
    intros _; try (left; reflexivity);
    right; (rewrite lookup_insert_ne by discriminate); apply lookup_insert_eq.
Qed.

(** In [fix_image_generation.py] the backup is taken from the text that is
    already patched: whenever [patch_webui_images_module] changes
    [modules/images.py], the backup file holds the new text. *)
Lemma patch_webui_images_module_backup (w : World) (original : string) :
  fs w !! fix_image_generation.images_file = Some original ->
  fst (fix_image_generation.patch_webui_images_module w) = Ret true ->
  fs (snd (fix_image_generation.patch_webui_images_module w)) = fs w
  \/ fs (snd (fix_image_generation.patch_webui_images_module w))
       !! (fix_image_generation.images_file +:+ ".cpu_fix_backup")
     = fs (snd (fix_image_generation.patch_webui_images_module w))
         !! fix_image_generation.images_file.
Proof.
  intros Hf. unfold fix_image_generation.patch_webui_images_module.
  run_cases Hf;
    intros _; try (left; reflexivity);
    right; (rewrite lookup_insert_ne by discriminate);
    now rewrite !lookup_insert_eq.
Qed.

End Backups.

(** C9, on the code. [patch_webui_images_module] run on a tree whose
    [modules/images.py] has an import block returns true and patches the
    file, and the backup it leaves is the patched text, not the original
    one. *)
Lemma images_backup_is_patched_text :
  let w := start bare_host tree_with_images in
  let w' := snd (fix_image_generation.patch_webui_images_module w) in
  fst (fix_image_generation.patch_webui_images_module w) = Ret true
  /\ fs w !! "modules/images.py" = Some images_py
  /\ fs w' !! "modules/images.py.cpu_fix_backup" = fs w' !! "modules/images.py"
  /\ fs w' !! "modules/images.py.cpu_fix_backup" <> Some images_py.
Proof.
  vm_compute. repeat split. discriminate.
Qed.

(** ** Exceptions inside the remediation steps *)

(** Run a computation, taking every outcome of the host and every test
    both ways. *)
Ltac run_all :=
  repeat (first
            [ progress (run_step; cbn [andb orb negb fst snd])
            | match goal with
              | |- context [spawn ?c ?h] => destruct (spawn c h) as [[? ? ?|?] ?]
              | |- context [import_torch ?h] => destruct (import_torch h)
              | |- context [import_module ?n ?h ?f] => destruct (import_module n h f)
              | |- context [py_eval ?e ?h ?f] => destruct (py_eval e h f)
              | |- context [tensor_op ?t ?n] => destruct (tensor_op t n)
              end
            | match goal with
              | |- context [if ?b then _ else _] => destruct b
              end ]).

Section Steps.
Context `{Platform}.

(** One turn of the loop of [uninstall_current_pytorch], when a child can
    fail only by its exit status: the command is run, the loop goes on, and
    one of the two status texts is printed. *)
Lemma uninstall_package_step (package : string) (w : World) :
  fails_by_exit_status ->
  exists status,
    (status = "✅ " +:+ package +:+ " uninstalled"
     \/ status = "⚠️  " +:+ package +:+ " not found or already uninstalled")
    /\ fix_pytorch_cuda.uninstall_package package w
       = (Ret tt,
          mkWorld (snd (spawn (fix_pytorch_cuda.uninstall_command package) (host w)))
            (fs w) (dirs w) (locked w)
            (out w ++ [line ("Uninstalling " +:+ package +:+ "..."); line status])
            (procs w ++ [fix_pytorch_cuda.uninstall_command package])).
Proof.
  intros Hspawn. unfold fix_pytorch_cuda.uninstall_package, subprocess_run. run_step.
  pose proof (Hspawn (fix_pytorch_cuda.uninstall_command package) (host w)) as Hs.
  destruct (spawn (fix_pytorch_cuda.uninstall_command package) (host w))
    as [[rc so se | e] h'] eqn:Es; cbn [fst snd andb] in *.
  - destruct (negb (rc =? 0)); run_step; cbn [is_CalledProcessError]; run_step;
      eexists; (split; [| rewrite <- app_assoc; reflexivity]); auto.
  - specialize (Hs e eq_refl). run_step. rewrite Hs. run_step.
    eexists; (split; [| rewrite <- app_assoc; reflexivity]); auto.
Qed.


Lemma uninstall_loop (packages : list string) (w : World) :
  fails_by_exit_status ->
  fst (for_do packages fix_pytorch_cuda.uninstall_package w) = Ret tt
  /\ procs (snd (for_do packages fix_pytorch_cuda.uninstall_package w))
     = procs w ++ map fix_pytorch_cuda.uninstall_command packages
  /\ exists texts,
       out (snd (for_do packages fix_pytorch_cuda.uninstall_package w)) = out w ++ texts
       /\ Forall (fun package =>
                    In (line ("✅ " +:+ package +:+ " uninstalled")) texts
                    \/ In (line ("⚠️  " +:+ package +:+ " not found or already uninstalled"))
                          texts) packages.
Proof.
  intros Hspawn. revert w.
  induction packages as [|package packages IH]; intros w.
  - cbn [for_do map]. unfold ret. cbn [fst snd]. rewrite app_nil_r.
    repeat split. exists []. now rewrite app_nil_r.
  - cbn [for_do map]. unfold bind.
    destruct (uninstall_package_step package w Hspawn) as (status & Hstatus & ->).
    match goal with |- context [for_do packages _ ?w1] => specialize (IH w1) end.
    destruct IH as (Hret & Hprocs & texts & Hout & Hall).
    split; [exact Hret |]. split.
    + rewrite Hprocs. cbn [procs]. now rewrite <- app_assoc.
    + exists ([line ("Uninstalling " +:+ package +:+ "..."); line status] ++ texts).
      split; [rewrite Hout; cbn [out]; now rewrite <- app_assoc |].
      constructor.
      * destruct Hstatus as [-> | ->]; [left | right]; right; now left.
      * eapply Forall_impl; [exact Hall |]. cbv beta.
        intros p [Hp | Hp]; [left | right]; now do 2 right.
Qed.


(** One strategy of [try_xformers_alternatives] other than the last:
    whatever is raised inside it, the loop goes on to the next strategy or
    the function returns true; the strategy runs the uninstall command
    first and nothing after its install command. *)
Lemma try_strategy_outcome (strategy : string * string) (w : World) :
  String.eqb (snd strategy) "skip" = false ->
  (fst (fix_final_gpu_issues.try_strategy strategy w) = Ret None
   \/ fst (fix_final_gpu_issues.try_strategy strategy w) = Ret (Some true))
  /\ (procs (snd (fix_final_gpu_issues.try_strategy strategy w))
      = procs w ++ [fix_final_gpu_issues.uninstall_command]
      \/ procs (snd (fix_final_gpu_issues.try_strategy strategy w))
         = procs w ++ [fix_final_gpu_issues.uninstall_command;
                       fix_final_gpu_issues.install_command (snd strategy)]).
Proof.
  destruct strategy as [strategy_name install_cmd]. cbn [snd]. intros Hskip.
  unfold fix_final_gpu_issues.try_strategy, subprocess_run. rewrite Hskip.
  run_all; rewrite <- ?app_assoc; auto.
Qed.


Lemma try_strategy_confined (strategy : string * string) :
  confined any_text any_path any_command no_exception
    (fix_final_gpu_issues.try_strategy strategy).
Proof.
  destruct strategy as [strategy_name install_cmd].
  unfold fix_final_gpu_issues.try_strategy. confine; caught.
Qed.

(** A computation that raises nothing returns. *)
Lemma confined_returns {A} P Q C (m : M A) (w : World) :
  confined_at P Q C no_exception m w -> exists a, fst (m w) = Ret a.
Proof.
  intros (t & c & _ & _ & _ & _ & _ & He & _).
  destruct (fst (m w)) as [a | e]; [eauto | destruct (He e eq_refl)].
Qed.

Lemma try_xformers_alternatives_returns (w : World) :
  (forall e, import_torch (host w) = Raise e -> is_ImportError e = true) ->
  exists installed, fst (fix_final_gpu_issues.try_xformers_alternatives w) = Ret installed.
Proof.
  intros Himport. unfold fix_final_gpu_issues.try_xformers_alternatives.
  run_step. destruct (import_torch (host w)) as [torch | e].
  - run_step. destruct (cuda_available torch); run_step; [| eauto].
    match goal with
    | |- context [for_each ?xs ?body ?w1] =>
        destruct (confined_returns any_text any_path any_command (for_each xs body) w1)
          as [r Hr];
        [ apply confined_for_each; intros; apply try_strategy_confined |];
        destruct (for_each xs body w1) as [[r' | e'] w2]
    end; cbn [fst] in Hr; [| discriminate].
    destruct r'; run_step; eauto.
  - run_step. rewrite (Himport e eq_refl). run_step. eauto.
Qed.

(** C7, as amended. An exception that a step's handler names is caught,
    reported and does not stop the steps after it: when a child process can
    fail only by its exit status, [uninstall_current_pytorch] runs the
    uninstall of every package in order and prints a status text for each;
    a strategy of [try_xformers_alternatives] other than the closing [skip]
    never raises and never ends the function with false, so the loop moves
    on after it; and the function returns whenever [import torch] works or
    fails with an [ImportError]. *)
Theorem handled_exception_does_not_stop_steps (w : World) :
  (fails_by_exit_status ->
   fst (fix_pytorch_cuda.uninstall_current_pytorch w) = Ret tt
   /\ procs (snd (fix_pytorch_cuda.uninstall_current_pytorch w))
      = procs w ++ map fix_pytorch_cuda.uninstall_command
                       fix_pytorch_cuda.packages_to_remove
   /\ exists texts,
        out (snd (fix_pytorch_cuda.uninstall_current_pytorch w)) = out w ++ texts
        /\ Forall (fun package =>
                     In (line ("✅ " +:+ package +:+ " uninstalled")) texts
                     \/ In (line ("⚠️  " +:+ package
                                  +:+ " not found or already uninstalled")) texts)
                  fix_pytorch_cuda.packages_to_remove)
  /\
  (forall strategy,
     String.eqb (snd strategy) "skip" = false ->
     fst (fix_final_gpu_issues.try_strategy strategy w) = Ret None
     \/ fst (fix_final_gpu_issues.try_strategy strategy w) = Ret (Some true))
  /\
  ((forall e, import_torch (host w) = Raise e -> is_ImportError e = true) ->
   exists installed,
     fst (fix_final_gpu_issues.try_xformers_alternatives w) = Ret installed).
Proof.
  split; [| split].
  - intros Hspawn. unfold fix_pytorch_cuda.uninstall_current_pytorch.
    cbv beta iota zeta delta [bind print print_end].
    match goal with
    | |- context [for_do _ _ ?w1] =>
        destruct (uninstall_loop fix_pytorch_cuda.packages_to_remove w1 Hspawn)
          as (Hret & Hprocs & texts & Hout & Hall)
    end.
    split; [exact Hret |]. split; [exact Hprocs |].
    exists ([line (nl +:+ "=== Uninstalling Current PyTorch ===")] ++ texts).
    split; [rewrite Hout; cbn [out]; now rewrite <- app_assoc |].
    eapply Forall_impl; [exact Hall |]. cbv beta.
    intros p [Hp | Hp]; [left | right]; now right.
  - intros strategy Hskip. apply try_strategy_outcome, Hskip.
  - apply try_xformers_alternatives_returns.
Qed.

End Steps.

(** C7, as stated, fails on the code: on a host where no process can be
    started, the first uninstall raises an [OSError], which the handler of
    [uninstall_current_pytorch] does not name; the exception leaves the
    function and the two remaining packages are never tried. *)
Lemma uninstall_stops_on_other_exception :
  let w := start locked_down_host ∅ in
  fst (fix_pytorch_cuda.uninstall_current_pytorch w)
  = Raise (OSError "[WinError 5] Access is denied")
  /\ procs (snd (fix_pytorch_cuda.uninstall_current_pytorch w))
     = [["python"; "-m"; "pip"; "uninstall"; "torch"; "-y"]].
Proof. vm_compute. split; reflexivity. Qed.

(** ** Failed attempts and what they leave *)

Lemma installs_never_rolled_back (cmds : list (list string)) :
  Forall install_only cmds -> never_rolled_back cmds.
Proof.
  intros Hall before cmd after -> _.
  apply Forall_app in Hall as [_ Hall]. inversion Hall as [|? ? _ Hafter]; subst.
  eapply Forall_impl; [exact Hafter |]. now intros c [_ Hc].
Qed.

Section Attempts.
Context `{Platform}.

Lemma install_cuda_pytorch_confined :
  confined any_text any_path install_only any_exception
    fix_pytorch_cuda.install_cuda_pytorch.
Proof.
  unfold fix_pytorch_cuda.install_cuda_pytorch,
    fix_pytorch_cuda.install_cuda_pytorch_from,
    fix_pytorch_cuda.try_config, fix_pytorch_cuda.verify_cuda.
  confine; caught; split; reflexivity.
Qed.


End Attempts.


(** ** Ordered attempts *)

Section FirstSuccess.
Context `{Platform}.

(** An attempt that succeeds returns from the loop. *)
Lemma try_config_succeeds (config : fix_pytorch_cuda.cuda_config) (w : World) :
  attempt_succeeds config (host w) = true ->
  exists texts,
    fix_pytorch_cuda.try_config config w
    = (Ret (Some true),
       mkWorld (host_after_install config (host w)) (fs w) (dirs w) (locked w)
         (out w ++ texts) (procs w ++ [fix_pytorch_cuda.install_command config]))
    /\ In (verified_text config) texts.
Proof.
  unfold attempt_succeeds, install_succeeds, cuda_verified, host_after_install.
  intros Hs. unfold fix_pytorch_cuda.try_config, fix_pytorch_cuda.verify_cuda,
    subprocess_run. run_step.
  destruct (spawn (fix_pytorch_cuda.install_command config) (host w))
    as [[rc so se | e] h'] eqn:Es; cbn [fst snd andb] in *; [| discriminate Hs].
  apply andb_prop in Hs as [Hrc Hv]. rewrite Hrc. run_step.
  destruct (import_torch h') as [torch | e]; [| discriminate Hv].
  apply andb_prop in Hv as [Hc Ht]. run_step. rewrite Hc.
  destruct (tensor_op torch "verify_cuda") as [[] | e]; [| discriminate Ht].
  run_step. eexists. split; [rewrite <- !app_assoc; reflexivity |].
  cbn [app In]. unfold verified_text, line. auto.
Qed.

(** An attempt that fails in a handled way goes on to the next one. *)
Lemma try_config_fails (config : fix_pytorch_cuda.cuda_config) (w : World) :
  attempt_fails config (host w) = true ->
  exists texts,
    fix_pytorch_cuda.try_config config w
    = (Ret None,
       mkWorld (host_after_install config (host w)) (fs w) (dirs w) (locked w)
         (out w ++ texts) (procs w ++ [fix_pytorch_cuda.install_command config])).
Proof.
  unfold attempt_fails, install_fails, install_succeeds, cuda_verified,
    host_after_install.
  intros Hs. unfold fix_pytorch_cuda.try_config, fix_pytorch_cuda.verify_cuda,
    subprocess_run. run_step.
  destruct (spawn (fix_pytorch_cuda.install_command config) (host w))
    as [[rc so se | e] h'] eqn:Es; cbn [fst snd andb orb] in *.
  - destruct (rc =? 0); cbn [negb andb orb] in *; run_step.
    + destruct (import_torch h') as [torch | e]; run_step.
      * destruct (cuda_available torch); cbn [andb negb] in *; run_step.
        -- destruct (tensor_op torch "verify_cuda") as [[] | e];
             [discriminate Hs |].
           run_step. eexists. rewrite <- !app_assoc. reflexivity.
        -- eexists. rewrite <- !app_assoc. reflexivity.
      * eexists. rewrite <- !app_assoc. reflexivity.
    + cbn [is_CalledProcessError]. run_step.
      eexists. rewrite <- !app_assoc. reflexivity.
  - rewrite orb_false_r in Hs. run_step. rewrite Hs. run_step.
    eexists. rewrite <- !app_assoc. reflexivity.
Qed.

(** The loop over a list whose first attempts fail and whose next one
    succeeds. *)
Lemma install_from_first_success
    (before : list fix_pytorch_cuda.cuda_config)
    (config : fix_pytorch_cuda.cuda_config)
    (after : list fix_pytorch_cuda.cuda_config) (w : World) :
  attempts_fail before (host w) = true ->
  attempt_succeeds config (host_after_attempts before (host w)) = true ->
  exists texts,
    fix_pytorch_cuda.install_cuda_pytorch_from (before ++ config :: after) w
    = (Ret true,
       mkWorld (host_after_install config (host_after_attempts before (host w)))
         (fs w) (dirs w) (locked w) (out w ++ texts)
         (procs w ++ map fix_pytorch_cuda.install_command (before ++ [config])))
    /\ In (verified_text config) texts.
Proof.
  unfold fix_pytorch_cuda.install_cuda_pytorch_from.
  revert w. induction before as [|c before IH]; intros w Hfail Hok.
  - cbn [app for_each map host_after_attempts] in *. unfold bind at 1 2.
    destruct (try_config_succeeds config w Hok) as (texts & -> & Hin).
    run_step. eauto.
  - cbn [app for_each map host_after_attempts attempts_fail] in *.
    apply andb_prop in Hfail as [Hc Hfail]. unfold bind at 1 2.
    destruct (try_config_fails c w Hc) as (t1 & ->).
    match goal with
    | |- context [for_each _ _ ?w1] =>
        destruct (IH w1 Hfail Hok) as (t2 & Hrun & Hin)
    end.
    unfold bind at 1 in Hrun. cbn [host fs dirs locked out procs] in Hrun.
    rewrite Hrun. exists (t1 ++ t2). rewrite <- !app_assoc. cbn [app].
    split; [reflexivity | apply in_or_app; now right].
Qed.

(** The loop over a list of attempts that all fail. *)
Lemma install_from_exhausted
    (configs : list fix_pytorch_cuda.cuda_config) (w : World) :
  attempts_fail configs (host w) = true ->
  exists texts,
    fix_pytorch_cuda.install_cuda_pytorch_from configs w
    = (Ret false,
       mkWorld (host_after_attempts configs (host w))
         (fs w) (dirs w) (locked w) (out w ++ texts)
         (procs w ++ map fix_pytorch_cuda.install_command configs)).
Proof.
  unfold fix_pytorch_cuda.install_cuda_pytorch_from.
  revert w. induction configs as [|c configs IH]; intros w Hfail.
  - cbn [for_each map host_after_attempts]. run_step. exists [].
    rewrite !app_nil_r. now destruct w.
  - cbn [for_each map host_after_attempts attempts_fail] in *.
    apply andb_prop in Hfail as [Hc Hfail]. unfold bind at 1 2.
    destruct (try_config_fails c w Hc) as (t1 & ->).
    match goal with
    | |- context [for_each _ _ ?w1] => destruct (IH w1 Hfail) as (t2 & Hrun)
    end.
    unfold bind at 1 in Hrun. cbn [host fs dirs locked out procs] in Hrun.
    rewrite Hrun. exists (t1 ++ t2). rewrite <- !app_assoc. reflexivity.
Qed.

End FirstSuccess.

(** ** What a computation prints, in order *)

Section Printing.
Context `{Platform}.
Variable P : string -> Prop.

(** A computation that raises nothing returns; it may print anything it is
    confined to. *)
Lemma returns_printing_confined {A} Q C (m : M A) (w : World) :
  confined_at P Q C no_exception m w -> returns_printing P [] m w.
Proof.
  intros (t & c & Ho & Hp & _ & _ & _ & He & _).
  destruct (fst (m w)) as [a | e] eqn:Em; [| destruct (He e eq_refl)].
  exists a, t. repeat split; auto. apply sublist_nil_l.
Qed.

(** The same for a computation known to return. *)
Lemma returns_printing_returned {A} Q C E (m : M A) (w : World) (a : A) :
  confined_at P Q C E m w -> fst (m w) = Ret a -> returns_printing P [] m w.
Proof.
  intros (t & c & Ho & Hp & _) Hr.
  exists a, t. repeat split; auto. apply sublist_nil_l.
Qed.

Lemma returns_printing_bind {A B} (l1 l2 : list string) (m : M A) (k : A -> M B)
    (w : World) :
  returns_printing P l1 m w ->
  (forall a w1, m w = (Ret a, w1) -> returns_printing P l2 (k a) w1) ->
  returns_printing P (l1 ++ l2) (bind m k) w.
Proof.
  intros (a & t1 & Hr & Ho & Hp & Hs) Hk. unfold returns_printing, bind.
  destruct (m w) as [r w1] eqn:Em. cbn [fst snd] in *. subst r.
  destruct (Hk a w1 eq_refl) as (b & t2 & Hr2 & Ho2 & Hp2 & Hs2).
  exists b, (t1 ++ t2). rewrite Ho2, Ho, app_assoc.
  repeat split; auto using Forall_app_2, sublist_app.
Qed.

(** A step that need not print any of the wanted texts. *)
Lemma returns_printing_skip {A B} (l : list string) (m : M A) (k : A -> M B)
    (w : World) :
  returns_printing P [] m w ->
  (forall a w1, m w = (Ret a, w1) -> returns_printing P l (k a) w1) ->
  returns_printing P l (bind m k) w.
Proof. apply (returns_printing_bind [] l). Qed.

Lemma returns_printing_print (text : string) (w : World) :
  P (line text) -> returns_printing P [line text] (print text) w.
Proof.
  intros Hp. exists tt, [line text]. unfold print, print_end, line.
  cbn [fst snd out]. repeat split; auto.
Qed.

(** A wanted text printed now. *)
Lemma returns_printing_now {B} (text : string) (l : list string)
    (k : unit -> M B) (w : World) :
  P (line text) ->
  returns_printing P l (k tt) (with_out w (out w ++ [line text])) ->
  returns_printing P (line text :: l) (bind (print text) k) w.
Proof.
  intros Hp Hk. apply (returns_printing_bind [line text] l).
  - now apply returns_printing_print.
  - intros [] w1 [= <-]. exact Hk.
Qed.

(** A text printed now that is not among the wanted ones. *)
Lemma returns_printing_then {B} (text : string) (l : list string)
    (k : unit -> M B) (w : World) :
  P (line text) ->
  returns_printing P l (k tt) (with_out w (out w ++ [line text])) ->
  returns_printing P l (bind (print text) k) w.
Proof.
  intros Hp Hk. apply (returns_printing_bind [] l).
  - exists tt, [line text]. unfold print, print_end, line.
    cbn [fst snd out]. repeat split; auto. apply sublist_nil_l.
  - intros [] w1 [= <-]. exact Hk.
Qed.

Lemma returns_printing_ret {A} (a : A) (w : World) :
  returns_printing P [] (ret a) w.
Proof.
  exists a, []. unfold ret. cbn [fst snd]. rewrite app_nil_r.
  repeat split; auto. 
Qed.

Lemma returns_printing_result {A} (l : list string) (m : M A) (w : World) :
  returns_printing P l m w ->
  (exists a, fst (m w) = Ret a)
  /\ exists texts, out (snd (m w)) = out w ++ texts
                   /\ Forall P texts
                   /\ Forall (fun text => In text texts) l.
Proof.
  intros (a & texts & Hr & Ho & Hp & Hs). split; [eauto |].
  exists texts. repeat split; auto.
  apply Forall_forall. intros text Hin. apply list_elem_of_In.
  eapply sublist_submseteq, elem_of_submseteq in Hs; [exact Hs |]. exact Hin.
Qed.

End Printing.

Lemma confined_at_any_text `{Platform} P Q C E {A} (m : M A) (w : World) :
  confined_at P Q C E m w -> confined_at any_text Q C E m w.
Proof.
  intros (t & c & Ho & Hp & Hrest). exists t, c.
  split; [exact Ho |]. split; [| exact Hrest].
  apply Forall_forall. intros; exact I.
Qed.

(** Fewer demands on the texts. *)
Lemma returns_printing_weaken `{Platform} (P P' : string -> Prop) {A}
    (l : list string) (m : M A) (w : World) :
  (forall text, P text -> P' text) ->
  returns_printing P l m w -> returns_printing P' l m w.
Proof.
  intros Himp (a & texts & Hr & Ho & Hp & Hs).
  exists a, texts. repeat split; auto. eapply Forall_impl; eauto.
Qed.

(** A computation confined in every world is confined in this one. *)
Ltac in_every_world :=
  cbv beta;
  match goal with
  | |- confined_at ?P ?Q ?C ?E ?m ?w =>
      let Hc := fresh "Hc" in
      cut (confined P Q C E m); [intros Hc; apply Hc |]
  end.

Section Strategies.
Context `{Platform}.

Lemma try_install_compatible_openclip_confined :
  confined no_strategy_2 any_path any_command any_exception
    fix_sgm_openclip.try_install_compatible_openclip.
Proof.
  unfold fix_sgm_openclip.try_install_compatible_openclip,
    fix_sgm_openclip.try_version.
  confine; caught; split; reflexivity.
Qed.

Lemma patch_sgm_imports_prints (w : World) :
  returns_printing no_strategy_2
    [line (nl +:+ "=== Patching SGM Repository Imports ===")]
    fix_sgm_openclip.patch_sgm_imports w.
Proof.
  unfold fix_sgm_openclip.patch_sgm_imports.
  apply returns_printing_now; [split; reflexivity |].
  eapply returns_printing_confined with (Q := any_path) (C := any_command).
  in_every_world. confine; caught; split; reflexivity.
Qed.

Lemma update_webui_config_for_openclip_prints (w : World) :
  returns_printing no_strategy_2
    [line (nl +:+ "=== Updating WebUI Configuration ===")]
    fix_sgm_openclip.update_webui_config_for_openclip w.
Proof.
  unfold fix_sgm_openclip.update_webui_config_for_openclip.
  apply returns_printing_now; [split; reflexivity |].
  eapply returns_printing_confined with (Q := any_path) (C := any_command).
  in_every_world. confine; caught; split; reflexivity.
Qed.

Lemma sgm_closing_confined :
  confined no_strategy_2 any_path any_command no_exception
    (openclip_works ← fix_sgm_openclip.test_openclip_import;
     fix_sgm_openclip.fix_summary openclip_works).
Proof.
  unfold fix_sgm_openclip.test_openclip_import, fix_sgm_openclip.fix_summary.
  confine; caught; split; reflexivity.
Qed.

Lemma create_mock_openclip_prints (w : World) :
  returns_printing any_text [mock_banner] fix_sgm_openclip.create_mock_openclip w.
Proof.
  unfold fix_sgm_openclip.create_mock_openclip.
  apply returns_printing_now; [exact I |].
  eapply returns_printing_confined with (Q := any_path) (C := any_command).
  in_every_world. confine; caught.
Qed.

(** What [fix_sgm_openclip.main] does after Strategy 2, whatever came
    before. *)
Lemma sgm_strategies_3_and_4 (w : World) :
  returns_printing no_strategy_2
    [ line (nl +:+ "🔄 Strategy 3: Patch SGM repository");
      line (nl +:+ "=== Patching SGM Repository Imports ===");
      line (nl +:+ "🔄 Strategy 4: Update WebUI configuration");
      line (nl +:+ "=== Updating WebUI Configuration ===") ]
    (print (nl +:+ "🔄 Strategy 3: Patch SGM repository");;
     fix_sgm_openclip.patch_sgm_imports;;
     print (nl +:+ "🔄 Strategy 4: Update WebUI configuration");;
     fix_sgm_openclip.update_webui_config_for_openclip;;
     openclip_works ← fix_sgm_openclip.test_openclip_import;
     fix_sgm_openclip.fix_summary openclip_works) w.
Proof.
  apply returns_printing_now; [split; reflexivity |].
  apply (returns_printing_bind _
           [line (nl +:+ "=== Patching SGM Repository Imports ===")]
           [line (nl +:+ "🔄 Strategy 4: Update WebUI configuration");
            line (nl +:+ "=== Updating WebUI Configuration ===")]);
    [apply patch_sgm_imports_prints |].
  intros _ w1 _.
  apply returns_printing_now; [split; reflexivity |].
  apply (returns_printing_bind _
           [line (nl +:+ "=== Updating WebUI Configuration ===")] []);
    [apply update_webui_config_for_openclip_prints |].
  intros _ w2 _.
  eapply returns_printing_confined with (Q := any_path) (C := any_command).
  apply sgm_closing_confined.
Qed.

Lemma sgm_main_opening_confined :
  confined no_strategy_2 any_path any_command no_exception
    (print "SGM open_clip Fix for Python 3.13";;
     print (str_mul "=" 50);;
     print "🔄 Strategy 1: Install compatible open_clip").
Proof. confine; split; reflexivity. Qed.

End Strategies.

Section OrderedAttempts.
Context `{Platform}.

Lemma sublist_In {A} (l texts : list A) (x : A) :
  sublist l texts -> In x l -> In x texts.
Proof.
  intros Hs Hin. apply list_elem_of_In.
  eapply elem_of_submseteq; [apply list_elem_of_In, Hin |].
  now apply sublist_submseteq.
Qed.

Lemma not_starting_not_In (prefix text : string) (texts : list string) :
  Forall (not_starting prefix) texts -> startswith prefix text = true ->
  ~ In text texts.
Proof.
  intros Hall Hs. eapply Forall_not_In; [exact Hall |].
  unfold not_starting. congruence.
Qed.

(** [fix_sgm_openclip.main] once Strategy 1 has returned. *)
Lemma sgm_main_after_strategy_1 (installed : bool) (w : World) :
  fst (fix_sgm_openclip.try_install_compatible_openclip w) = Ret installed ->
  returns_printing (if installed then no_strategy_2 else any_text)
    ((if installed
      then [line "✅ Strategy 1 successful!"]
      else [strategy_2_banner; mock_banner])
     ++ [ line (nl +:+ "🔄 Strategy 3: Patch SGM repository");
          line (nl +:+ "=== Patching SGM Repository Imports ===");
          line (nl +:+ "🔄 Strategy 4: Update WebUI configuration");
          line (nl +:+ "=== Updating WebUI Configuration ===") ])
    fix_sgm_openclip.main w.
Proof.
  intros Hinst.
  assert (Hrun : forall t,
             fst (fix_sgm_openclip.try_install_compatible_openclip (with_out w t))
             = Ret installed).
  { intros t.
    rewrite (confined_at_result _ _ _ _ _ w
               (try_install_compatible_openclip_confined w)).
    exact Hinst. }
  unfold fix_sgm_openclip.main.
  destruct installed.
  - do 3 (apply returns_printing_then; [split; reflexivity |]).
    rewrite !with_out_with_out.
    apply returns_printing_skip.
    { eapply returns_printing_returned;
        [apply try_install_compatible_openclip_confined | apply Hrun]. }
    intros a w1 E1. assert (a = true) as ->.
    { apply (f_equal fst) in E1. rewrite Hrun in E1. cbn [fst] in E1. congruence. }
    apply returns_printing_bind.
    { apply returns_printing_now; [split; reflexivity | apply returns_printing_ret]. }
    intros success w2 E2. assert (success = true) as ->.
    { unfold bind, print, print_end, ret in E2. congruence. }
    cbn [negb].
    apply returns_printing_skip; [apply returns_printing_ret |].
    intros _ w3 _. apply sgm_strategies_3_and_4.
  - do 3 (apply returns_printing_then; [exact I |]).
    rewrite !with_out_with_out.
    apply returns_printing_skip.
    { eapply returns_printing_returned;
        [| apply Hrun].
      eapply confined_at_any_text, try_install_compatible_openclip_confined. }
    intros a w1 E1. assert (a = false) as ->.
    { apply (f_equal fst) in E1. rewrite Hrun in E1. cbn [fst] in E1. congruence. }
    apply returns_printing_skip; [apply returns_printing_ret |].
    intros success w2 E2. assert (success = false) as ->.
    { unfold ret in E2. congruence. }
    cbn [negb].
    apply returns_printing_bind.
    { apply returns_printing_now; [exact I |].
      apply (returns_printing_bind _ [mock_banner] []);
        [apply create_mock_openclip_prints |].
      intros mocked w3 _.
      eapply returns_printing_confined with (Q := any_path) (C := any_command).
      in_every_world. destruct mocked; confine; exact I. }
    intros _ w3 _.
    eapply returns_printing_weaken; [| apply sgm_strategies_3_and_4].
    intros; exact I.
Qed.

End OrderedAttempts.

Section FirstVerifiedSuccess.
Context `{Platform}.

(** C1, as amended. [install_cuda_pytorch] tries the [cuda_configs] in
    list order and stops at the first one whose install and CUDA
    verification both succeed: it returns true, reports that config, and
    the commands it ran are the installs up to that config and no later
    one; when every attempt fails in a handled way it returns false after
    all the installs.  [fix_sgm_openclip.main] is no such loop: once
    Strategy 1 has returned, Strategy 2 and its effect run exactly when
    Strategy 1 gave false, while Strategies 3 and 4 and their effects
    ([patch_sgm_imports], [update_webui_config_for_openclip]) run in this
    order whatever Strategies 1 and 2 gave. *)
Theorem attempts_stop_at_first_success (w : World) :
  (forall before config after,
     fix_pytorch_cuda.cuda_configs = before ++ config :: after ->
     attempts_fail before (host w) = true ->
     attempt_succeeds config (host_after_attempts before (host w)) = true ->
     fst (fix_pytorch_cuda.install_cuda_pytorch w) = Ret true
     /\ procs (snd (fix_pytorch_cuda.install_cuda_pytorch w))
        = procs w ++ map fix_pytorch_cuda.install_command (before ++ [config])
     /\ exists texts,
          out (snd (fix_pytorch_cuda.install_cuda_pytorch w)) = out w ++ texts
          /\ In (verified_text config) texts)
  /\
  (attempts_fail fix_pytorch_cuda.cuda_configs (host w) = true ->
     fst (fix_pytorch_cuda.install_cuda_pytorch w) = Ret false
     /\ procs (snd (fix_pytorch_cuda.install_cuda_pytorch w))
        = procs w ++ map fix_pytorch_cuda.install_command fix_pytorch_cuda.cuda_configs)
  /\
  (forall installed,
     fst (fix_sgm_openclip.try_install_compatible_openclip w) = Ret installed ->
     fst (fix_sgm_openclip.main w) = Ret tt
     /\ exists texts,
          out (snd (fix_sgm_openclip.main w)) = out w ++ texts
          /\ sublist
               [ line (nl +:+ "🔄 Strategy 3: Patch SGM repository");
                 line (nl +:+ "=== Patching SGM Repository Imports ===");
                 line (nl +:+ "🔄 Strategy 4: Update WebUI configuration");
                 line (nl +:+ "=== Updating WebUI Configuration ===") ] texts
          /\ if installed
             then In (line "✅ Strategy 1 successful!") texts
                  /\ ~ In strategy_2_banner texts /\ ~ In mock_banner texts
             else In strategy_2_banner texts /\ In mock_banner texts).
Proof.
  split; [| split].
  - intros before config after Hconfigs Hfail Hok.
    unfold fix_pytorch_cuda.install_cuda_pytorch, bind, print, print_end.
    rewrite Hconfigs.
    match goal with
    | |- context [fix_pytorch_cuda.install_cuda_pytorch_from _ ?w0] =>
        destruct (install_from_first_success before config after w0 Hfail Hok)
          as (texts & -> & Hin)
    end.
    cbn [fst snd procs out]. split; [reflexivity |]. split; [reflexivity |].
    eexists. split; [rewrite <- app_assoc; reflexivity |].
    apply in_or_app. now right.
  - intros Hfail.
    unfold fix_pytorch_cuda.install_cuda_pytorch, bind, print, print_end.
    match goal with
    | |- context [fix_pytorch_cuda.install_cuda_pytorch_from _ ?w0] =>
        destruct (install_from_exhausted fix_pytorch_cuda.cuda_configs w0 Hfail)
          as (texts & ->)
    end.
    cbn [fst snd procs]. split; reflexivity.
  - intros installed Hinst.
    destruct (sgm_main_after_strategy_1 installed w Hinst)
      as ([] & texts & Hr & Ho & Hp & Hs).
    split; [exact Hr |]. exists texts. split; [exact Ho |]. split.
    + etrans; [| exact Hs]. now apply sublist_inserts_l.
    + destruct installed.
      * split; [eapply sublist_In; [exact Hs |]; now left |].
        split.
        -- apply (not_starting_not_In (nl +:+ "🔄 Strategy 2")); [| reflexivity].
           eapply Forall_impl; [exact Hp |]. now intros text [H1 H2].
        -- apply (not_starting_not_In (nl +:+ "=== Creating Mock")); [| reflexivity].
           eapply Forall_impl; [exact Hp |]. now intros text [H1 H2].
      * split; (eapply sublist_In; [exact Hs |]); cbn [app In]; auto.
Qed.

End FirstVerifiedSuccess.

(** C1, as stated, fails on [fix_sgm_openclip.main]: on a host where pip
    installs [open_clip] at the first try, Strategy 1 succeeds and the
    effect of Strategy 3 runs all the same, rewriting the encoder module of
    the SGM repository. *)
Lemma sgm_patched_after_successful_strategy :
  let w := start openclip_installable_host tree_with_sgm in
  let w' := snd (fix_sgm_openclip.main w) in
  fst (fix_sgm_openclip.try_install_compatible_openclip w) = Ret true
  /\ fst (fix_sgm_openclip.main w) = Ret tt
  /\ In (line "✅ Strategy 1 successful!") (out w')
  /\ In (line "✅ Patched open_clip import in SGM") (out w')
  /\ fs w !! fix_sgm_openclip.sgm_encoder_file = Some sgm_modules_py
  /\ fs w' !! fix_sgm_openclip.sgm_encoder_file
     = Some (str_replace fix_sgm_openclip.old_import fix_sgm_openclip.new_import
               sgm_modules_py)
  /\ fs w' !! fix_sgm_openclip.sgm_encoder_file
     <> fs w !! fix_sgm_openclip.sgm_encoder_file.
Proof.
  vm_compute. repeat split; auto 20. discriminate.
Qed.

(** ** Computations that only look and print *)

Section Readers.
Context `{Platform}.

Lemma prints_only_read_world {A} (f : World -> res A) : prints_only (read_world f).
Proof. intros w. exists []. unfold read_world. cbn [snd]. rewrite app_nil_r. now destruct w. Qed.

Lemma prints_only_ret {A} (a : A) : prints_only (ret a).
Proof. intros w. exists []. unfold ret. cbn [snd]. rewrite app_nil_r. now destruct w. Qed.

Lemma prints_only_raise {A} (e : exn) : prints_only (@raise _ A e).
Proof. intros w. exists []. unfold raise. cbn [snd]. rewrite app_nil_r. now destruct w. Qed.

Lemma prints_only_print (text : string) : prints_only (print text).
Proof. intros w. now exists [line text]. Qed.

Lemma prints_only_json_load (text : string) : prints_only (json_load text).
Proof.
  unfold json_load. destruct (json_loads text);
    [apply prints_only_ret | apply prints_only_raise].
Qed.

Lemma prints_only_py_get (v : json) (k : string) (d : json) :
  prints_only (py_get v k d).
Proof.
  destruct v; cbn [py_get]; first [apply prints_only_ret | apply prints_only_raise].
Qed.

Lemma prints_only_bind {A B} (m : M A) (k : A -> M B) :
  prints_only m -> (forall a, prints_only (k a)) -> prints_only (bind m k).
Proof.
  intros Hm Hk w. unfold bind. destruct (Hm w) as (t1 & E1).
  destruct (m w) as [[a | e] w1]; cbn [snd] in *; subst w1.
  - destruct (Hk a (with_out w (out w ++ t1))) as (t2 & E2).
    exists (t1 ++ t2). rewrite E2. cbn [out with_out]. now rewrite app_assoc.
  - now exists t1.
Qed.

Lemma prints_only_try_except {A} (body : M A) (catches : exn -> bool)
    (handler : exn -> M A) :
  prints_only body -> (forall e, prints_only (handler e)) ->
  prints_only (try_except body catches handler).
Proof.
  intros Hm Hk w. unfold try_except. destruct (Hm w) as (t1 & E1).
  destruct (body w) as [[a | e] w1]; cbn [snd] in *; subst w1.
  - now exists t1.
  - destruct (catches e); [| now exists t1].
    destruct (Hk e (with_out w (out w ++ t1))) as (t2 & E2).
    exists (t1 ++ t2). rewrite E2. cbn [out with_out]. now rewrite app_assoc.
Qed.

Lemma prints_only_for_do {X} (xs : list X) (body : X -> M unit) :
  (forall x, prints_only (body x)) -> prints_only (for_do xs body).
Proof.
  intros Hb. induction xs as [|x xs IH]; cbn [for_do].
  - apply prints_only_ret.
  - apply prints_only_bind; [apply Hb | intros _; exact IH].
Qed.

(** The world such a computation leaves. *)
Lemma prints_only_world {A} (m : M A) (w w1 : World) (r : res A) :
  prints_only m -> m w = (r, w1) -> exists texts, w1 = with_out w (out w ++ texts).
Proof. intros Hm E. destruct (Hm w) as (t & Ht). rewrite E in Ht. eauto. Qed.

End Readers.

Ltac only_prints_step :=
  lazymatch goal with
  | |- prints_only (ret _) => apply prints_only_ret
  | |- prints_only (raise _) => apply prints_only_raise
  | |- prints_only (read_world _) => apply prints_only_read_world
  | |- prints_only (path_exists _) => apply prints_only_read_world
  | |- prints_only (read_file _) => apply prints_only_read_world
  | |- prints_only (json_load _) => apply prints_only_json_load
  | |- prints_only (py_get _ _ _) => apply prints_only_py_get
  | |- prints_only (print _) => apply prints_only_print
  | |- prints_only (bind _ _) => apply prints_only_bind; [| intros ?]
  | |- prints_only (try_except _ _ _) => apply prints_only_try_except; [| intros ?]
  | |- prints_only (for_do _ _) => apply prints_only_for_do; intros ?
  | |- prints_only (if ?b then _ else _) => destruct b
  | |- prints_only (match ?x with _ => _ end) => destruct x
  end.

Ltac only_prints := repeat only_prints_step.

Section Summaries.
Context `{Platform}.

Lemma bind_assoc {A B D} (m : M A) (k : A -> M B) (k' : B -> M D) (w : World) :
  bind (bind m k) k' w = bind m (fun a => bind (k a) k') w.
Proof. unfold bind. now destruct (m w) as [[a | e] w1]. Qed.

Lemma returns_printing_assoc P (l : list string) {A B D}
    (m : M A) (k : A -> M B) (k' : B -> M D) (w : World) :
  returns_printing P l (bind m (fun a => bind (k a) k')) w ->
  returns_printing P l (bind (bind m k) k') w.
Proof. unfold returns_printing. now rewrite bind_assoc. Qed.

Lemma check_current_vae_config_prints_only :
  prints_only fix_grey_images.check_current_vae_config.
Proof. unfold fix_grey_images.check_current_vae_config. only_prints. Qed.

Lemma check_available_vaes_prints_only :
  prints_only fix_grey_images.check_available_vaes.
Proof. unfold fix_grey_images.check_available_vaes. only_prints. Qed.

Lemma check_current_vae_config_quiet :
  confined no_summary any_path any_command no_exception
    fix_grey_images.check_current_vae_config.
Proof.
  unfold fix_grey_images.check_current_vae_config.
  confine; caught; reflexivity.
Qed.

Lemma check_available_vaes_quiet :
  confined no_summary any_path any_command no_exception
    fix_grey_images.check_available_vaes.
Proof.
  unfold fix_grey_images.check_available_vaes.
  confine; caught; try reflexivity; discriminate.
Qed.

Lemma download_recommended_vae_quiet :
  confined no_summary any_path any_command any_exception
    fix_grey_images.download_recommended_vae.
Proof.
  unfold fix_grey_images.download_recommended_vae.
  confine; caught; reflexivity.
Qed.

(** What [fix_grey_images.main] does with the VAE it settled on. *)
Lemma grey_main_closing (vae_configured : bool) (vae_name : string) (w : World) :
  returns_printing any_text [summary_banner]
    ((if negb vae_configured
      then fix_grey_images.configure_vae_in_ui_config vae_name;; ret tt
      else ret tt);;
     fix_grey_images.create_vae_fix_launch_script;;
     fix_grey_images.test_vae_configuration;;
     fix_grey_images.summary vae_name) w.
Proof.
  apply returns_printing_skip.
  { eapply returns_printing_confined with (Q := any_path) (C := any_command).
    in_every_world. unfold fix_grey_images.configure_vae_in_ui_config.
    confine; caught. }
  intros _ w1 _. apply returns_printing_skip.
  { eapply returns_printing_confined with (Q := any_path) (C := any_command).
    in_every_world. unfold fix_grey_images.create_vae_fix_launch_script.
    confine; caught. }
  intros _ w2 _. apply returns_printing_skip.
  { eapply returns_printing_confined with (Q := any_path) (C := any_command).
    in_every_world. unfold fix_grey_images.test_vae_configuration.
    confine; caught. }
  intros _ w3 _. unfold fix_grey_images.summary, summary_banner.
  apply returns_printing_then; [exact I |].
  apply returns_printing_now; [exact I |].
  eapply returns_printing_confined with (Q := any_path) (C := any_command).
  in_every_world. confine; exact I.
Qed.

(** [fix_grey_images.main] when a VAE file is there. *)
Lemma grey_main_with_vae (first : string) (rest : list string) (w : World) :
  fst (fix_grey_images.check_available_vaes w) = Ret (first :: rest) ->
  returns_printing any_text [summary_banner] fix_grey_images.main w.
Proof.
  intros Hav.
  assert (Hrun : forall t,
             fst (fix_grey_images.check_available_vaes (with_out w t))
             = Ret (first :: rest)).
  { intros t.
    rewrite (confined_at_result _ _ _ _ _ w (check_available_vaes_quiet w)).
    exact Hav. }
  unfold fix_grey_images.main.
  do 2 (apply returns_printing_then; [exact I |]).
  rewrite !with_out_with_out.
  apply returns_printing_skip.
  { eapply returns_printing_confined, confined_at_any_text,
      check_current_vae_config_quiet. }
  intros vae_configured w1 E1.
  destruct (prints_only_world _ _ _ _ check_current_vae_config_prints_only E1)
    as (t1 & ->).
  rewrite !with_out_with_out.
  apply returns_printing_skip.
  { eapply returns_printing_returned;
      [eapply confined_at_any_text, check_available_vaes_quiet | apply Hrun]. }
  intros available_vaes w2 E2. assert (available_vaes = first :: rest) as ->.
  { apply (f_equal fst) in E2. rewrite Hrun in E2. cbn [fst] in E2. congruence. }
  unfold fix_grey_images.choose_vae.
  apply returns_printing_assoc.
  apply returns_printing_then; [exact I |].
  apply returns_printing_skip; [apply returns_printing_ret |].
  intros chosen w3 E3. assert (chosen = Some (path_name first)) as ->.
  { unfold ret in E3. congruence. }
  apply grey_main_closing.
Qed.

(** [fix_grey_images.main] when no VAE file is there and the download
    fails in a way that [download_recommended_vae] handles. *)
Lemma grey_main_without_vae (w : World) :
  fst (fix_grey_images.check_available_vaes w) = Ret [] ->
  fst (fix_grey_images.download_recommended_vae w) = Ret None ->
  returns_printing no_summary
    [line "❌ Failed to download VAE. Please download manually."]
    fix_grey_images.main w.
Proof.
  intros Hav Hdl.
  assert (Hrun : forall t,
             fst (fix_grey_images.check_available_vaes (with_out w t)) = Ret []).
  { intros t.
    rewrite (confined_at_result _ _ _ _ _ w (check_available_vaes_quiet w)).
    exact Hav. }
  assert (Hrun' : forall t,
             fst (fix_grey_images.download_recommended_vae (with_out w t))
             = Ret None).
  { intros t.
    rewrite (confined_at_result _ _ _ _ _ w (download_recommended_vae_quiet w)).
    exact Hdl. }
  unfold fix_grey_images.main.
  do 2 (apply returns_printing_then; [reflexivity |]).
  rewrite !with_out_with_out.
  apply returns_printing_skip.
  { eapply returns_printing_confined, check_current_vae_config_quiet. }
  intros vae_configured w1 E1.
  destruct (prints_only_world _ _ _ _ check_current_vae_config_prints_only E1)
    as (t1 & ->).
  rewrite !with_out_with_out.
  apply returns_printing_skip.
  { eapply returns_printing_returned;
      [apply check_available_vaes_quiet | apply Hrun]. }
  intros available_vaes w2 E2. assert (available_vaes = []) as ->.
  { apply (f_equal fst) in E2. rewrite Hrun in E2. cbn [fst] in E2. congruence. }
  destruct (prints_only_world _ _ _ _ check_available_vaes_prints_only E2)
    as (t2 & ->).
  rewrite !with_out_with_out.
  unfold fix_grey_images.choose_vae.
  apply returns_printing_assoc.
  apply returns_printing_then; [reflexivity |].
  rewrite !with_out_with_out.
  apply returns_printing_assoc.
  apply returns_printing_skip.
  { eapply returns_printing_returned;
      [apply download_recommended_vae_quiet | apply Hrun']. }
  intros downloaded w3 E3. assert (downloaded = None) as ->.
  { apply (f_equal fst) in E3. rewrite Hrun' in E3. cbn [fst] in E3. congruence. }
  apply returns_printing_assoc.
  apply returns_printing_now; [reflexivity |].
  apply returns_printing_skip; [apply returns_printing_ret |].
  intros chosen w4 E4. assert (chosen = None) as ->.
  { unfold ret in E4. congruence. }
  apply returns_printing_ret.
Qed.

End Summaries.

Section FixProcess.
Context `{Platform}.
Hypothesis Hfail : fails_by_exit_status.

Lemma uninstall_current_pytorch_returns :
  confined any_text any_path any_command no_exception
    fix_pytorch_cuda.uninstall_current_pytorch.
Proof.
  unfold fix_pytorch_cuda.uninstall_current_pytorch,
    fix_pytorch_cuda.uninstall_package.
  confine; try (intros; left; eapply Hfail; eassumption); caught.
Qed.

Lemma install_cuda_pytorch_returns :
  confined any_text any_path any_command no_exception
    fix_pytorch_cuda.install_cuda_pytorch.
Proof.
  unfold fix_pytorch_cuda.install_cuda_pytorch,
    fix_pytorch_cuda.install_cuda_pytorch_from,
    fix_pytorch_cuda.try_config, fix_pytorch_cuda.verify_cuda.
  confine; try (intros; left; eapply Hfail; eassumption); caught.
Qed.

(** The fix of [fix_pytorch_cuda.main] ends with its closing block,
    whatever the installs gave. *)
Lemma fix_process_closes (w : World) :
  returns_printing any_text
    [line (nl +:+ "🔧 CUDA not available. Starting fix process...");
     line "Next steps:"]
    fix_pytorch_cuda.fix_process w.
Proof.
  unfold fix_pytorch_cuda.fix_process.
  apply returns_printing_now; [exact I |].
  apply returns_printing_skip.
  { eapply returns_printing_confined, uninstall_current_pytorch_returns. }
  intros _ w1 _. apply returns_printing_skip.
  { eapply returns_printing_confined, install_cuda_pytorch_returns. }
  intros success w2 _. apply returns_printing_skip.
  { eapply returns_printing_confined with (Q := any_path) (C := any_command).
    in_every_world.
    unfold fix_pytorch_cuda.test_installation, fix_pytorch_cuda.update_webui_config.
    confine; caught. }
  intros _ w3 _. unfold fix_pytorch_cuda.next_steps.
  apply returns_printing_then; [exact I |].
  apply returns_printing_now; [exact I |].
  eapply returns_printing_confined with (Q := any_path) (C := any_command).
  in_every_world. confine; exact I.
Qed.

End FixProcess.

Section MainReturns.
Context `{Platform}.

Lemma exit_status_returns (m : M unit) (w : World) (a : unit) :
  fst (m w) = Ret a -> exit_status m w = 0.
Proof. unfold exit_status. destruct (m w) as [[u | e] w1]; [reflexivity | discriminate]. Qed.

(** With a torch that has no CUDA, [fix_pytorch_cuda.main] enters the fix. *)
Lemma pytorch_main_enters_fix (torch : torch_info) (w : World) :
  import_torch (host w) = Ret torch -> cuda_available torch = false ->
  exists texts,
    fix_pytorch_cuda.main w
    = fix_pytorch_cuda.fix_process (with_out w (out w ++ texts)).
Proof.
  intros Ht Hc.
  unfold fix_pytorch_cuda.main, fix_pytorch_cuda.check_current_pytorch,
    fix_pytorch_cuda.cuda_already_working.
  repeat (progress (run_step; rewrite ?Ht, ?Hc)).
  unfold with_out. eexists. rewrite <- !app_assoc. reflexivity.
Qed.

(** C2, as amended. A [main] returns, with exit status 0, in these cases,
    and prints its closing block only where it gets that far:
    [fix_grey_images.main] prints the GREY IMAGE FIX SUMMARY block when a
    VAE file is found; when none is found and the download fails in a way
    [download_recommended_vae] handles, it returns early, after the text
    that asks for a manual download and without the summary block.
    [fix_pytorch_cuda.main], on a torch without CUDA and when a child
    process can fail only by its exit status, runs the fix and ends with
    its Next steps block whatever the installs gave; when torch does not
    import it returns early after five texts, without that block. *)
Theorem main_returns_and_closes (w : World) :
  (forall first rest,
     fst (fix_grey_images.check_available_vaes w) = Ret (first :: rest) ->
     exit_status fix_grey_images.main w = 0
     /\ exists texts,
          out (snd (fix_grey_images.main w)) = out w ++ texts
          /\ In summary_banner texts)
  /\
  (fst (fix_grey_images.check_available_vaes w) = Ret [] ->
   fst (fix_grey_images.download_recommended_vae w) = Ret None ->
     exit_status fix_grey_images.main w = 0
     /\ exists texts,
          out (snd (fix_grey_images.main w)) = out w ++ texts
          /\ In (line "❌ Failed to download VAE. Please download manually.") texts
          /\ ~ In summary_banner texts)
  /\
  (fails_by_exit_status ->
   forall torch,
     import_torch (host w) = Ret torch -> cuda_available torch = false ->
     exit_status fix_pytorch_cuda.main w = 0
     /\ exists texts,
          out (snd (fix_pytorch_cuda.main w)) = out w ++ texts
          /\ sublist [line (nl +:+ "🔧 CUDA not available. Starting fix process...");
                      line "Next steps:"] texts)
  /\
  (forall e,
     import_torch (host w) = Raise e -> is_ImportError e = true ->
     exit_status fix_pytorch_cuda.main w = 0
     /\ out (snd (fix_pytorch_cuda.main w))
        = out w ++ [ line "PyTorch CUDA Fix for Python 3.13";
                     line (str_mul "=" 50);
                     line "Checking current PyTorch installation...";
                     line "PyTorch is not installed";
                     line "❌ PyTorch not found. Please run the main fix script first." ]).
Proof.
  split; [| split; [| split]].
  - intros first rest Hav.
    destruct (grey_main_with_vae first rest w Hav) as (a & texts & Hr & Ho & _ & Hs).
    split; [eapply exit_status_returns, Hr |].
    exists texts. split; [exact Ho |]. eapply sublist_In; [exact Hs | now left].
  - intros Hav Hdl.
    destruct (grey_main_without_vae w Hav Hdl) as (a & texts & Hr & Ho & Hp & Hs).
    split; [eapply exit_status_returns, Hr |].
    exists texts. split; [exact Ho |]. split.
    + eapply sublist_In; [exact Hs | now left].
    + now apply (not_starting_not_In "GREY IMAGE FIX SUMMARY").
  - intros Hfail torch Ht Hc.
    destruct (pytorch_main_enters_fix torch w Ht Hc) as (t0 & Hmain).
    destruct (fix_process_closes Hfail (with_out w (out w ++ t0)))
      as (a & texts & Hr & Ho & _ & Hs).
    rewrite <- Hmain in Hr, Ho.
    split; [eapply exit_status_returns, Hr |].
    exists (t0 ++ texts). split.
    + rewrite Ho. cbn [out with_out]. now rewrite app_assoc.
    + now apply sublist_inserts_l.
  - intros e He Hi.
    unfold exit_status, fix_pytorch_cuda.main, fix_pytorch_cuda.check_current_pytorch.
    repeat (progress (run_step; rewrite ?He, ?Hi)).
    split; [reflexivity |]. now rewrite <- !app_assoc.
Qed.

End MainReturns.

(** C2, as stated, fails on [fix_grey_images.main]: in a tree with a
    checkpoint and no VAE, on a host without network, [main] returns
    without the GREY IMAGE FIX SUMMARY block; and in a tree without the
    [models] directory the [mkdir] of [download_recommended_vae] raises
    outside every [try], so the exit status is 1. *)
Lemma grey_main_ends_without_summary :
  let w := start bare_host tree_with_checkpoint in
  exit_status fix_grey_images.main w = 0
  /\ fst (fix_grey_images.check_available_vaes w) = Ret []
  /\ In (line "❌ Failed to download VAE. Please download manually.")
        (out (snd (fix_grey_images.main w)))
  /\ ~ In summary_banner (out (snd (fix_grey_images.main w)))
  /\ exit_status fix_grey_images.main (start bare_host ∅) = 1.
Proof.
  cbv zeta. split; [vm_compute; reflexivity |].
  split; [vm_compute; reflexivity |].
  split; [vm_compute; auto 30 |].
  split; [| vm_compute; reflexivity].
  vm_compute. intros Hin.
  repeat (destruct Hin as [Hin | Hin]; [discriminate Hin |]). exact Hin.
Qed.

(** ** Concrete runs *)

(** On a host where the first install fails and the second brings CUDA,
    [install_cuda_pytorch] stops at the second config; on a host where pip
    installs [open_clip], [fix_sgm_openclip.main] skips Strategy 2. *)
Lemma attempts_stop_at_first_success_witness :
  let w := start second_config_host ∅ in
  let w2 := start openclip_installable_host tree_with_sgm in
  (fix_pytorch_cuda.cuda_configs = [cu121] ++ cu118 :: [cu124]
   /\ attempts_fail [cu121] (host w) = true
   /\ attempt_succeeds cu118 (host_after_attempts [cu121] (host w)) = true
   /\ fst (fix_sgm_openclip.try_install_compatible_openclip w2) = Ret true)
  /\ fst (fix_pytorch_cuda.install_cuda_pytorch w) = Ret true
  /\ procs (snd (fix_pytorch_cuda.install_cuda_pytorch w))
     = procs w ++ map (fix_pytorch_cuda.install_command (H := scripted second_config_host))
                      ([cu121] ++ [cu118])
  /\ fst (fix_sgm_openclip.main w2) = Ret tt.
Proof.
  cbv zeta.
  split; [repeat split; vm_compute; reflexivity |].
  destruct (attempts_stop_at_first_success (start second_config_host ∅))
    as (Hfirst & _ & _).
  destruct (Hfirst [cu121] cu118 [cu124]) as (Hr & Hp & _);
    [vm_compute; reflexivity .. |].
  destruct (attempts_stop_at_first_success
              (start openclip_installable_host tree_with_sgm))
    as (_ & _ & Hsgm).
  destruct (Hsgm true) as (Hm & _); [vm_compute; reflexivity |].
  split; [exact Hr |]. split; [exact Hp | exact Hm].
Defined.

(** [fix_grey_images.main] with a VAE in the tree and with none and no
    network; [fix_pytorch_cuda.main] with a CPU-only torch and pip finding
    nothing, and without torch. *)
Lemma main_returns_and_closes_witness :
  let w1 := start bare_host tree_with_vae in
  let w2 := start bare_host tree_with_checkpoint in
  let w3 := start cpu_only_host ∅ in
  let w4 := start bare_host ∅ in
  (fst (fix_grey_images.check_available_vaes w1)
   = Ret ["models/VAE/vae-ft-mse-840000-ema-pruned.safetensors"]
   /\ fst (fix_grey_images.check_available_vaes w2) = Ret []
   /\ fst (fix_grey_images.download_recommended_vae w2) = Ret None
   /\ fails_by_exit_status (H := scripted cpu_only_host)
   /\ import_torch (host w3) = Ret (torch_build false)
   /\ cuda_available (torch_build false) = false
   /\ import_torch (host w4) = Raise (ImportError "No module named 'torch'")
   /\ is_ImportError (ImportError "No module named 'torch'") = true)
  /\ exit_status fix_grey_images.main w1 = 0
  /\ exit_status fix_grey_images.main w2 = 0
  /\ exit_status fix_pytorch_cuda.main w3 = 0
  /\ exit_status fix_pytorch_cuda.main w4 = 0.
Proof.
  cbv zeta.
  assert (Hfail : fails_by_exit_status (H := scripted cpu_only_host))
    by (intros cmd h e Hs; discriminate Hs).
  split.
  { split; [vm_compute; reflexivity |]. split; [vm_compute; reflexivity |].
    split; [vm_compute; reflexivity |]. split; [exact Hfail |].
    repeat split; reflexivity. }
  destruct (main_returns_and_closes (start bare_host tree_with_vae))
    as (H1 & _ & _ & _).
  destruct (H1 "models/VAE/vae-ft-mse-840000-ema-pruned.safetensors" [])
    as (E1 & _); [vm_compute; reflexivity |].
  destruct (main_returns_and_closes (start bare_host tree_with_checkpoint))
    as (_ & H2 & _ & _).
  destruct H2 as (E2 & _); [vm_compute; reflexivity .. |].
  destruct (main_returns_and_closes (start cpu_only_host ∅))
    as (_ & _ & H3 & _).
  destruct (H3 Hfail (torch_build false)) as (E3 & _); [reflexivity .. |].
  destruct (main_returns_and_closes (start bare_host ∅))
    as (_ & _ & _ & H4).
  destruct (H4 (ImportError "No module named 'torch'")) as (E4 & _);
    [reflexivity .. |].
  split; [exact E1 |]. split; [exact E2 |]. split; [exact E3 | exact E4].
Defined.





(** Launchers of an earlier run are replaced by the templates. *)
Lemma launcher_overwrites_witness :
  let w := start bare_host tree_with_launchers in
  (writable "webui_env.bat" w = true
   /\ fst (fix_grey_images.create_vae_fix_launch_script w) = Ret true)
  /\ fs w !! "webui_env.bat" = Some ("@echo off" +:+ nl +:+ "call webui.bat" +:+ nl)
  /\ fs (snd (fix_pytorch_cuda.update_webui_config w)) !! "webui_env.bat"
     = Some fix_pytorch_cuda.webui_content
  /\ fs (snd (fix_grey_images.create_vae_fix_launch_script w)) !! "webui_vae_fixed.bat"
     = Some fix_grey_images.script_content.
Proof.
  cbv zeta.
  split; [repeat split; vm_compute; reflexivity |].
  split; [vm_compute; reflexivity |].
  destruct (launcher_overwrites (start bare_host tree_with_launchers))
    as (Henv & Hfix).
  destruct Henv as (He & _); [vm_compute; reflexivity |].
  split; [exact He | apply Hfix; vm_compute; reflexivity].
Defined.

(** On a host where every pip command exits with status 1, the uninstall
    loop and the first strategy go on. *)
Lemma handled_exception_does_not_stop_steps_witness :
  let w := start cpu_only_host ∅ in
  (fails_by_exit_status (H := scripted cpu_only_host)
   /\ String.eqb (snd ("Latest xFormers", "xformers")) "skip" = false
   /\ (forall e, import_torch (host w) = Raise e -> is_ImportError e = true))
  /\ fst (fix_pytorch_cuda.uninstall_current_pytorch w) = Ret tt
  /\ (fst (fix_final_gpu_issues.try_strategy ("Latest xFormers", "xformers") w)
      = Ret None
      \/ fst (fix_final_gpu_issues.try_strategy ("Latest xFormers", "xformers") w)
         = Ret (Some true))
  /\ exists installed,
       fst (fix_final_gpu_issues.try_xformers_alternatives w) = Ret installed.
Proof.
  cbv zeta.
  assert (Hfail : fails_by_exit_status (H := scripted cpu_only_host))
    by (intros cmd h e Hs; discriminate Hs).
  assert (Himport : forall e,
             import_torch (host (start cpu_only_host ∅)) = Raise e ->
             is_ImportError e = true)
    by (intros e He; discriminate He).
  split; [split; [exact Hfail | split; [reflexivity | exact Himport]] |].
  destruct (handled_exception_does_not_stop_steps (start cpu_only_host ∅))
    as (Huninstall & Hstrategy & Hreturns).
  destruct (Huninstall Hfail) as (Hr & _).
  split; [exact Hr |].
  split; [apply Hstrategy; reflexivity | apply Hreturns, Himport].
Defined.


(** ** More on fix_grey_images.py *)

Section GreyImages.
Context `{Platform}.

Lemma eq_str_spec (v : json) (s : string) : eq_str v s = true <-> v = JStr s.
Proof.
  destruct v; cbn [eq_str]; split; try discriminate.
  - intros E. apply String.eqb_eq in E. now subst.
  - intros [= ->]. apply String.eqb_refl.
Qed.

(** The answer of [check_current_vae_config], read off the file. *)
Lemma check_current_vae_config_result (w : World) :
  fst (fix_grey_images.check_current_vae_config w)
  = Ret (vae_configured_in (fs w !! fix_grey_images.ui_config_file)).
Proof.
  unfold fix_grey_images.check_current_vae_config, vae_configured_in, preferred_vae,
    json_load, py_get.
  run_step. unfold file_exists. cbn [fs].
  destruct (fs w !! fix_grey_images.ui_config_file) as [text|] eqn:Ef.
  - rewrite bool_decide_eq_true_2 by eauto. cbn [orb]. run_step. rewrite ?Ef.
    destruct (json_loads text) as [[ | b | n | s | xs | items]|]; run_step;
      try reflexivity.
    match goal with |- context [if ?b then _ else _] => destruct b end;
      run_step; reflexivity.
  - rewrite bool_decide_eq_false_2 by (intros [x Hx]; discriminate). cbn [orb].
    match goal with |- context [if ?b then _ else _] => destruct b end;
      run_step; rewrite ?Ef; run_step; reflexivity.
Qed.


(** A file below a directory makes the directory exist. *)
Lemma file_below_dir (w : World) (path dir text : string) :
  fs w !! path = Some text -> startswith (dir +:+ "/") path = true ->
  dir_exists dir w = true.
Proof.
  intros Hf Hs. unfold dir_exists. apply orb_true_iff. right.
  apply existsb_exists. exists (path, text). split; [| exact Hs].
  apply list_elem_of_In, elem_of_map_to_list, Hf.
Qed.

(** The VAE is there: no download. *)
Lemma download_recommended_vae_existing (w : World) (text : string) :
  fs w !! fix_grey_images.vae_path = Some text ->
  fix_grey_images.download_recommended_vae w
  = (Ret (Some fix_grey_images.vae_path),
     with_out w (out w ++ [line (nl +:+ "=== Downloading Recommended VAE ===");
                           line ("✅ VAE already exists: "
                                 +:+ fix_grey_images.vae_filename)])).
Proof.
  intros Hf.
  pose proof (file_below_dir w _ fix_grey_images.vae_dir _ Hf eq_refl) as Hd.
  unfold fix_grey_images.download_recommended_vae, mkdir. run_step.
  change (dir_exists fix_grey_images.vae_dir (mkWorld _ _ _ _ _ _))
    with (dir_exists fix_grey_images.vae_dir w).
  rewrite Hd. run_step. unfold file_exists. cbn [fs].
  rewrite Hf, bool_decide_eq_true_2 by eauto. cbn [orb]. run_step.
  unfold with_out. now rewrite <- app_assoc.
Qed.

(** X2. When the recommended VAE is already in [models/VAE],
    [download_recommended_vae] returns its path at once: it prints two
    texts and nothing else of the world changes, whatever the network
    would answer. *)
Theorem download_skips_existing_vae (w : World) (text : string) :
  fs w !! fix_grey_images.vae_path = Some text ->
  fst (fix_grey_images.download_recommended_vae w)
  = Ret (Some fix_grey_images.vae_path)
  /\ snd (fix_grey_images.download_recommended_vae w)
     = with_out w (out w ++ [line (nl +:+ "=== Downloading Recommended VAE ===");
                             line ("✅ VAE already exists: "
                                   +:+ fix_grey_images.vae_filename)]).
Proof.
  intros Hf. now rewrite (download_recommended_vae_existing w text Hf).
Qed.

(** The progress texts of a download. *)
Lemma for_do_print_end {X} (xs : list X) (f : X -> string) (w : World) :
  exists texts,
    for_do xs (fun x => print_end (f x) "") w
    = (Ret tt, with_out w (out w ++ texts)).
Proof.
  revert w. induction xs as [|x xs IH]; intros w; cbn [for_do].
  - exists []. unfold ret, with_out. rewrite app_nil_r. now destruct w.
  - unfold bind, print_end at 1.
    match goal with |- context [for_do xs _ ?w1] => destruct (IH w1) as (t & ->) end.
    eexists. unfold with_out. cbn [host fs dirs locked out procs].
    rewrite <- app_assoc. reflexivity.
Qed.

(** X3. A download that breaks off leaves what it got: when the stream
    raises after the file was opened, [download_recommended_vae] returns
    [None] and the partial text stays in
    [models/VAE/vae-ft-mse-840000-ema-pruned.safetensors]; the next run
    finds that file and returns it as the VAE. *)
Theorem broken_download_is_kept (w : World) (response : http_response) (e : exn) :
  dir_exists fix_grey_images.vae_dir w = true ->
  fs w !! fix_grey_images.vae_path = None ->
  writable fix_grey_images.vae_path w = true ->
  http_get fix_grey_images.vae_url (host w) = Ret response ->
  broken response = Some e ->
  fst (fix_grey_images.download_recommended_vae w) = Ret None
  /\ fs (snd (fix_grey_images.download_recommended_vae w))
       !! fix_grey_images.vae_path = Some (body response)
  /\ fst (fix_grey_images.download_recommended_vae
            (snd (fix_grey_images.download_recommended_vae w)))
     = Ret (Some fix_grey_images.vae_path).
Proof.
  intros Hd Hf Hw Hget Hbroken.
  assert (Hrun : exists texts,
             fix_grey_images.download_recommended_vae w
             = (Ret None,
                mkWorld (host w)
                  (<[fix_grey_images.vae_path := body response]> (fs w))
                  (dirs w) (locked w) (out w ++ texts) (procs w))).
  { unfold fix_grey_images.download_recommended_vae, mkdir. run_step.
    change (dir_exists fix_grey_images.vae_dir (mkWorld _ _ _ _ _ _))
      with (dir_exists fix_grey_images.vae_dir w).
    rewrite Hd. run_step. unfold file_exists. cbn [fs].
    rewrite Hf, bool_decide_eq_false_2 by (intros [x Hx]; discriminate).
    assert (Hnd : dir_exists fix_grey_images.vae_path w = false).
    { unfold writable in Hw. apply andb_prop in Hw as [Hw _].
      apply andb_prop in Hw as [_ Hw]. now apply negb_true_iff in Hw. }
    change (dir_exists fix_grey_images.vae_path (mkWorld _ _ _ _ _ _))
      with (dir_exists fix_grey_images.vae_path w).
    rewrite Hnd. cbn [orb]. run_step. rewrite Hget. run_step.
    unfold write_file.
    change (writable fix_grey_images.vae_path (mkWorld _ _ _ _ _ _))
      with (writable fix_grey_images.vae_path w).
    rewrite Hw. cbn [fst snd host fs dirs locked out procs].
    match goal with
    | |- context [for_do (progress response) ?body ?w1] =>
        destruct (for_do_print_end (progress response)
                    (fun percent => fix_grey_images.cr +:+ "Progress: " +:+ percent +:+ "%") w1)
          as (t & Hprogress)
    end.
    cbv beta delta [print_end] in Hprogress.
    rewrite Hprogress, Hbroken. run_step. unfold with_out.
    cbn [host fs dirs locked out procs].
    eexists. rewrite <- !app_assoc. reflexivity. }
  destruct Hrun as (texts & Hrun). rewrite Hrun. cbn [fst snd fs].
  split; [reflexivity |]. split; [apply lookup_insert_eq |].
  erewrite download_recommended_vae_existing; [reflexivity |].
  cbn [fs]. apply lookup_insert_eq.
Qed.

End GreyImages.

Lemma download_skips_existing_vae_witness :
  let w := start bare_host tree_with_vae in
  fs w !! fix_grey_images.vae_path = Some ""
  /\ fst (fix_grey_images.download_recommended_vae w)
     = Ret (Some "models/VAE/vae-ft-mse-840000-ema-pruned.safetensors").
Proof.
  cbv zeta. split; [vm_compute; reflexivity |].
  apply (download_skips_existing_vae (start bare_host tree_with_vae) "").
  vm_compute. reflexivity.
Defined.

Lemma broken_download_is_kept_witness :
  let w := start flaky_network_host tree_with_empty_vae_dir in
  let response := {| progress := ["12.5"; "25.0"];
                     body := "partial";
                     broken := Some (Other "ChunkedEncodingError" "Connection broken") |} in
  (dir_exists fix_grey_images.vae_dir w = true
   /\ fs w !! fix_grey_images.vae_path = None
   /\ writable fix_grey_images.vae_path w = true
   /\ http_get fix_grey_images.vae_url (host w) = Ret response)
  /\ fst (fix_grey_images.download_recommended_vae w) = Ret None
  /\ fst (fix_grey_images.download_recommended_vae
            (snd (fix_grey_images.download_recommended_vae w)))
     = Ret (Some "models/VAE/vae-ft-mse-840000-ema-pruned.safetensors").
Proof.
  cbv zeta. split; [repeat split; vm_compute; reflexivity |].
  destruct (broken_download_is_kept
              (start flaky_network_host tree_with_empty_vae_dir)
              {| progress := ["12.5"; "25.0"];
                 body := "partial";
                 broken := Some (Other "ChunkedEncodingError" "Connection broken") |}
              (Other "ChunkedEncodingError" "Connection broken"))
    as (Hnone & _ & Hagain); try (vm_compute; reflexivity).
  split; [exact Hnone | exact Hagain].
Defined.


(** ** More on the UI config update *)

Section UiConfigUpdate.
Context `{Platform}.
Import fix_grey_images.

Lemma dict_set_same (k : string) (v : json) (d : list (string * json)) :
  dict_get k d = Some v -> dict_set k v d = d.
Proof.
  induction d as [|[k' v'] d IH]; cbn [dict_get dict_set]; [discriminate |].
  destruct (String.eqb k k'); [now intros [= ->] | intros E; now rewrite IH].
Qed.

Lemma with_preferred_vae_again (vae_name : string) (d : list (string * json)) :
  with_preferred_vae vae_name (with_preferred_vae vae_name d)
  = with_preferred_vae vae_name d.
Proof.
  destruct (with_preferred_vae_get vae_name d) as (Ht & Hi & _).
  unfold with_preferred_vae at 1.
  rewrite (dict_set_same txt2img_key) by exact Ht.
  now apply dict_set_same.
Qed.

(** Writing a file does not make or unmake a directory beside it. *)
Lemma dir_exists_insert (w : World) (dir path text : string) (texts : list string) :
  startswith (dir +:+ "/") path = false ->
  dir_exists dir (mkWorld (host w) (<[path := text]> (fs w)) (dirs w) (locked w)
                    texts (procs w))
  = dir_exists dir w.
Proof.
  intros Hs. unfold dir_exists. cbn [dirs fs]. f_equal.
  apply eq_true_iff_eq. rewrite !existsb_exists. split.
  - intros ([k v] & Hin & Hk). cbn [fst] in Hk.
    apply list_elem_of_In, elem_of_map_to_list in Hin.
    destruct (decide (k = path)) as [-> | Hne]; [congruence |].
    rewrite lookup_insert_ne in Hin by congruence.
    exists (k, v). split; [| exact Hk].
    now apply list_elem_of_In, elem_of_map_to_list.
  - intros ([k v] & Hin & Hk). cbn [fst] in Hk.
    apply list_elem_of_In, elem_of_map_to_list in Hin.
    destruct (decide (k = path)) as [-> | Hne]; [congruence |].
    exists (k, v). split; [| exact Hk].
    apply list_elem_of_In, elem_of_map_to_list.
    now rewrite lookup_insert_ne by congruence.
Qed.

(** The update, run on a config that can be read and written. *)
Lemma configure_vae_runs (vae_name : string) (w : World)
    (before : list (string * json)) :
  writable ui_config_file w = true ->
  match fs w !! ui_config_file with
  | Some text => json_loads text = Some (JDict before)
  | None => before = []
  end ->
  exists texts,
    configure_vae_in_ui_config vae_name w
    = (Ret true,
       mkWorld (host w)
         (<[ui_config_file := json_dumps (JDict (with_preferred_vae vae_name before))]>
            (fs w))
         (dirs w) (locked w) (out w ++ texts) (procs w)).
Proof.
  intros Hw Hb.
  assert (Hnd : dir_exists ui_config_file w = false).
  { unfold writable in Hw. apply andb_prop in Hw as [Hw _].
    apply andb_prop in Hw as [_ Hw]. now apply negb_true_iff in Hw. }
  unfold configure_vae_in_ui_config, json_load, py_setitem, write_file.
  run_step. unfold file_exists. cbn [fs].
  change (dir_exists ui_config_file (mkWorld _ _ _ _ _ _))
    with (dir_exists ui_config_file w).
  rewrite Hnd.
  destruct (fs w !! ui_config_file) as [text|] eqn:Ef.
  - rewrite bool_decide_eq_true_2 by eauto. cbn [orb]. run_step.
    rewrite ?Ef, Hb. run_step.
    change (writable ui_config_file (mkWorld _ _ _ _ _ _))
      with (writable ui_config_file w).
    rewrite Hw. run_step.
    eexists. rewrite <- !app_assoc. reflexivity.
  - rewrite bool_decide_eq_false_2 by (intros [x Hx]; discriminate). cbn [orb].
    subst before. run_step.
    change (writable ui_config_file (mkWorld _ _ _ _ _ _))
      with (writable ui_config_file w).
    rewrite Hw. run_step.
    eexists. rewrite <- !app_assoc. reflexivity.
Qed.

(** Every way the update can end. *)
Lemma configure_vae_outcome (vae_name : string) (w : World) :
  (exists before texts,
     writable ui_config_file w = true
     /\ match fs w !! ui_config_file with
        | Some text => json_loads text = Some (JDict before)
        | None => before = []
        end
     /\ configure_vae_in_ui_config vae_name w
        = (Ret true,
           mkWorld (host w)
             (<[ui_config_file := json_dumps (JDict (with_preferred_vae vae_name before))]>
                (fs w))
             (dirs w) (locked w) (out w ++ texts) (procs w)))
  \/ (exists texts,
        configure_vae_in_ui_config vae_name w
        = (Ret false, with_out w (out w ++ texts))).
Proof.
  destruct (writable ui_config_file w) eqn:Hw.
  - destruct (fs w !! ui_config_file) as [text|] eqn:Ef.
    + destruct (json_loads text) as [[ | b | n | s | xs | before]|] eqn:Ej.
      6: { left. destruct (configure_vae_runs vae_name w before Hw) as (t & Hrun);
             [now rewrite Ef |].
           exists before, t. split; [reflexivity |]. split; [reflexivity | exact Hrun]. }
      all: right; unfold configure_vae_in_ui_config, json_load, py_setitem;
        run_step; unfold file_exists; cbn [fs];
        rewrite Ef, bool_decide_eq_true_2 by eauto; cbn [orb]; run_step;
        rewrite ?Ef, Ej; run_step;
        eexists; unfold with_out; rewrite <- !app_assoc; reflexivity.
    + left. destruct (configure_vae_runs vae_name w [] Hw) as (t & Hrun);
        [now rewrite Ef |].
      exists [], t. split; [reflexivity |]. split; [reflexivity | exact Hrun].
  - right. unfold configure_vae_in_ui_config, json_load, py_setitem, write_file.
    repeat (first
              [ progress (run_step; cbn [orb andb negb])
              | progress (change (writable ui_config_file (mkWorld _ _ _ _ _ _))
                            with (writable ui_config_file w); rewrite Hw)
              | match goal with
                | |- context [match fs w !! ?p with _ => _ end] =>
                    destruct (fs w !! p)
                | |- context [match json_loads ?t with _ => _ end] =>
                    destruct (json_loads t) as [[ | ? | ? | ? | ? | ?]|]
                | |- context [if ?b then _ else _] => destruct b
                end ]);
      eexists; unfold with_out; rewrite <- !app_assoc; reflexivity.
Qed.




End UiConfigUpdate.




(** ** Occurrences of a text in a text *)

Lemma startswith_split (p s : string) :
  startswith p s = true <-> exists rest, s = p +:+ rest.
Proof.
  revert s. induction p as [|a p IH]; intros s; cbn [startswith].
  - split; [intros _; now exists s | reflexivity].
  - destruct s as [|b s]; [split; [discriminate | intros (r & [=])] |].
    destruct (Ascii.eqb_spec a b) as [-> | Hne].
    + rewrite IH. split; intros (r & E); exists r; cbn in *; congruence.
    + split; [discriminate | intros (r & E)]. cbn in E. congruence.
Qed.

Lemma str_in_split (sub s : string) :
  str_in sub s = true <-> exists pre post, s = pre +:+ sub +:+ post.
Proof.
  split.
  - induction s as [|c s IH]; cbn [str_in]; rewrite orb_true_iff.
    + intros [Hs | [=]]. apply startswith_split in Hs as (r & ->).
      now exists "", r.
    + intros [Hs | Hin].
      * apply startswith_split in Hs as (r & ->). now exists "", r.
      * destruct (IH Hin) as (pre & post & ->). now exists (String c pre), post.
  - intros (pre & post & ->). induction pre as [|c pre IH].
    + cbn [String.append]. destruct (sub +:+ post) eqn:E; cbn [str_in];
        rewrite <- E; apply orb_true_iff; left; apply startswith_split; eauto.
    + cbn [String.append str_in]. rewrite IH. apply orb_true_r.
Qed.

Lemma str_in_trans (a b c : string) :
  str_in a b = true -> str_in b c = true -> str_in a c = true.
Proof.
  rewrite !str_in_split. intros (p & q & ->) (pre & post & ->).
  exists (pre +:+ p), (q +:+ post). now rewrite !str_app_assoc.
Qed.

Lemma str_app_inv_head (pre a b : string) : pre +:+ a = pre +:+ b -> a = b.
Proof. induction pre as [|c pre IH]; cbn [String.append]; [auto | intros [= E]; auto]. Qed.

(** The first occurrence of [old] and what [replace] makes of it. *)
Lemma str_replace_first (old new s : string) :
  old <> "" -> str_in old s = true ->
  exists pre rest tail,
    s = pre +:+ old +:+ rest /\ str_replace old new s = pre +:+ new +:+ tail.
Proof.
  intros Hold. unfold str_replace.
  induction s as [|c s IH]; cbn [str_in str_replace_go].
  - rewrite orb_false_r. intros Hs. destruct old; [congruence | discriminate Hs].
  - rewrite orb_true_iff.
    destruct (startswith old (String c s)) eqn:Hs.
    + intros _. apply startswith_split in Hs as (rest & E).
      exists "", rest. eexists. split; [exact E | reflexivity].
    + intros [[=] | Hin]. destruct (IH Hin) as (pre & rest & tail & -> & ->).
      now exists (String c pre), rest, tail.
Qed.

(** Where [new] does not start as [old] does, replacing an occurrence
    changes the text. *)
Lemma str_replace_changes (old new s : string) :
  old <> "" -> (forall a b, new +:+ a <> old +:+ b) ->
  str_in old s = true -> str_replace old new s <> s.
Proof.
  intros Hold Hdiff Hin E.
  destruct (str_replace_first old new s Hold Hin) as (pre & rest & tail & Hs & Hr).
  rewrite Hr in E. rewrite Hs in E at 1.
  apply str_app_inv_head in E. now apply Hdiff in E.
Qed.

(** What [new] holds, the replaced text holds. *)
Lemma str_in_replaced (marker old new s : string) :
  old <> "" -> str_in marker new = true -> str_in old s = true ->
  str_in marker (str_replace old new s) = true.
Proof.
  intros Hold Hm Hin.
  destruct (str_replace_first old new s Hold Hin) as (pre & rest & tail & _ & ->).
  apply (str_in_trans _ new); [exact Hm |].
  apply str_in_split. eauto.
Qed.

(** Without an occurrence, [replace] changes nothing. *)
Lemma str_replace_absent (old new s : string) :
  str_in old s = false -> str_replace old new s = s.
Proof.
  unfold str_replace. induction s as [|c s IH]; cbn [str_in str_replace_go];
    [reflexivity |].
  rewrite orb_false_iff. intros [-> Hin]. now rewrite IH.
Qed.

(** ** More on the patches of source files *)

(** Run a patch function on a world whose file is known, taking the tests
    the hypotheses do not settle both ways. *)
Ltac run_patch Hf :=
  unfold write_file, writable, file_exists, dir_exists;
  repeat (first
            [ progress (run_step; cbn [orb andb negb]; rewrite ?Hf)
            | match goal with
              | |- context [if ?b then _ else _] => destruct b eqn:?
              | |- context [match ?x with Some _ => _ | None => _ end] =>
                  destruct x eqn:?
              end ];
          try discriminate).

Section Patches.
Context `{Platform}.

(** What a successful [patch_sgm_imports] leaves in the file. *)
Lemma patch_sgm_imports_patched (w : World) (original : string) :
  fs w !! fix_sgm_openclip.sgm_encoder_file = Some original ->
  fst (fix_sgm_openclip.patch_sgm_imports w) = Ret true ->
  fs (snd (fix_sgm_openclip.patch_sgm_imports w)) !! fix_sgm_openclip.sgm_encoder_file
  = Some (if str_in fix_sgm_openclip.old_import original
          then str_replace fix_sgm_openclip.old_import fix_sgm_openclip.new_import
                 original
          else original).
Proof.
  intros Hf. unfold fix_sgm_openclip.patch_sgm_imports.
  run_patch Hf; intros _; apply lookup_insert_eq.
Qed.

Lemma patch_sgm_imports_outcome (w : World) :
  (exists ok, fst (fix_sgm_openclip.patch_sgm_imports w) = Ret ok)
  /\ (fst (fix_sgm_openclip.patch_sgm_imports w) = Ret false ->
      fs (snd (fix_sgm_openclip.patch_sgm_imports w))
        !! fix_sgm_openclip.sgm_encoder_file
      = fs w !! fix_sgm_openclip.sgm_encoder_file).
Proof.
  unfold fix_sgm_openclip.patch_sgm_imports.
  destruct (fs w !! fix_sgm_openclip.sgm_encoder_file) as [original|] eqn:Hf;
    run_patch Hf; (split; [eauto |]); try discriminate; intros _;
    rewrite ?Hf; try reflexivity;
    now rewrite lookup_insert_ne by discriminate.
Qed.

Lemma modify_webui_packages_outcome (w : World) :
  (exists ok, fst (fix_build_tools.modify_webui_packages w) = Ret ok)
  /\ (fst (fix_build_tools.modify_webui_packages w) = Ret false ->
      fs (snd (fix_build_tools.modify_webui_packages w))
        !! fix_build_tools.launch_utils_path
      = fs w !! fix_build_tools.launch_utils_path).
Proof.
  unfold fix_build_tools.modify_webui_packages.
  destruct (fs w !! fix_build_tools.launch_utils_path) as [original|] eqn:Hf;
    run_patch Hf; (split; [eauto |]); try discriminate; intros _;
    rewrite ?Hf; try reflexivity;
    now rewrite lookup_insert_ne by discriminate.
Qed.

Lemma patch_gradio_extensions_outcome (w : World) :
  (exists ok, fst (fix_gradio_compatibility.patch_gradio_extensions w) = Ret ok)
  /\ (fst (fix_gradio_compatibility.patch_gradio_extensions w) = Ret false ->
      fs (snd (fix_gradio_compatibility.patch_gradio_extensions w))
        !! fix_gradio_compatibility.extensions_file
      = fs w !! fix_gradio_compatibility.extensions_file).
Proof.
  unfold fix_gradio_compatibility.patch_gradio_extensions.
  destruct (fs w !! fix_gradio_compatibility.extensions_file) as [original|] eqn:Hf;
    run_patch Hf; (split; [eauto |]); try discriminate; intros _;
    rewrite ?Hf; try reflexivity;
    now rewrite lookup_insert_ne by discriminate.
Qed.

(** X7. The three patch functions that take a backup take it from the
    text they found: after a run of [patch_sgm_imports] or of
    [modify_webui_packages] that returned true, the backup file holds the
    text the patched file had before the run; [patch_gradio_extensions]
    either leaves every file as it was (the file was patched already or
    needs no patch) or leaves the former text in its backup file. *)
Theorem patch_backs_up_the_original (w : World) (original : string) :
  (fs w !! fix_sgm_openclip.sgm_encoder_file = Some original ->
   fst (fix_sgm_openclip.patch_sgm_imports w) = Ret true ->
   fs (snd (fix_sgm_openclip.patch_sgm_imports w))
     !! (fix_sgm_openclip.sgm_encoder_file +:+ ".backup") = Some original)
  /\
  (fs w !! fix_build_tools.launch_utils_path = Some original ->
   fst (fix_build_tools.modify_webui_packages w) = Ret true ->
   fs (snd (fix_build_tools.modify_webui_packages w))
     !! (fix_build_tools.launch_utils_path +:+ ".backup") = Some original)
  /\
  (fs w !! fix_gradio_compatibility.extensions_file = Some original ->
   fst (fix_gradio_compatibility.patch_gradio_extensions w) = Ret true ->
   fs (snd (fix_gradio_compatibility.patch_gradio_extensions w)) = fs w
   \/ fs (snd (fix_gradio_compatibility.patch_gradio_extensions w))
        !! (fix_gradio_compatibility.extensions_file +:+ ".gradio_backup")
      = Some original).
Proof.
  split; [apply patch_sgm_imports_backup |].
  split; [apply modify_webui_packages_backup | apply patch_gradio_extensions_backup].
Qed.


(** X9. [patch_sgm_imports] has no test for a patched file, and the text it
    puts in holds [import open_clip] again: a second successful run on a
    file that held the import takes its backup from the patched text, so
    the backup no longer holds the original, and it patches the patched
    file once more. *)
Theorem second_sgm_patch_loses_the_original (w : World) (original : string) :
  fs w !! fix_sgm_openclip.sgm_encoder_file = Some original ->
  str_in fix_sgm_openclip.old_import original = true ->
  fst (fix_sgm_openclip.patch_sgm_imports w) = Ret true ->
  fst (fix_sgm_openclip.patch_sgm_imports
         (snd (fix_sgm_openclip.patch_sgm_imports w))) = Ret true ->
  let patched :=
    str_replace fix_sgm_openclip.old_import fix_sgm_openclip.new_import original in
  let w2 := snd (fix_sgm_openclip.patch_sgm_imports
                   (snd (fix_sgm_openclip.patch_sgm_imports w))) in
  fs w2 !! (fix_sgm_openclip.sgm_encoder_file +:+ ".backup") = Some patched
  /\ patched <> original
  /\ fs w2 !! fix_sgm_openclip.sgm_encoder_file
     = Some (str_replace fix_sgm_openclip.old_import fix_sgm_openclip.new_import
               patched)
  /\ str_replace fix_sgm_openclip.old_import fix_sgm_openclip.new_import patched
     <> patched.
Proof.
  intros Hf Hin Hfirst Hsecond. cbv zeta.
  assert (Hold : fix_sgm_openclip.old_import <> "") by discriminate.
  assert (Hdiff : forall a b,
             fix_sgm_openclip.new_import +:+ a <> fix_sgm_openclip.old_import +:+ b)
    by (intros a b; discriminate).
  pose proof (patch_sgm_imports_patched w original Hf Hfirst) as Hpatched.
  rewrite Hin in Hpatched.
  assert (Hagain : str_in fix_sgm_openclip.old_import
                     (str_replace fix_sgm_openclip.old_import
                        fix_sgm_openclip.new_import original) = true)
    by (apply str_in_replaced; [exact Hold | reflexivity | exact Hin]).
  split; [now apply patch_sgm_imports_backup |].
  split; [now apply str_replace_changes |].
  split; [| now apply str_replace_changes].
  rewrite (patch_sgm_imports_patched _ _ Hpatched Hsecond). now rewrite Hagain.
Qed.

(** What a successful [patch_gradio_extensions] leaves of a file with the
    line to patch. *)
Lemma patch_gradio_extensions_patched (w : World) (original : string) :
  fs w !! fix_gradio_compatibility.extensions_file = Some original ->
  str_in gradio_patch_marker original = false ->
  str_in fix_gradio_compatibility.old_line original = true ->
  fst (fix_gradio_compatibility.patch_gradio_extensions w) = Ret true ->
  fs (snd (fix_gradio_compatibility.patch_gradio_extensions w))
    !! fix_gradio_compatibility.extensions_file
  = Some (str_replace fix_gradio_compatibility.old_line
            fix_gradio_compatibility.new_lines original).
Proof.
  intros Hf Hm Hin.
  assert (Hio : str_in "gr.components.IOComponent" original = true)
    by (eapply str_in_trans; [| exact Hin]; reflexivity).
  unfold gradio_patch_marker in Hm.
  unfold fix_gradio_compatibility.patch_gradio_extensions.
  unfold write_file, writable, file_exists, dir_exists;
  repeat (first
            [ progress (run_step; cbn [orb andb negb]; rewrite ?Hf, ?Hm, ?Hio)
            | match goal with
              | |- context [if ?b then _ else _] => destruct b eqn:?
              end ];
          try discriminate);
    intros _; apply lookup_insert_eq.
Qed.

(** A patched file is found patched. *)
Lemma patch_gradio_extensions_found_patched (w : World) (content : string) :
  fs w !! fix_gradio_compatibility.extensions_file = Some content ->
  str_in gradio_patch_marker content = true ->
  fix_gradio_compatibility.patch_gradio_extensions w
  = (Ret true,
     with_out w (out w ++ [line (nl +:+ "=== Patching Gradio Extensions ===");
                           line "✅ gradio_extensons.py already patched"])).
Proof.
  intros Hf Hm. unfold gradio_patch_marker in Hm.
  unfold fix_gradio_compatibility.patch_gradio_extensions.
  run_step. unfold file_exists. cbn [fs].
  rewrite Hf, bool_decide_eq_true_2 by eauto. cbn [orb negb]. run_step.
  rewrite Hf. run_step. rewrite Hm. run_step.
  unfold with_out. now rewrite <- app_assoc.
Qed.

(** X10. [patch_gradio_extensions] is idempotent on a file it patched:
    after a successful run on a file that held the line to patch, a second
    run finds the file patched, returns true and changes nothing but the
    output. *)
Theorem gradio_patch_runs_once (w : World) (original : string) :
  fs w !! fix_gradio_compatibility.extensions_file = Some original ->
  str_in gradio_patch_marker original = false ->
  str_in fix_gradio_compatibility.old_line original = true ->
  fst (fix_gradio_compatibility.patch_gradio_extensions w) = Ret true ->
  let w1 := snd (fix_gradio_compatibility.patch_gradio_extensions w) in
  fix_gradio_compatibility.patch_gradio_extensions w1
  = (Ret true,
     with_out w1 (out w1 ++ [line (nl +:+ "=== Patching Gradio Extensions ===");
                             line "✅ gradio_extensons.py already patched"])).
Proof.
  intros Hf Hm Hin Hfirst. cbv zeta.
  eapply patch_gradio_extensions_found_patched.
  - exact (patch_gradio_extensions_patched w original Hf Hm Hin Hfirst).
  - apply str_in_replaced; [discriminate | reflexivity | exact Hin].
Qed.

End Patches.

Lemma patch_backs_up_the_original_witness :
  let w1 := start bare_host tree_with_sgm in
  let w2 := start bare_host tree_with_launch_utils in
  let w3 := start bare_host tree_with_gradio_extensions in
  (fs w1 !! fix_sgm_openclip.sgm_encoder_file = Some sgm_modules_py
   /\ fst (fix_sgm_openclip.patch_sgm_imports w1) = Ret true
   /\ fs w2 !! fix_build_tools.launch_utils_path
      = Some ("import os" +:+ nl +:+ fix_build_tools.old_openclip +:+ nl)
   /\ fst (fix_build_tools.modify_webui_packages w2) = Ret true
   /\ fs w3 !! fix_gradio_compatibility.extensions_file = Some gradio_extensons_py
   /\ fst (fix_gradio_compatibility.patch_gradio_extensions w3) = Ret true)
  /\ fs (snd (fix_sgm_openclip.patch_sgm_imports w1))
       !! (fix_sgm_openclip.sgm_encoder_file +:+ ".backup") = Some sgm_modules_py
  /\ fs (snd (fix_build_tools.modify_webui_packages w2))
       !! (fix_build_tools.launch_utils_path +:+ ".backup")
     = Some ("import os" +:+ nl +:+ fix_build_tools.old_openclip +:+ nl)
  /\ (fs (snd (fix_gradio_compatibility.patch_gradio_extensions w3)) = fs w3
      \/ fs (snd (fix_gradio_compatibility.patch_gradio_extensions w3))
           !! (fix_gradio_compatibility.extensions_file +:+ ".gradio_backup")
         = Some gradio_extensons_py).
Proof.
  cbv zeta. split; [repeat split; vm_compute; reflexivity |].
  destruct (patch_backs_up_the_original (start bare_host tree_with_sgm)
              sgm_modules_py) as (Hsgm & _ & _).
  destruct (patch_backs_up_the_original (start bare_host tree_with_launch_utils)
              ("import os" +:+ nl +:+ fix_build_tools.old_openclip +:+ nl))
    as (_ & Hlaunch & _).
  destruct (patch_backs_up_the_original
              (start bare_host tree_with_gradio_extensions) gradio_extensons_py)
    as (_ & _ & Hgradio).
  split; [apply Hsgm; vm_compute; reflexivity |].
  split; [apply Hlaunch; vm_compute; reflexivity |].
  apply Hgradio; vm_compute; reflexivity.
Defined.


Lemma second_sgm_patch_loses_the_original_witness :
  let w := start bare_host tree_with_sgm in
  let w1 := snd (fix_sgm_openclip.patch_sgm_imports w) in
  let w2 := snd (fix_sgm_openclip.patch_sgm_imports w1) in
  (fs w !! fix_sgm_openclip.sgm_encoder_file = Some sgm_modules_py
   /\ str_in fix_sgm_openclip.old_import sgm_modules_py = true
   /\ fst (fix_sgm_openclip.patch_sgm_imports w) = Ret true
   /\ fst (fix_sgm_openclip.patch_sgm_imports w1) = Ret true)
  /\ fs w2 !! (fix_sgm_openclip.sgm_encoder_file +:+ ".backup")
     = Some (str_replace fix_sgm_openclip.old_import fix_sgm_openclip.new_import
               sgm_modules_py)
  /\ str_replace fix_sgm_openclip.old_import fix_sgm_openclip.new_import
       sgm_modules_py <> sgm_modules_py.
Proof.
  cbv zeta. split; [repeat split; vm_compute; reflexivity |].
  destruct (second_sgm_patch_loses_the_original
              (start bare_host tree_with_sgm) sgm_modules_py)
    as (Hbackup & Hne & _); try (vm_compute; reflexivity).
  split; [exact Hbackup | exact Hne].
Defined.

Lemma gradio_patch_runs_once_witness :
  let w := start bare_host tree_with_gradio_extensions in
  let w1 := snd (fix_gradio_compatibility.patch_gradio_extensions w) in
  (fs w !! fix_gradio_compatibility.extensions_file = Some gradio_extensons_py
   /\ str_in gradio_patch_marker gradio_extensons_py = false
   /\ str_in fix_gradio_compatibility.old_line gradio_extensons_py = true
   /\ fst (fix_gradio_compatibility.patch_gradio_extensions w) = Ret true)
  /\ fix_gradio_compatibility.patch_gradio_extensions w1
     = (Ret true,
        with_out w1
          (out w1 ++ [line (nl +:+ "=== Patching Gradio Extensions ===");
                      line "✅ gradio_extensons.py already patched"])).
Proof.
  cbv zeta. split; [repeat split; vm_compute; reflexivity |].
  apply (gradio_patch_runs_once (start bare_host tree_with_gradio_extensions)
           gradio_extensons_py); vm_compute; reflexivity.
Defined.

(** ** More on the xformers strategies *)

Section Strategies.
Context `{Platform}.

Lemma try_strategy_quiet (strategy : string * string) :
  confined not_all_failed any_path any_command no_exception
    (fix_final_gpu_issues.try_strategy strategy).
Proof.
  destruct strategy as [strategy_name install_cmd].
  unfold fix_final_gpu_issues.try_strategy. confine; caught; reflexivity.
Qed.

(** The closing strategy returns false from inside the loop. *)
Lemma try_strategy_skip (strategy_name : string) (w : World) :
  fix_final_gpu_issues.try_strategy (strategy_name, "skip") w
  = (Ret (Some false),
     with_out w
       (out w ++ [line (nl +:+ "Trying: " +:+ strategy_name);
                  skipping_text;
                  line "Expected performance: 25-40 seconds per 512x512 image";
                  line "This is still 15-25x faster than CPU-only mode"])).
Proof.
  unfold fix_final_gpu_issues.try_strategy. run_step. rewrite String.eqb_refl.
  run_step. unfold with_out. now rewrite <- !app_assoc.
Qed.

(** A loop whose last strategy is [skip] returns from inside the loop. *)
Lemma strategies_end_in_skip (before : list (string * string))
    (strategy_name : string) (w : World) :
  Forall (fun strategy => String.eqb (snd strategy) "skip" = false) before ->
  exists (installed : bool) (texts : list string),
    fst (for_each (before ++ [(strategy_name, "skip")])
           fix_final_gpu_issues.try_strategy w) = Ret (Some installed)
    /\ out (snd (for_each (before ++ [(strategy_name, "skip")])
                   fix_final_gpu_issues.try_strategy w)) = out w ++ texts
    /\ Forall not_all_failed texts
    /\ (installed = false -> In skipping_text texts).
Proof.
  revert w. induction before as [|strategy before IH]; intros w Hall;
    cbn [app for_each]; unfold bind.
  - rewrite try_strategy_skip. cbn [fst snd out with_out]. unfold ret.
    cbn [fst snd out].
    exists false. eexists. split; [reflexivity |]. split; [reflexivity |].
    split; [| intros _; right; now left].
    repeat constructor.
  - inversion Hall as [|? ? Hskip Hrest]; subst.
    destruct (try_strategy_quiet strategy w)
      as (t1 & c1 & Ho1 & Hp1 & _ & _ & _ & _ & _).
    destruct (try_strategy_outcome strategy w Hskip) as [[Hr | Hr] _];
      destruct (fix_final_gpu_issues.try_strategy strategy w) as [r w1];
      cbn [fst snd] in *; subst r.
    + destruct (IH w1 Hrest) as (installed & t2 & Hr2 & Ho2 & Hp2 & Hs2).
      exists installed, (t1 ++ t2). split; [exact Hr2 |].
      split; [rewrite Ho2, Ho1; now rewrite app_assoc |].
      split; [now apply Forall_app_2 |].
      intros E. apply in_or_app. right. auto.
    + exists true, t1. unfold ret. cbn [fst snd].
      split; [reflexivity |]. split; [exact Ho1 |]. split; [exact Hp1 |].
      discriminate.
Qed.

End Strategies.

Section XformersOutcomes.
Context `{Platform}.

(** X11. The loop of [try_xformers_alternatives] always returns from
    inside: its last strategy is [skip], which returns false, so the two
    texts after the loop ([All xFormers installation strategies failed]
    ...) are never printed, and with CUDA available the function returns
    either true or, through the skip strategy, false after the text
    [Skipping xFormers - WebUI will use standard attention]. *)
Theorem xformers_loop_ends_in_skip (w : World) :
  exists texts,
    out (snd (fix_final_gpu_issues.try_xformers_alternatives w)) = out w ++ texts
    /\ ~ In all_failed_text texts
    /\ (forall torch,
          import_torch (host w) = Ret torch -> cuda_available torch = true ->
          fst (fix_final_gpu_issues.try_xformers_alternatives w) = Ret true
          \/ (fst (fix_final_gpu_issues.try_xformers_alternatives w) = Ret false
              /\ In skipping_text texts)).
Proof.
  unfold fix_final_gpu_issues.try_xformers_alternatives. run_step.
  destruct (import_torch (host w)) as [torch | e] eqn:Et; run_step.
  - destruct (cuda_available torch) eqn:Ec; cbn [negb]; run_step.
    + change fix_final_gpu_issues.strategies
        with ([ ("Latest xFormers", "xformers");
                ("Pre-release xFormers", "xformers --pre");
                ("Development xFormers",
                 "git+https://github.com/facebookresearch/xformers.git");
                ("Force install latest",
                 "xformers --force-reinstall --no-cache-dir") ]
              ++ [("Skip xFormers", "skip")]).
      match goal with
      | |- context [for_each (?before ++ _) _ ?w1] =>
          destruct (strategies_end_in_skip before "Skip xFormers" w1)
            as (installed & texts & Hr & Ho & Hp & Hs);
            [repeat constructor |]
      end.
      match type of Hr with
      | fst ?run = _ => destruct run as [r w2]
      end.
      cbn [fst snd out] in *. subst r. run_step.
      eexists. split; [rewrite Ho, <- !app_assoc; reflexivity |].
      split.
      * apply (not_starting_not_In (nl +:+ "All xFormers")); [| reflexivity].
        repeat (constructor; [reflexivity |]). exact Hp.
      * intros torch' _ _. destruct installed; [now left | right].
        split; [reflexivity |]. do 3 right. auto.
    + eexists. split; [rewrite <- !app_assoc; reflexivity |].
      split; [| intros torch' [= <-]; congruence].
      apply (not_starting_not_In (nl +:+ "All xFormers")); [| reflexivity].
      repeat constructor.
  - destruct (is_ImportError e); run_step.
    + eexists. split; [rewrite <- !app_assoc; reflexivity |].
      split; [| discriminate].
      apply (not_starting_not_In (nl +:+ "All xFormers")); [| reflexivity].
      repeat constructor.
    + eexists. split; [reflexivity |]. split; [| discriminate].
      apply (not_starting_not_In (nl +:+ "All xFormers")); [| reflexivity].
      repeat constructor.
Qed.

(** X12. Without CUDA [try_xformers_alternatives] touches nothing: with a
    torch that has no CUDA, and with no torch at all, it returns false
    after its texts and runs no pip command; an import of torch that fails
    with another exception than [ImportError] is not handled and leaves
    the function. *)
Theorem xformers_needs_cuda (w : World) :
  (forall torch,
     import_torch (host w) = Ret torch -> cuda_available torch = false ->
     fix_final_gpu_issues.try_xformers_alternatives w
     = (Ret false,
        with_out w (out w ++ [line "=== Fixing xFormers for PyTorch 2.7.0 ===";
                              line ("PyTorch: " +:+ torch_version torch);
                              line ("CUDA: " +:+ cuda_version torch);
                              line "CUDA not available - skipping xFormers"])))
  /\
  (forall e,
     import_torch (host w) = Raise e -> is_ImportError e = true ->
     fix_final_gpu_issues.try_xformers_alternatives w
     = (Ret false,
        with_out w (out w ++ [line "=== Fixing xFormers for PyTorch 2.7.0 ===";
                              line "PyTorch not available"])))
  /\
  (forall e,
     import_torch (host w) = Raise e -> is_ImportError e = false ->
     fix_final_gpu_issues.try_xformers_alternatives w
     = (Raise e,
        with_out w (out w ++ [line "=== Fixing xFormers for PyTorch 2.7.0 ==="]))).
Proof.
  unfold fix_final_gpu_issues.try_xformers_alternatives.
  split; [| split].
  - intros torch Ht Hc. run_step. rewrite Ht. run_step. rewrite Hc.
    cbn [negb]. run_step. unfold with_out. now rewrite <- !app_assoc.
  - intros e He Hi. run_step. rewrite He. run_step. rewrite Hi. run_step.
    unfold with_out. now rewrite <- !app_assoc.
  - intros e He Hi. run_step. rewrite He. run_step. rewrite Hi. reflexivity.
Qed.

(** X13. [check_current_pytorch] handles only [ImportError]: when the
    import of torch fails with another exception (a DLL that does not
    load), the exception leaves [fix_pytorch_cuda.main] after three texts,
    no command is run, and the exit status is 1. *)
Theorem broken_torch_import_ends_main (w : World) (e : exn) :
  import_torch (host w) = Raise e -> is_ImportError e = false ->
  fix_pytorch_cuda.main w
  = (Raise e,
     with_out w (out w ++ [line "PyTorch CUDA Fix for Python 3.13";
                           line (str_mul "=" 50);
                           line "Checking current PyTorch installation..."]))
  /\ exit_status fix_pytorch_cuda.main w = 1.
Proof.
  intros He Hi.
  assert (Hrun : fix_pytorch_cuda.main w
                 = (Raise e,
                    with_out w (out w ++ [line "PyTorch CUDA Fix for Python 3.13";
                                          line (str_mul "=" 50);
                                          line "Checking current PyTorch installation..."]))).
  { unfold fix_pytorch_cuda.main, fix_pytorch_cuda.check_current_pytorch.
    run_step. rewrite He. run_step. rewrite Hi.
    unfold with_out. now rewrite <- !app_assoc. }
  split; [exact Hrun |]. unfold exit_status. now rewrite Hrun.
Qed.

End XformersOutcomes.

Lemma xformers_loop_ends_in_skip_witness :
  let w := start xformers_unusable_host ∅ in
  (import_torch (host w) = Ret (torch_build true)
   /\ cuda_available (torch_build true) = true)
  /\ exists texts,
       out (snd (fix_final_gpu_issues.try_xformers_alternatives w)) = out w ++ texts
       /\ ~ In all_failed_text texts
       /\ (fst (fix_final_gpu_issues.try_xformers_alternatives w) = Ret true
           \/ (fst (fix_final_gpu_issues.try_xformers_alternatives w) = Ret false
               /\ In skipping_text texts)).
Proof.
  cbv zeta. split; [split; reflexivity |].
  destruct (xformers_loop_ends_in_skip (start xformers_unusable_host ∅))
    as (texts & Ho & Hnot & Hskip).
  exists texts. split; [exact Ho |]. split; [exact Hnot |].
  apply (Hskip (torch_build true)); reflexivity.
Defined.

Lemma xformers_needs_cuda_witness :
  let w1 := start cpu_only_host ∅ in
  let w2 := start bare_host ∅ in
  let w3 := start broken_torch_host ∅ in
  (import_torch (host w1) = Ret (torch_build false)
   /\ cuda_available (torch_build false) = false
   /\ import_torch (host w2) = Raise (ImportError "No module named 'torch'")
   /\ import_torch (host w3)
      = Raise (OSError "[WinError 126] The specified module could not be found"))
  /\ procs (snd (fix_final_gpu_issues.try_xformers_alternatives w1)) = []
  /\ fst (fix_final_gpu_issues.try_xformers_alternatives w2) = Ret false
  /\ fst (fix_final_gpu_issues.try_xformers_alternatives w3)
     = Raise (OSError "[WinError 126] The specified module could not be found").
Proof.
  cbv zeta. split; [repeat split; reflexivity |].
  destruct (xformers_needs_cuda (start cpu_only_host ∅)) as (H1 & _ & _).
  destruct (xformers_needs_cuda (start bare_host ∅)) as (_ & H2 & _).
  destruct (xformers_needs_cuda (start broken_torch_host ∅)) as (_ & _ & H3).
  rewrite (H1 (torch_build false) eq_refl eq_refl).
  rewrite (H2 (ImportError "No module named 'torch'") eq_refl eq_refl).
  rewrite (H3 (OSError "[WinError 126] The specified module could not be found")
              eq_refl eq_refl).
  repeat split.
Defined.

Lemma broken_torch_import_ends_main_witness :
  let w := start broken_torch_host ∅ in
  import_torch (host w)
  = Raise (OSError "[WinError 126] The specified module could not be found")
  /\ exit_status fix_pytorch_cuda.main w = 1
  /\ procs (snd (fix_pytorch_cuda.main w)) = [].
Proof.
  cbv zeta. split; [reflexivity |].
  destruct (broken_torch_import_ends_main (start broken_torch_host ∅)
              (OSError "[WinError 126] The specified module could not be found")
              eq_refl eq_refl) as (Hrun & Hexit).
  split; [exact Hexit |]. now rewrite Hrun.
Defined.

(** ** fix_gradio_compatibility.main *)

Section GradioMain.
Context `{Platform}.

Lemma check_gradio_version_quiet :
  confined (fun text => no_gradio_install text /\ no_gradio_patch text)
    no_path no_command any_exception
    fix_gradio_compatibility.check_gradio_version.
Proof.
  unfold fix_gradio_compatibility.check_gradio_version.
  confine; caught; repeat split; reflexivity.
Qed.

Lemma check_gradio_version_prints_only :
  prints_only fix_gradio_compatibility.check_gradio_version.
Proof.
  unfold fix_gradio_compatibility.check_gradio_version, py_import, py_value.
  only_prints.
Qed.

Lemma install_compatible_gradio_quiet :
  confined no_gradio_patch no_path any_command any_exception
    fix_gradio_compatibility.install_compatible_gradio.
Proof.
  unfold fix_gradio_compatibility.install_compatible_gradio,
    fix_gradio_compatibility.try_version_spec.
  confine; caught; repeat split; reflexivity.
Qed.

(** What [main] does once Gradio is found fit. *)
Lemma gradio_main_rest_runs_no_command :
  confined no_gradio_install any_path no_command any_exception
    (fix_gradio_compatibility.patch_gradio_extensions;;
     gradio_works ← fix_gradio_compatibility.test_gradio_webui_compatibility;
     extensions_work ← fix_gradio_compatibility.test_webui_gradio_extensions;
     fix_gradio_compatibility.fix_summary gradio_works extensions_work).
Proof.
  unfold fix_gradio_compatibility.patch_gradio_extensions,
    fix_gradio_compatibility.test_gradio_webui_compatibility,
    fix_gradio_compatibility.test_webui_gradio_extensions,
    fix_gradio_compatibility.fix_summary,
    fix_gradio_compatibility.check_gradio_version.
  confine; caught; reflexivity.
Qed.

Lemma confined_at_texts (P P' : string -> Prop) Q C E {A} (m : M A) (w : World) :
  (forall text, P text -> P' text) ->
  confined_at P Q C E m w -> confined_at P' Q C E m w.
Proof.
  intros Himp (t & c & Ho & Hp & Hrest). exists t, c.
  split; [exact Ho |]. split; [| exact Hrest].
  eapply Forall_impl; eauto.
Qed.

Lemma confined_at_commands Q Q' (C C' : list string -> Prop) P E {A}
    (m : M A) (w : World) :
  (forall path, Q path -> Q' path) -> (forall cmd, C cmd -> C' cmd) ->
  confined_at P Q C E m w -> confined_at P Q' C' E m w.
Proof.
  intros Hq Hc (t & c & Ho & Hp & Hpr & Hcs & Hf & Hrest). exists t, c.
  split; [exact Ho |]. split; [exact Hp |]. split; [exact Hpr |].
  split; [eapply Forall_impl; eauto |].
  split; [| exact Hrest].
  intros p Hp'. apply Hf. auto.
Qed.

(** X14. The install of [fix_gradio_compatibility.main] is guarded by the
    version check: when [check_gradio_version] finds a Gradio with
    [IOComponent], [main] runs no pip command at all and never prints the
    banner of [install_compatible_gradio]. *)
Theorem gradio_3_needs_no_install (w : World) (version : string)
    (api : option string) :
  fst (fix_gradio_compatibility.check_gradio_version w)
  = Ret (Some version, api, true) ->
  procs (snd (fix_gradio_compatibility.main w)) = procs w
  /\ exists texts,
       out (snd (fix_gradio_compatibility.main w)) = out w ++ texts
       /\ ~ In gradio_install_banner texts.
Proof.
  intros Hcheck.
  assert (Hmain : confined_at no_gradio_install any_path no_command any_exception
                    fix_gradio_compatibility.main w).
  { unfold fix_gradio_compatibility.main.
    apply confined_at_bind; [apply confined_print; reflexivity |].
    intros u1 w1 E1. apply confined_at_bind; [apply confined_print; reflexivity |].
    intros u2 w2 E2. apply confined_at_bind.
    { eapply confined_at_commands, confined_at_texts,
        check_gradio_version_quiet; [intros p [] | intros c [] |].
      now intros text [Hi _]. }
    intros checked w3 E3.
    assert (checked = (Some version, api, true)) as ->.
    { apply print_result in E1. apply print_result in E2. subst w1 w2.
      apply (f_equal fst) in E3.
      rewrite with_out_with_out in E3.
      rewrite (confined_at_result _ _ _ _ _ w (check_gradio_version_quiet w)) in E3.
      rewrite Hcheck in E3. cbn [fst] in E3. congruence. }
    cbv beta iota. unfold fix_gradio_compatibility.ensure_gradio. cbn [negb].
    apply confined_at_bind; [apply confined_ret |].
    intros go_on w4 [= <- <-]. cbn [negb].
    apply gradio_main_rest_runs_no_command. }
  destruct Hmain as (texts & cmds & Ho & Hp & Hc & Hn & _).
  split.
  - rewrite Hc. destruct cmds as [|cmd cmds]; [apply app_nil_r |].
    inversion Hn as [|? ? []].
  - exists texts. split; [exact Ho |].
    now apply (not_starting_not_In (nl +:+ "=== Installing Compatible Gradio")).
Qed.

(** X15. When Gradio does not import and none of the three installs
    brings it, [fix_gradio_compatibility.main] returns at once: it prints
    that it could not install a compatible Gradio and runs neither
    [patch_gradio_extensions] nor the tests, and prints no summary
    block. *)
Theorem gradio_missing_ends_main (w : World) (api : option string) (io : bool) :
  fst (fix_gradio_compatibility.check_gradio_version w) = Ret (None, api, io) ->
  fst (fix_gradio_compatibility.install_compatible_gradio w) = Ret false ->
  fst (fix_gradio_compatibility.main w) = Ret tt
  /\ exists texts,
       out (snd (fix_gradio_compatibility.main w)) = out w ++ texts
       /\ In (line "❌ Could not install compatible Gradio") texts
       /\ ~ In gradio_patch_banner texts
       /\ ~ In gradio_summary_banner texts.
Proof.
  intros Hcheck Hinstall.
  assert (Hrun : forall t,
             fst (fix_gradio_compatibility.check_gradio_version (with_out w t))
             = Ret (None, api, io)).
  { intros t.
    rewrite (confined_at_result _ _ _ _ _ w (check_gradio_version_quiet w)).
    exact Hcheck. }
  assert (Hrun' : forall t,
             fst (fix_gradio_compatibility.install_compatible_gradio (with_out w t))
             = Ret false).
  { intros t.
    rewrite (confined_at_result _ _ _ _ _ w (install_compatible_gradio_quiet w)).
    exact Hinstall. }
  assert (Hmain : returns_printing no_gradio_patch
                    [line "❌ Could not install compatible Gradio"]
                    fix_gradio_compatibility.main w).
  { unfold fix_gradio_compatibility.main.
    do 2 (apply returns_printing_then; [split; reflexivity |]).
    rewrite !with_out_with_out.
    apply returns_printing_skip.
    { eapply returns_printing_returned; [| apply Hrun].
      eapply confined_at_texts, check_gradio_version_quiet.
      now intros text [_ Hp]. }
    intros checked w1 E1. assert (checked = (None, api, io)) as ->.
    { apply (f_equal fst) in E1. rewrite Hrun in E1. cbn [fst] in E1. congruence. }
    destruct (prints_only_world _ _ _ _ check_gradio_version_prints_only E1)
      as (t1 & ->).
    rewrite !with_out_with_out. cbv beta iota.
    unfold fix_gradio_compatibility.ensure_gradio.
    apply returns_printing_assoc.
    apply returns_printing_then; [split; reflexivity |].
    rewrite !with_out_with_out.
    apply returns_printing_assoc.
    apply returns_printing_skip.
    { eapply returns_printing_returned;
        [apply install_compatible_gradio_quiet | apply Hrun']. }
    intros installed w2 E2. assert (installed = false) as ->.
    { apply (f_equal fst) in E2. rewrite Hrun' in E2. cbn [fst] in E2. congruence. }
    cbn [negb]. apply returns_printing_assoc.
    apply returns_printing_now; [split; reflexivity |].
    apply returns_printing_skip; [apply returns_printing_ret |].
    intros go_on w3 E3. assert (go_on = false) as ->.
    { unfold ret in E3. congruence. }
    cbn [negb]. apply returns_printing_ret. }
  destruct Hmain as ([] & texts & Hr & Ho & Hp & Hs).
  split; [exact Hr |]. exists texts. split; [exact Ho |].
  split; [eapply sublist_In; [exact Hs | now left] |].
  split.
  - apply (not_starting_not_In (nl +:+ "=== Patching Gradio")); [| reflexivity].
    eapply Forall_impl; [exact Hp |]. now intros text [H1 H2].
  - apply (not_starting_not_In "GRADIO COMPATIBILITY FIX SUMMARY"); [| reflexivity].
    eapply Forall_impl; [exact Hp |]. now intros text [H1 H2].
Qed.

End GradioMain.

Lemma gradio_3_needs_no_install_witness :
  let w := start gradio_3_host tree_with_gradio_extensions in
  fst (fix_gradio_compatibility.check_gradio_version w)
  = Ret (Some "3.41.2", Some "3.x", true)
  /\ procs (snd (fix_gradio_compatibility.main w)) = procs w.
Proof.
  cbv zeta. split; [vm_compute; reflexivity |].
  destruct (gradio_3_needs_no_install
              (start gradio_3_host tree_with_gradio_extensions)
              "3.41.2" (Some "3.x")) as (Hprocs & _); [vm_compute; reflexivity |].
  exact Hprocs.
Defined.

Lemma gradio_missing_ends_main_witness :
  let w := start bare_host tree_with_gradio_extensions in
  (fst (fix_gradio_compatibility.check_gradio_version w) = Ret (None, None, false)
   /\ fst (fix_gradio_compatibility.install_compatible_gradio w) = Ret false)
  /\ fst (fix_gradio_compatibility.main w) = Ret tt
  /\ exists texts,
       out (snd (fix_gradio_compatibility.main w)) = out w ++ texts
       /\ ~ In gradio_patch_banner texts.
Proof.
  cbv zeta. split; [split; vm_compute; reflexivity |].
  destruct (gradio_missing_ends_main
              (start bare_host tree_with_gradio_extensions) None false)
    as (Hr & texts & Ho & _ & Hnp & _); try (vm_compute; reflexivity).
  split; [exact Hr |]. exists texts. split; [exact Ho | exact Hnp].
Defined.

(** ** Installs one after the other, and two more file updates *)

Section ManualInstalls.
Context `{Platform}.

(** One turn of the loop of [manual_package_installation]. *)
Lemma install_package_step (item : string * string) (w : World) :
  fails_by_exit_status ->
  exists texts,
    fix_build_tools.install_package item w
    = (Ret tt,
       mkWorld (snd (spawn (fix_build_tools.manual_install_command item) (host w)))
         (fs w) (dirs w) (locked w) (out w ++ texts)
         (procs w ++ [fix_build_tools.manual_install_command item])).
Proof.
  intros Hspawn. unfold fix_build_tools.install_package, subprocess_run. run_step.
  pose proof (Hspawn (fix_build_tools.manual_install_command item) (host w)) as Hs.
  destruct (spawn (fix_build_tools.manual_install_command item) (host w))
    as [[rc so se | e] h'] eqn:Es; cbn [fst snd andb] in *.
  - destruct (negb (rc =? 0)); run_step; cbn [is_CalledProcessError]; run_step;
      eexists; rewrite <- !app_assoc; reflexivity.
  - specialize (Hs e eq_refl). run_step. rewrite Hs. run_step.
    eexists; rewrite <- !app_assoc; reflexivity.
Qed.

Lemma install_package_loop (items : list (string * string)) (w : World) :
  fails_by_exit_status ->
  fst (for_do items fix_build_tools.install_package w) = Ret tt
  /\ procs (snd (for_do items fix_build_tools.install_package w))
     = procs w ++ map fix_build_tools.manual_install_command items.
Proof.
  intros Hspawn. revert w. induction items as [|item items IH]; intros w.
  - cbn [for_do map]. unfold ret. cbn [fst snd]. now rewrite app_nil_r.
  - cbn [for_do map]. unfold bind.
    destruct (install_package_step item w Hspawn) as (texts & ->).
    match goal with |- context [for_do items _ ?w1] => specialize (IH w1) end.
    destruct IH as (Hret & Hprocs). split; [exact Hret |].
    rewrite Hprocs. cbn [procs]. now rewrite <- app_assoc.
Qed.

(** X16. [manual_package_installation] goes through all four packages:
    when a child process can fail only by its exit status, it returns and
    has run the four pip installs in the order of the list, whichever of
    them failed; only the first package is pinned to a version. *)
Theorem manual_installs_all_run (w : World) :
  fails_by_exit_status ->
  fst (fix_build_tools.manual_package_installation w) = Ret tt
  /\ procs (snd (fix_build_tools.manual_package_installation w))
     = procs w ++ [ [sys_executable; "-m"; "pip"; "install"; "open-clip-torch==2.24.0"];
                    [sys_executable; "-m"; "pip"; "install"; "clip-by-openai"];
                    [sys_executable; "-m"; "pip"; "install"; "transformers"];
                    [sys_executable; "-m"; "pip"; "install"; "tokenizers"] ].
Proof.
  intros Hspawn. unfold fix_build_tools.manual_package_installation.
  cbv beta iota zeta delta [bind print print_end].
  match goal with
  | |- context [for_do _ _ ?w1] =>
      destruct (install_package_loop fix_build_tools.packages_to_install w1 Hspawn)
        as (Hret & Hprocs)
  end.
  split; [exact Hret |]. rewrite Hprocs. reflexivity.
Qed.

End ManualInstalls.

Lemma manual_installs_all_run_witness :
  let w := start cpu_only_host ∅ in
  fails_by_exit_status (H := scripted cpu_only_host)
  /\ fst (fix_build_tools.manual_package_installation w) = Ret tt
  /\ procs (snd (fix_build_tools.manual_package_installation w))
     = [ ["python"; "-m"; "pip"; "install"; "open-clip-torch==2.24.0"];
         ["python"; "-m"; "pip"; "install"; "clip-by-openai"];
         ["python"; "-m"; "pip"; "install"; "transformers"];
         ["python"; "-m"; "pip"; "install"; "tokenizers"] ].
Proof.
  cbv zeta.
  assert (Hfail : fails_by_exit_status (H := scripted cpu_only_host))
    by (intros cmd h e Hs; discriminate Hs).
  split; [exact Hfail |].
  destruct (manual_installs_all_run (start cpu_only_host ∅) Hfail) as (Hr & Hp).
  split; [exact Hr | exact Hp].
Defined.

Section FileUpdates.
Context `{Platform}.

(** X17. [update_webui_config_for_openclip] tests for less than it
    replaces.  A [webui_compatible.bat] without the text
    [pip install pytorch_lightning torchmetrics] makes it fall off its end:
    it returns [None] after its banner and reports nothing.  A file with
    that text but without the whole line that is replaced is written back
    as it was, and the function reports the update and returns true. *)
Theorem openclip_config_update_edges (w : World) (content : string) :
  fs w !! fix_sgm_openclip.config_file = Some content ->
  (str_in openclip_config_marker content = false ->
   fix_sgm_openclip.update_webui_config_for_openclip w
   = (Ret None,
      with_out w (out w ++ [line (nl +:+ "=== Updating WebUI Configuration ===")])))
  /\
  (str_in openclip_config_marker content = true ->
   str_in fix_sgm_openclip.old_line content = false ->
   writable fix_sgm_openclip.config_file w = true ->
   fst (fix_sgm_openclip.update_webui_config_for_openclip w) = Ret (Some true)
   /\ fs (snd (fix_sgm_openclip.update_webui_config_for_openclip w)) = fs w
   /\ out (snd (fix_sgm_openclip.update_webui_config_for_openclip w))
      = out w ++ [line (nl +:+ "=== Updating WebUI Configuration ===");
                  line "✅ Updated webui_compatible.bat"]).
Proof.
  intros Hf. unfold openclip_config_marker.
  unfold fix_sgm_openclip.update_webui_config_for_openclip.
  split.
  - intros Hm. run_step. unfold file_exists. cbn [fs].
    rewrite Hf, bool_decide_eq_true_2 by eauto. cbn [orb negb]. run_step.
    rewrite Hf. run_step. rewrite Hm. reflexivity.
  - intros Hm Hold Hw. run_step. unfold file_exists. cbn [fs].
    rewrite Hf, bool_decide_eq_true_2 by eauto. cbn [orb negb]. run_step.
    rewrite Hf. run_step. rewrite Hm. unfold write_file.
    change (writable fix_sgm_openclip.config_file (mkWorld _ _ _ _ _ _))
      with (writable fix_sgm_openclip.config_file w).
    rewrite Hw. run_step. rewrite (str_replace_absent _ _ _ Hold).
    split; [reflexivity |]. split; [| now rewrite <- app_assoc].
    now apply insert_id.
Qed.

End FileUpdates.

Lemma openclip_config_update_edges_witness :
  let w1 := start bare_host tree_with_plain_launcher in
  let w2 := start bare_host tree_with_other_pip_line in
  (fs w1 !! fix_sgm_openclip.config_file
   = Some ("@echo off" +:+ nl +:+ "call webui.bat" +:+ nl)
   /\ str_in openclip_config_marker ("@echo off" +:+ nl +:+ "call webui.bat" +:+ nl)
      = false
   /\ fs w2 !! fix_sgm_openclip.config_file = Some other_pip_line
   /\ str_in openclip_config_marker other_pip_line = true
   /\ str_in fix_sgm_openclip.old_line other_pip_line = false
   /\ writable fix_sgm_openclip.config_file w2 = true)
  /\ fst (fix_sgm_openclip.update_webui_config_for_openclip w1) = Ret None
  /\ fst (fix_sgm_openclip.update_webui_config_for_openclip w2) = Ret (Some true)
  /\ fs (snd (fix_sgm_openclip.update_webui_config_for_openclip w2)) = fs w2.
Proof.
  cbv zeta. split; [repeat split; vm_compute; reflexivity |].
  destruct (openclip_config_update_edges
              (start bare_host tree_with_plain_launcher)
              ("@echo off" +:+ nl +:+ "call webui.bat" +:+ nl))
    as (Hnone & _); [vm_compute; reflexivity |].
  destruct (openclip_config_update_edges
              (start bare_host tree_with_other_pip_line) other_pip_line)
    as (_ & Hsame); [vm_compute; reflexivity |].
  destruct Hsame as (Hr & Hfs & _); try (vm_compute; reflexivity).
  rewrite Hnone; [| vm_compute; reflexivity].
  split; [reflexivity |]. split; [exact Hr | exact Hfs].
Defined.

Section AlternativeDownload.
Context `{Platform}.

Lemma download_alternative_vae_returns :
  confined any_text any_path any_command no_exception
    diagnose_vae_issue.download_alternative_vae.
Proof.
  unfold diagnose_vae_issue.download_alternative_vae.
  confine; caught.
Qed.


End AlternativeDownload.

